(** * Ax-Shell dock: window/application matching, reconciliation, occlusion
      and pinned-configuration engine ([modules/dock.py])

    A shallow embedding of the [DockConfig] and [Dock] methods that decide
    how pinned records and live compositor windows become the dock's button
    list, together with the properties of that engine.

    Modelling conventions
    - Python [str] values are [string]s, one [ascii] per character, so
      the characters are U+0000..U+00FF; [str.lower], [str.strip] and
      [str.split] treat them as Python does.
    - Python dicts are association lists in insertion order, with unique
      keys; [dict.setdefault], [in] and item access are written out on them.
    - Exceptions are values of [exn]; a method that can raise returns a
      [result], and what it had assigned before raising is not kept.
    - The [json] module and the compositor socket are outside the
      repository: a file or a reply is modelled by what [open], [decode]
      and [json.load] make of it, and [json.dump] followed by [json.load]
      gives the document back.
    - [list(set(xs))] yields the elements in an order the program does not
      fix: the methods that depend on it take the listing function as
      their first argument.
    - GTK widgets are reduced to the data the engine attaches to them. *)

From Stdlib Require Import String Ascii List Bool Arith ZArith Lia PeanoNat
  Permutation.
Import ListNotations.
Open Scope string_scope.
Open Scope list_scope.
Open Scope nat_scope.

Set Implicit Arguments.

(** ** Python string primitives *)

Module PyStr.

(** The upper-case letters among the characters U+0000..U+00FF: [A]..[Z]
    and the accented capitals U+00C0..U+00DE without the sign U+00D7. *)
Definition is_upper (c : ascii) : bool :=
  let n := nat_of_ascii c in
  ((65 <=? n) && (n <=? 90))
  || ((192 <=? n) && (n <=? 214))
  || ((216 <=? n) && (n <=? 222)).

(** [c.lower()] on one character. *)
Definition lower_char (c : ascii) : ascii :=
  if is_upper c then ascii_of_nat (nat_of_ascii c + 32) else c.

(** [s.lower()]. On the characters U+0000..U+00FF it works character by
    character and keeps the length; on all of Unicode it need not (U+0130
    becomes two characters), so the properties of the engine are stated
    without the length of a lowercased string. *)
Fixpoint lower (s : string) : string :=
  match s with
  | EmptyString => EmptyString
  | String c r => String (lower_char c) (lower r)
  end.

(** [s.endswith(suffix)] *)
Definition endswith (s suffix : string) : bool :=
  (String.length suffix <=? String.length s)
  && String.eqb
       (substring (String.length s - String.length suffix)
                  (String.length suffix) s)
       suffix.

(** [s[:-k]]: Python reads [-0] as [0], so [s[:-0]] is empty. *)
Definition drop_end (k : nat) (s : string) : string :=
  if k =? 0 then "" else substring 0 (String.length s - k) s.

(** [needle in hay] *)
Fixpoint contains (needle hay : string) : bool :=
  prefix needle hay
  || match hay with
     | EmptyString => false
     | String _ r => contains needle r
     end.

(** [s.split(sep)[0]] for a non-empty separator. *)
Fixpoint before_first (sep s : string) : string :=
  if prefix sep s then ""
  else match s with
       | EmptyString => ""
       | String c r => String c (before_first sep r)
       end.

(** Characters removed by [str.strip()] and separating [str.split()]. *)
Definition is_space (c : ascii) : bool :=
  let n := nat_of_ascii c in
  ((9 <=? n) && (n <=? 13)) || ((28 <=? n) && (n <=? 32))
  || (n =? 133) || (n =? 160).

Fixpoint lstrip (s : string) : string :=
  match s with
  | EmptyString => EmptyString
  | String c r => if is_space c then lstrip r else s
  end.

Fixpoint rstrip (s : string) : string :=
  match s with
  | EmptyString => EmptyString
  | String c r =>
      let r' := rstrip r in
      if is_space c && String.eqb r' "" then "" else String c r'
  end.

(** [s.strip()] *)
Definition strip (s : string) : string := rstrip (lstrip s).

(** [s.split(sep)] for a one-character separator: never empty. *)
Fixpoint split_on (sep : ascii) (s : string) : list string :=
  match s with
  | EmptyString => [""]
  | String c r =>
      if Ascii.eqb c sep then "" :: split_on sep r
      else match split_on sep r with
           | h :: t => String c h :: t
           | [] => [String c ""]
           end
  end.

(** [s.split('/')[-1]] *)
Definition basename (s : string) : string := last (split_on "/" s) "".

(** [s.split()]: runs of whitespace separate, empty pieces are dropped. *)
Fixpoint split_ws (s : string) : list string :=
  match s with
  | EmptyString => []
  | String c r =>
      if is_space c then split_ws r
      else match r with
           | EmptyString => [String c ""]
           | String c' _ =>
               if is_space c' then String c "" :: split_ws r
               else match split_ws r with
                    | h :: t => String c h :: t
                    | [] => [String c ""]
                    end
           end
  end.

(** Truth value of a string: [bool(s)]. *)
Definition truthy (s : string) : bool := negb (String.eqb s "").

End PyStr.

(** ** WindowClassifier: [Dock._normalize_window_class] *)

Definition suffixes : list string := [".bin"; ".exe"; ".so"; "-bin"; "-gtk"].

(** One turn of the loop body
    [if normalized.endswith(suffix): normalized = normalized[:-len(suffix)]]. *)
Definition strip_suffix (normalized suffix : string) : string :=
  if PyStr.endswith normalized suffix
  then PyStr.drop_end (String.length suffix) normalized
  else normalized.

(** The [for suffix in suffixes] loop. *)
Definition strip_suffixes (normalized : string) : string :=
  fold_left strip_suffix suffixes normalized.

Definition _normalize_window_class (class_name : string) : string :=
  if negb (PyStr.truthy class_name) then ""
  else strip_suffixes (PyStr.lower class_name).

(** [s] ends with one of the five suffixes. *)
Definition ends_with_suffix (s : string) : bool :=
  existsb (PyStr.endswith s) suffixes.

Definition _classes_match (class1 class2 : string) : bool :=
  if negb (PyStr.truthy class1) || negb (PyStr.truthy class2) then false
  else String.eqb (_normalize_window_class class1)
                  (_normalize_window_class class2).

(** ** Exceptions and results *)

Inductive exn : Type :=
| FileNotFoundError
| JSONDecodeError
| UnicodeDecodeError
| TypeError
| IndexError
| KeyError
| ZeroDivisionError
| OSError
| AttributeError.

Inductive result (A : Type) : Type :=
| Ok (a : A)
| Raise (e : exn).

Arguments Ok {A} a.
Arguments Raise {A} e.

Definition bind {A B : Type} (m : result A) (k : A -> result B) : result B :=
  match m with
  | Ok a => k a
  | Raise e => Raise e
  end.

Notation "x <- m ;; k" := (bind m (fun x => k))
  (at level 61, m at next level, right associativity).

(** [try: body  except <handled>: handler]. *)
Definition try_except {A : Type} (body : result A) (handled : exn -> bool)
    (handler : result A) : result A :=
  match body with
  | Ok a => Ok a
  | Raise e => if handled e then handler else Raise e
  end.

Definition is_JSONDecodeError (e : exn) : bool :=
  match e with JSONDecodeError => true | _ => false end.

Definition is_FileNotFound_or_JSONDecode (e : exn) : bool :=
  match e with FileNotFoundError | JSONDecodeError => true | _ => false end.

(** ** Python dicts with string keys, in insertion order *)

Section Dict.
Variable V : Type.

(** [d.get(k)] *)
Fixpoint dict_get (k : string) (d : list (string * V)) : option V :=
  match d with
  | [] => None
  | (k', v) :: r => if String.eqb k k' then Some v else dict_get k r
  end.

(** [k in d] *)
Definition dict_mem (k : string) (d : list (string * V)) : bool :=
  match dict_get k d with Some _ => true | None => false end.

(** [d[k] = v]: an existing key keeps its position. *)
Fixpoint dict_set (k : string) (v : V) (d : list (string * V))
  : list (string * V) :=
  match d with
  | [] => [(k, v)]
  | (k', v') :: r =>
      if String.eqb k k' then (k, v) :: r else (k', v') :: dict_set k v r
  end.

(** [d.keys()] *)
Definition dict_keys (d : list (string * V)) : list string := map fst d.
End Dict.

(** [d.setdefault(k, []).extend(vs)]; [append(c)] is [extend([c])]. *)
Fixpoint setdefault_extend (V : Type) (k : string) (vs : list V)
    (d : list (string * list V)) : list (string * list V) :=
  match d with
  | [] => [(k, vs)]
  | (k', g) :: r =>
      if String.eqb k k' then (k, g ++ vs) :: r
      else (k', g) :: setdefault_extend k vs r
  end.

(** A Python [set] of strings, used for membership only. *)
Definition set_mem (x : string) (s : list string) : bool :=
  existsb (String.eqb x) s.

(** ** Data model *)

(** A catalog entry ([fabric]'s desktop application): every attribute is a
    string or [None]; [get_icon_pixbuf] tells whether the method of that
    name gives a pixbuf for the entry ([true]) or [None]. *)
Record DesktopApp : Type := {
  name : option string;
  display_name : option string;
  window_class : option string;
  executable : option string;
  command_line : option string;
  get_icon_pixbuf : bool
}.

(** Truth value of a string-or-[None] attribute. *)
Definition truthy_opt (o : option string) : bool :=
  match o with
  | Some s => PyStr.truthy s
  | None => false
  end.

(** A pinned entry or button identifier: a bare string or a dict whose
    values are strings or [None] (JSON [null]). *)
Inductive AppId : Type :=
| Bare (s : string)
| Structured (d : list (string * option string)).

(** [key in d and d[key]], giving the value when the test succeeds. *)
Definition truthy_item (key : string) (d : list (string * option string))
  : option string :=
  match dict_get key d with
  | Some (Some s) => if PyStr.truthy s then Some s else None
  | _ => None
  end.

(** The dict literal built from a catalog entry in [_migrate_config],
    [_create_app_identifier] and [update_pinned_apps]. *)
Definition app_data_of (app : DesktopApp) : list (string * option string) :=
  [ ("name", name app);
    ("display_name", display_name app);
    ("window_class", window_class app);
    ("executable", executable app);
    ("command_line", command_line app) ].

(** One compositor window as reported by [j/clients]; a key the code reads
    with [.get(key, "")] is the empty string when absent. *)
Record Client : Type := {
  address : string;
  class : string;
  initialClass : string;
  title : string;
  workspace : Z
}.

(** What a compositor query amounts to. *)
Inductive IpcOutcome (A : Type) : Type :=
| SendRaises (e : exn)     (* [send_command] itself raises [e] *)
| Undecodable              (* reply bytes are not UTF-8: [.decode()] raises *)
| Malformed                (* reply text is not JSON: [json.loads] raises *)
| Parsed (a : A).          (* reply text is the JSON value [a] *)

Arguments SendRaises {A} e.
Arguments Undecodable {A}.
Arguments Malformed {A}.
Arguments Parsed {A} a.

(** [conn.send_command(cmd).reply.decode()] followed by [json.loads]. *)
Definition send_decode_loads {A : Type} (o : IpcOutcome A) : result A :=
  match o with
  | SendRaises e => Raise e
  | Undecodable => Raise UnicodeDecodeError
  | Malformed => Raise JSONDecodeError
  | Parsed a => Ok a
  end.

(** A dock child widget: an application button with the attributes
    [create_button] sets on it, or the separator box. *)
Record Button : Type := {
  app_identifier : AppId;
  desktop_app : option DesktopApp;
  instances : list Client
}.

Inductive Child : Type :=
| AppButton (b : Button)
| Separator.

(** A JSON object as [dock.json] holds it: the value under
    ["pinned_apps"], [None] when the key is absent. The value is a list of
    strings and of objects with string or [null] values, which is what
    the program writes; an object with another kind of value under the
    key is outside the model. *)
Record ConfigData : Type := {
  pinned_apps_item : option (list AppId)
}.

(** What [json.load] returns: an object, or another JSON value (a list, a
    string, a number, [true], [false] or [null]). *)
Inductive Json : Type :=
| JsonObject (c : ConfigData)
| JsonOther.

(** The configuration file as [open] and [json.load] see it. *)
Inductive File : Type :=
| NoFile          (* no such file: [open] raises [FileNotFoundError] *)
| Unreadable      (* [open] raises another [OSError]: [PermissionError],
                     [IsADirectoryError] *)
| NotUtf8         (* bytes that are not UTF-8: [UnicodeDecodeError] *)
| NotJson         (* text that is not JSON: [JSONDecodeError] *)
| JsonOtherFile   (* JSON text of a value that is not an object *)
| JsonFile (c : ConfigData).   (* JSON text of an object *)

Record FileSystem : Type := {
  dock_json : File;
  writable : bool
}.

(** The [Dock] object: the attributes read or written by the engine.
    [reveal_child] is the revealer's state, [occluded] the style class of
    [dock_full], [occlusion_checks] counts the calls of
    [check_occlusion_state]. *)
Record Dock : Type := {
  integrated_mode : bool;
  always_show : bool;
  _saved_always_show : option bool;
  _forced_occlusion : bool;
  _prevent_occlusion : bool;
  _drag_in_progress : bool;
  is_mouse_over_dock_area : bool;
  reveal_child : bool;
  occluded : bool;
  occlusion_checks : nat;
  _all_apps : list DesktopApp;
  app_identifiers : list (string * DesktopApp);
  app_map : list (string * DesktopApp);
  pinned : list AppId;
  children : list Child
}.

(** ** PinnedConfigStore: [DockConfig] *)

Definition _needs_migration (config_data : ConfigData) : bool :=
  match pinned_apps_item config_data with
  | Some (Bare _ :: _) => true
  | _ => false
  end.

(** [{app.name: app for app in all_apps if app.name}] *)
Definition build_app_map (all_apps : list DesktopApp)
  : list (string * DesktopApp) :=
  fold_left
    (fun m app =>
       match name app with
       | Some n => if PyStr.truthy n then dict_set n app m else m
       | None => m
       end)
    all_apps [].

(** One turn of the migration loop. [app_map.get(app_id)] hashes its
    argument, and a dict is not hashable. *)
Definition migrate_entry (app_map : list (string * DesktopApp))
    (app_id : AppId) : result AppId :=
  match app_id with
  | Bare s =>
      match dict_get s app_map with
      | Some app => Ok (Structured (app_data_of app))
      | None => Ok (Structured [("name", Some s)])
      end
  | Structured _ => Raise TypeError
  end.

Fixpoint migrate_entries (app_map : list (string * DesktopApp))
    (old_pinned : list AppId) : result (list AppId) :=
  match old_pinned with
  | [] => Ok []
  | app_id :: rest =>
      e <- migrate_entry app_map app_id ;;
      r <- migrate_entries app_map rest ;;
      Ok (e :: r)
  end.

(** [all_apps] is what [get_desktop_applications()] returns. *)
Definition _migrate_config (all_apps : list DesktopApp)
    (config_data : ConfigData) : result ConfigData :=
  let app_map := build_app_map all_apps in
  match pinned_apps_item config_data with
  | Some old_pinned =>
      migrated <- migrate_entries app_map old_pinned ;;
      Ok {| pinned_apps_item := Some migrated |}
  | None => Raise KeyError
  end.

(** [open(path, "r")] then [json.load]. *)
Definition open_and_load (f : File) : result Json :=
  match f with
  | NoFile => Raise FileNotFoundError
  | Unreadable => Raise OSError
  | NotUtf8 => Raise UnicodeDecodeError
  | NotJson => Raise JSONDecodeError
  | JsonOtherFile => Ok JsonOther
  | JsonFile c => Ok (JsonObject c)
  end.

(** [_read_config]: on a JSON value that is not an object
    [config_data.get], the first statement of [_needs_migration], raises
    [AttributeError]. *)
Definition _read_config (all_apps : list DesktopApp) (fs : FileSystem)
  : result ConfigData :=
  try_except
    (document <- open_and_load (dock_json fs) ;;
     match document with
     | JsonObject config_data =>
         if _needs_migration config_data
         then _migrate_config all_apps config_data
         else Ok config_data
     | JsonOther => Raise AttributeError
     end)
    is_FileNotFound_or_JSONDecode
    (Ok {| pinned_apps_item := Some [] |}).

Record DockConfig : Type := {
  config : ConfigData
}.

(** The [pinned_apps] property and its setter. *)
Definition pinned_apps (self : DockConfig) : list AppId :=
  match pinned_apps_item (config self) with
  | Some l => l
  | None => []
  end.

Definition set_pinned_apps (value : list AppId) (self : DockConfig)
  : DockConfig :=
  {| config := {| pinned_apps_item := Some value |} |}.

(** [save]: any exception of [open] or [json.dump] is reported as [False];
    a file that cannot be opened for writing is left as it is. *)
Definition save (self : DockConfig) (fs : FileSystem) : bool * FileSystem :=
  if writable fs
  then (true, {| dock_json := JsonFile (config self);
                 writable := writable fs |})
  else (false, fs).

(** [reload], and the constructor's read: the new [DockConfig] object. *)
Definition reload (all_apps : list DesktopApp) (fs : FileSystem)
  : result DockConfig :=
  c <- _read_config all_apps fs ;;
  Ok {| config := c |}.

(** ** IdentifierIndex and AppMatcher *)

(** [app.command_line.split()[0]] *)
Definition first_token (s : string) : result string :=
  match PyStr.split_ws s with
  | [] => Raise IndexError
  | t :: _ => Ok t
  end.

(** The body of the loop of [_build_app_identifiers_map] for one [app]. *)
Definition register_app (identifiers : list (string * DesktopApp))
    (app : DesktopApp) : result (list (string * DesktopApp)) :=
  let reg (attr : option string) (f : string -> string) ids :=
    match attr with
    | Some s => if PyStr.truthy s then dict_set (f s) app ids else ids
    | None => ids
    end in
  let ids1 := reg (name app) PyStr.lower identifiers in
  let ids2 := reg (display_name app) PyStr.lower ids1 in
  let ids3 := reg (window_class app) PyStr.lower ids2 in
  let ids4 :=
    reg (executable app) (fun s => PyStr.lower (PyStr.basename s)) ids3 in
  match command_line app with
  | Some s =>
      if PyStr.truthy s
      then tok <- first_token s ;;
           Ok (dict_set (PyStr.lower (PyStr.basename tok)) app ids4)
      else Ok ids4
  | None => Ok ids4
  end.

Fixpoint register_apps (identifiers : list (string * DesktopApp))
    (apps : list DesktopApp) : result (list (string * DesktopApp)) :=
  match apps with
  | [] => Ok identifiers
  | app :: rest =>
      ids <- register_app identifiers app ;;
      register_apps ids rest
  end.

Definition _build_app_identifiers_map (all_apps : list DesktopApp)
  : result (list (string * DesktopApp)) :=
  register_apps [] all_apps.

(** [attr and normalized_id in attr.lower()] *)
Definition attr_contains (normalized_id : string) (attr : option string)
  : bool :=
  match attr with
  | Some s => PyStr.truthy s && PyStr.contains normalized_id (PyStr.lower s)
  | None => false
  end.

(** The five tests of the fuzzy loop of [find_app_by_key] on one [app]. *)
Definition fuzzy_hit (normalized_id : string) (app : DesktopApp) : bool :=
  attr_contains normalized_id (name app)
  || attr_contains normalized_id (display_name app)
  || attr_contains normalized_id (window_class app)
  || attr_contains normalized_id (executable app)
  || attr_contains normalized_id (command_line app).

Definition fuzzy_match (all_apps : list DesktopApp) (normalized_id : string)
  : option DesktopApp :=
  find (fuzzy_hit normalized_id) all_apps.

Definition exact_match (identifiers : list (string * DesktopApp))
    (normalized_id : string) : option DesktopApp :=
  dict_get normalized_id identifiers.

Definition find_app_by_key (self : Dock) (key_value : string)
  : option DesktopApp :=
  if negb (PyStr.truthy key_value) then None
  else
    let normalized_id := PyStr.lower key_value in
    match exact_match (app_identifiers self) normalized_id with
    | Some app => Some app
    | None => fuzzy_match (_all_apps self) normalized_id
    end.

Definition priority_keys : list string :=
  ["window_class"; "executable"; "command_line"; "name"; "display_name"].

(** The loop of [find_app] over the keys of a dict: the first key whose
    value is truthy and for which [find_app_by_key] finds an application. *)
Fixpoint find_app_in_dict (self : Dock) (d : list (string * option string))
    (keys : list string) : option DesktopApp :=
  match keys with
  | [] => None
  | key :: rest =>
      match truthy_item key d with
      | Some v =>
          match find_app_by_key self v with
          | Some app => Some app
          | None => find_app_in_dict self d rest
          end
      | None => find_app_in_dict self d rest
      end
  end.

Definition find_app (self : Dock) (app_identifier : AppId)
  : option DesktopApp :=
  match app_identifier with
  | Structured [] => None
  | Structured d => find_app_in_dict self d priority_keys
  | Bare s => find_app_by_key self s
  end.

(** ** WindowClassifier: grouping the live windows *)

Definition _extract_window_id (client : Client) : string :=
  let class_name := PyStr.lower (initialClass client) in
  if PyStr.truthy class_name then class_name
  else
    let class_name := PyStr.lower (class client) in
    if PyStr.truthy class_name then class_name
    else
      let title := PyStr.lower (title client) in
      if PyStr.truthy title then
        let possible_name := PyStr.strip (PyStr.before_first " - " title) in
        if PyStr.truthy possible_name && (1 <? String.length possible_name)
        then possible_name
        else title
      else "unknown-app".

(** [running_windows[k]] for a key known to be present. *)
Definition group_of (k : string) (running_windows : list (string * list Client))
  : list Client :=
  match dict_get k running_windows with
  | Some g => g
  | None => []
  end.

(** The body of the loop of [_build_running_windows] for one client [c]. *)
Definition add_window (running_windows : list (string * list Client))
    (c : Client) : list (string * list Client) :=
  let window_id := _extract_window_id c in
  let running_windows := setdefault_extend window_id [c] running_windows in
  let normalized_id := _normalize_window_class window_id in
  if negb (String.eqb normalized_id window_id)
  then setdefault_extend normalized_id (group_of window_id running_windows)
         running_windows
  else running_windows.

Definition _build_running_windows (clients : list Client)
  : list (string * list Client) :=
  fold_left add_window clients [].

(** ** Compositor queries *)

Definition get_clients (o : IpcOutcome (list Client)) : result (list Client) :=
  try_except (send_decode_loads o) is_JSONDecodeError (Ok []).

(** The reply to [j/activewindow], read with [.get("address", "")]: the
    payload is the value of the key, [None] when it is absent. *)
Definition get_focused (o : IpcOutcome (option string)) : result string :=
  try_except
    (reply <- send_decode_loads o ;;
     Ok (match reply with Some a => a | None => "" end))
    is_JSONDecodeError (Ok "").

(** ** DockReconciler *)

(** [_get_app_icon]: the pixbuf is not part of the model, only whether
    the method returns. When the application gives no icon,
    [app_identifier["name"]] is read, which raises [KeyError] on a dict
    without that key; the icon resolver and the fallback icons belong to
    other modules and are taken to return. *)
Definition _get_app_icon (app_identifier : AppId)
    (desktop_app : option DesktopApp) : result unit :=
  let from_app :=
    match desktop_app with
    | Some app => get_icon_pixbuf app
    | None => false
    end in
  if from_app then Ok tt
  else
    id_value <-
      match app_identifier with
      | Structured d =>
          match dict_get "name" d with
          | Some v => Ok v
          | None => Raise KeyError
          end
      | Bare s => Ok (Some s)
      end ;;
    Ok tt.

(** The attributes [create_button] sets on the button it builds. *)
Definition button_of (self : Dock) (app_identifier : AppId)
    (instances : list Client) : Button :=
  {| app_identifier := app_identifier;
     desktop_app := find_app self app_identifier;
     instances := instances |}.

Definition create_button (self : Dock) (app_identifier : AppId)
    (instances : list Client) : result Button :=
  let desktop_app := find_app self app_identifier in
  icon_pixbuf <- _get_app_icon app_identifier desktop_app ;;
  Ok {| app_identifier := app_identifier;
        desktop_app := desktop_app;
        instances := instances |}.

(** The identifiers [_get_possible_identifiers] collects, before they go
    through [set]. *)
Definition collected_identifiers (app_data : AppId) (app : option DesktopApp)
  : list string :=
  let from_data :=
    match app_data with
    | Structured d =>
        flat_map
          (fun key =>
             match truthy_item key d with
             | Some v => [PyStr.lower v]
             | None => []
             end)
          priority_keys
    | Bare s => [PyStr.lower s]
    end in
  let attr (o : option string) (f : string -> list string) :=
    match o with
    | Some s => if PyStr.truthy s then f s else []
    | None => []
    end in
  let from_app :=
    match app with
    | Some app =>
        attr (window_class app) (fun s => [PyStr.lower s])
        ++ attr (executable app)
             (fun s => [PyStr.lower (PyStr.basename s)])
        ++ attr (command_line app)
             (fun s =>
                match PyStr.split_ws s with
                | tok :: _ => [PyStr.lower (PyStr.basename tok)]
                | [] => []
                end)
        ++ attr (name app) (fun s => [PyStr.lower s])
        ++ attr (display_name app) (fun s => [PyStr.lower s])
    | None => []
    end in
  from_data ++ from_app.

(** The first group key containing [identifier], in dict order. *)
Definition fuzzy_group (identifier : string)
    (running_windows : list (string * list Client))
  : option (string * list Client) :=
  find (fun kv => PyStr.contains identifier (fst kv)) running_windows.

(** The loop of [_find_instances_for_app] over the candidates. *)
Fixpoint match_identifiers (possible_identifiers : list string)
    (running_windows : list (string * list Client))
  : list Client * option string :=
  match possible_identifiers with
  | [] => ([], None)
  | identifier :: rest =>
      match dict_get identifier running_windows with
      | Some g => (g, Some identifier)
      | None =>
          let normalized := _normalize_window_class identifier in
          match dict_get normalized running_windows with
          | Some g => (g, Some normalized)
          | None =>
              if 3 <=? String.length identifier then
                match fuzzy_group identifier running_windows with
                | Some (window_class, g) => (g, Some window_class)
                | None => match_identifiers rest running_windows
                end
              else match_identifiers rest running_windows
          end
      end
  end.

(** The first descriptor lookups of [_create_app_identifier] and its
    fallback on the title of the first window. *)
Definition _create_app_identifier (self : Dock) (class_name : string)
    (instances : list Client) : AppId :=
  let or_else (a : option DesktopApp) (b : option DesktopApp) :=
    match a with Some _ => a | None => b end in
  let app := dict_get class_name (app_identifiers self) in
  let app :=
    or_else app
      (dict_get (_normalize_window_class class_name) (app_identifiers self)) in
  let app := or_else app (find_app_by_key self class_name) in
  let app :=
    or_else app
      match instances with
      | first :: _ =>
          if PyStr.truthy (title first) then
            let potential_name :=
              PyStr.strip (PyStr.before_first " - " (title first)) in
            if 2 <? String.length potential_name
            then find_app_by_key self potential_name
            else None
          else None
      | [] => None
      end in
  match app with
  | Some app => Structured (app_data_of app)
  | None => Bare class_name
  end.

(** The loop of [_create_open_buttons] over [running_windows.items()],
    from the list [open_buttons] built so far. *)
Fixpoint open_loop (self : Dock) (used_classes : list string)
    (open_buttons : list Button) (items : list (string * list Client))
  : result (list Button) :=
  match items with
  | [] => Ok open_buttons
  | (class_name, instances) :: rest =>
      if negb (set_mem class_name used_classes) then
        let identifier := _create_app_identifier self class_name instances in
        button <- create_button self identifier instances ;;
        open_loop self used_classes (open_buttons ++ [button]) rest
      else open_loop self used_classes open_buttons rest
  end.

Definition _create_open_buttons (self : Dock)
    (running_windows : list (string * list Client))
    (used_classes : list string) : result (list Button) :=
  open_loop self used_classes [] running_windows.

Definition _combine_buttons (pinned_buttons open_buttons : list Button)
  : list Child :=
  let children := map AppButton pinned_buttons in
  let children :=
    match pinned_buttons, open_buttons with
    | _ :: _, _ :: _ => children ++ [Separator]
    | _, _ => children
    end in
  children ++ map AppButton open_buttons.

Section Reconcile.

(** [list(set(xs))]: the order in which a Python set yields its elements
    is not fixed by the program. *)
Variable list_of_set : list string -> list string.

Definition _get_possible_identifiers (app_data : AppId)
    (app : option DesktopApp) : list string :=
  list_of_set (collected_identifiers app_data app).

Definition _find_instances_for_app (self : Dock) (app_data : AppId)
    (running_windows : list (string * list Client))
  : list Client * option string :=
  let app := find_app self app_data in
  let possible_identifiers := _get_possible_identifiers app_data app in
  match_identifiers possible_identifiers running_windows.

(** The body of the loop of [_create_pinned_buttons]: the state is the
    pair of [pinned_buttons] and [used_classes]. *)
Definition pin_step (self : Dock)
    (running_windows : list (string * list Client))
    (acc : list Button * list string) (app_data : AppId)
  : result (list Button * list string) :=
  let '(pinned_buttons, used_classes) := acc in
  let '(instances, matched_class) :=
    _find_instances_for_app self app_data running_windows in
  let used_classes :=
    match matched_class with
    | Some m =>
        if PyStr.truthy m
        then used_classes ++ [m; _normalize_window_class m]
        else used_classes
    | None => used_classes
    end in
  button <- create_button self app_data instances ;;
  Ok (pinned_buttons ++ [button], used_classes).

(** The [for app_data in self.pinned] loop. *)
Fixpoint pin_loop (self : Dock)
    (running_windows : list (string * list Client))
    (acc : list Button * list string) (pinned_list : list AppId)
  : result (list Button * list string) :=
  match pinned_list with
  | [] => Ok acc
  | app_data :: rest =>
      acc <- pin_step self running_windows acc app_data ;;
      pin_loop self running_windows acc rest
  end.

Definition _create_pinned_buttons (self : Dock)
    (running_windows : list (string * list Client))
  : result (list Button * list string) :=
  pin_loop self running_windows ([], []) (pinned self).

End Reconcile.

(** ** Attribute assignments on the [Dock] object *)

Definition set_always_show (v : bool) (self : Dock) : Dock :=
  {| integrated_mode := integrated_mode self;
     always_show := v;
     _saved_always_show := _saved_always_show self;
     _forced_occlusion := _forced_occlusion self;
     _prevent_occlusion := _prevent_occlusion self;
     _drag_in_progress := _drag_in_progress self;
     is_mouse_over_dock_area := is_mouse_over_dock_area self;
     reveal_child := reveal_child self;
     occluded := occluded self;
     occlusion_checks := occlusion_checks self;
     _all_apps := _all_apps self;
     app_identifiers := app_identifiers self;
     app_map := app_map self;
     pinned := pinned self;
     children := children self |}.

Definition set_saved_always_show (v : option bool) (self : Dock) : Dock :=
  {| integrated_mode := integrated_mode self;
     always_show := always_show self;
     _saved_always_show := v;
     _forced_occlusion := _forced_occlusion self;
     _prevent_occlusion := _prevent_occlusion self;
     _drag_in_progress := _drag_in_progress self;
     is_mouse_over_dock_area := is_mouse_over_dock_area self;
     reveal_child := reveal_child self;
     occluded := occluded self;
     occlusion_checks := occlusion_checks self;
     _all_apps := _all_apps self;
     app_identifiers := app_identifiers self;
     app_map := app_map self;
     pinned := pinned self;
     children := children self |}.

Definition set_forced_occlusion (v : bool) (self : Dock) : Dock :=
  {| integrated_mode := integrated_mode self;
     always_show := always_show self;
     _saved_always_show := _saved_always_show self;
     _forced_occlusion := v;
     _prevent_occlusion := _prevent_occlusion self;
     _drag_in_progress := _drag_in_progress self;
     is_mouse_over_dock_area := is_mouse_over_dock_area self;
     reveal_child := reveal_child self;
     occluded := occluded self;
     occlusion_checks := occlusion_checks self;
     _all_apps := _all_apps self;
     app_identifiers := app_identifiers self;
     app_map := app_map self;
     pinned := pinned self;
     children := children self |}.

Definition set_drag_in_progress (v : bool) (self : Dock) : Dock :=
  {| integrated_mode := integrated_mode self;
     always_show := always_show self;
     _saved_always_show := _saved_always_show self;
     _forced_occlusion := _forced_occlusion self;
     _prevent_occlusion := _prevent_occlusion self;
     _drag_in_progress := v;
     is_mouse_over_dock_area := is_mouse_over_dock_area self;
     reveal_child := reveal_child self;
     occluded := occluded self;
     occlusion_checks := occlusion_checks self;
     _all_apps := _all_apps self;
     app_identifiers := app_identifiers self;
     app_map := app_map self;
     pinned := pinned self;
     children := children self |}.

Definition set_reveal_child (v : bool) (self : Dock) : Dock :=
  {| integrated_mode := integrated_mode self;
     always_show := always_show self;
     _saved_always_show := _saved_always_show self;
     _forced_occlusion := _forced_occlusion self;
     _prevent_occlusion := _prevent_occlusion self;
     _drag_in_progress := _drag_in_progress self;
     is_mouse_over_dock_area := is_mouse_over_dock_area self;
     reveal_child := v;
     occluded := occluded self;
     occlusion_checks := occlusion_checks self;
     _all_apps := _all_apps self;
     app_identifiers := app_identifiers self;
     app_map := app_map self;
     pinned := pinned self;
     children := children self |}.

Definition set_occluded (v : bool) (self : Dock) : Dock :=
  {| integrated_mode := integrated_mode self;
     always_show := always_show self;
     _saved_always_show := _saved_always_show self;
     _forced_occlusion := _forced_occlusion self;
     _prevent_occlusion := _prevent_occlusion self;
     _drag_in_progress := _drag_in_progress self;
     is_mouse_over_dock_area := is_mouse_over_dock_area self;
     reveal_child := reveal_child self;
     occluded := v;
     occlusion_checks := occlusion_checks self;
     _all_apps := _all_apps self;
     app_identifiers := app_identifiers self;
     app_map := app_map self;
     pinned := pinned self;
     children := children self |}.

Definition set_occlusion_checks (v : nat) (self : Dock) : Dock :=
  {| integrated_mode := integrated_mode self;
     always_show := always_show self;
     _saved_always_show := _saved_always_show self;
     _forced_occlusion := _forced_occlusion self;
     _prevent_occlusion := _prevent_occlusion self;
     _drag_in_progress := _drag_in_progress self;
     is_mouse_over_dock_area := is_mouse_over_dock_area self;
     reveal_child := reveal_child self;
     occluded := occluded self;
     occlusion_checks := v;
     _all_apps := _all_apps self;
     app_identifiers := app_identifiers self;
     app_map := app_map self;
     pinned := pinned self;
     children := children self |}.

Definition set_pinned (v : list AppId) (self : Dock) : Dock :=
  {| integrated_mode := integrated_mode self;
     always_show := always_show self;
     _saved_always_show := _saved_always_show self;
     _forced_occlusion := _forced_occlusion self;
     _prevent_occlusion := _prevent_occlusion self;
     _drag_in_progress := _drag_in_progress self;
     is_mouse_over_dock_area := is_mouse_over_dock_area self;
     reveal_child := reveal_child self;
     occluded := occluded self;
     occlusion_checks := occlusion_checks self;
     _all_apps := _all_apps self;
     app_identifiers := app_identifiers self;
     app_map := app_map self;
     pinned := v;
     children := children self |}.

Definition set_children (v : list Child) (self : Dock) : Dock :=
  {| integrated_mode := integrated_mode self;
     always_show := always_show self;
     _saved_always_show := _saved_always_show self;
     _forced_occlusion := _forced_occlusion self;
     _prevent_occlusion := _prevent_occlusion self;
     _drag_in_progress := _drag_in_progress self;
     is_mouse_over_dock_area := is_mouse_over_dock_area self;
     reveal_child := reveal_child self;
     occluded := occluded self;
     occlusion_checks := occlusion_checks self;
     _all_apps := _all_apps self;
     app_identifiers := app_identifiers self;
     app_map := app_map self;
     pinned := pinned self;
     children := v |}.

Definition set_catalog (_all_apps_v : list DesktopApp)
    (app_map_v app_identifiers_v : list (string * DesktopApp)) (self : Dock)
  : Dock :=
  {| integrated_mode := integrated_mode self;
     always_show := always_show self;
     _saved_always_show := _saved_always_show self;
     _forced_occlusion := _forced_occlusion self;
     _prevent_occlusion := _prevent_occlusion self;
     _drag_in_progress := _drag_in_progress self;
     is_mouse_over_dock_area := is_mouse_over_dock_area self;
     reveal_child := reveal_child self;
     occluded := occluded self;
     occlusion_checks := occlusion_checks self;
     _all_apps := _all_apps_v;
     app_identifiers := app_identifiers_v;
     app_map := app_map_v;
     pinned := pinned self;
     children := children self |}.

(** ** OcclusionStateMachine *)

(** [check_occlusion_state]: the returned boolean keeps or drops the GLib
    timer that calls it. *)
Definition check_occlusion_state (self : Dock) : bool * Dock :=
  let self := set_occlusion_checks (S (occlusion_checks self)) self in
  if integrated_mode self then (false, self)
  else if _forced_occlusion self then
    if is_mouse_over_dock_area self then
      (true,
       if negb (reveal_child self)
       then set_occluded false (set_reveal_child true self)
       else self)
    else
      (true,
       if reveal_child self
       then set_occluded true (set_reveal_child false self)
       else self)
  else if is_mouse_over_dock_area self || _drag_in_progress self
          || _prevent_occlusion self then
    (true,
     if negb (reveal_child self) then
       let self := set_reveal_child true self in
       if negb (always_show self) then set_occluded false self else self
     else self)
  else if always_show self then
    (true,
     if negb (reveal_child self)
     then set_occluded false (set_reveal_child true self)
     else self)
  else
    (true,
     if reveal_child self
     then set_occluded true (set_reveal_child false self)
     else self).

Definition force_occlusion (self : Dock) : Dock :=
  if integrated_mode self then self
  else
    let self := set_saved_always_show (Some (always_show self)) self in
    let self := set_always_show false self in
    let self := set_forced_occlusion true self in
    if negb (is_mouse_over_dock_area self)
    then set_reveal_child false self
    else self.

Definition restore_from_occlusion (self : Dock) : Dock :=
  if integrated_mode self then self
  else
    let self := set_forced_occlusion false self in
    let self :=
      match _saved_always_show self with
      | Some saved => set_saved_always_show None (set_always_show saved self)
      | None => self
      end in
    snd (check_occlusion_state self).

(** ** The reconciliation pass *)

(** [all_apps] is what [get_desktop_applications()] returns at the call. *)
Definition update_app_map (all_apps : list DesktopApp) (self : Dock)
  : result Dock :=
  identifiers <- _build_app_identifiers_map all_apps ;;
  Ok (set_catalog all_apps (build_app_map all_apps) identifiers self).

Section UpdateDock.

Variable list_of_set : list string -> list string.

(** [update_dock]: [o] is the compositor's answer to [j/clients]. The
    removal of the drag handler and the deferred [_update_size] are
    widget bookkeeping and leave the attributes above unchanged. *)
Definition update_dock (all_apps : list DesktopApp)
    (o : IpcOutcome (list Client)) (self : Dock) : result Dock :=
  self <- update_app_map all_apps self ;;
  clients <- get_clients o ;;
  let running_windows := _build_running_windows clients in
  created <- _create_pinned_buttons list_of_set self running_windows ;;
  let '(pinned_buttons, used_classes) := created in
  open_buttons <- _create_open_buttons self running_windows used_classes ;;
  let children := _combine_buttons pinned_buttons open_buttons in
  let self := set_children children self in
  let self := set_drag_in_progress false self in
  Ok (if negb (integrated_mode self)
      then snd (check_occlusion_state self)
      else self).

(** The loop of [update_pinned_apps] over the children: the entries in
    front of the separator, a resolved button as the dict of its
    application, any other as the identifier it carries. *)
Fixpoint collect_pinned_data (children : list Child) : list AppId :=
  match children with
  | [] => []
  | Separator :: _ => []
  | AppButton b :: rest =>
      match desktop_app b with
      | Some app => Structured (app_data_of app)
      | None => app_identifier b
      end :: collect_pinned_data rest
  end.

(** [update_pinned_apps]: the [Dock], its [dock_config] and the file
    system are threaded through. *)
Definition update_pinned_apps (skip_update : bool)
    (all_apps : list DesktopApp) (o : IpcOutcome (list Client))
    (self : Dock) (dock_config : DockConfig) (fs : FileSystem)
  : result (Dock * DockConfig * FileSystem) :=
  let pinned_data := collect_pinned_data (children self) in
  let dock_config := set_pinned_apps pinned_data dock_config in
  let self := set_pinned pinned_data self in
  let '(file_updated, fs) := save dock_config fs in
  if file_updated && negb skip_update
  then self <- update_dock all_apps o self ;; Ok (self, dock_config, fs)
  else Ok (self, dock_config, fs).

End UpdateDock.

(** ** Click handling *)

(** What a click asks of the outside world. *)
Inductive Effect : Type :=
| Launch (app : DesktopApp)             (* [desktop_app.launch()] *)
| ExecShell (cmd : string)              (* [exec_shell_command] *)
| ExecShellAsync (cmd : string).        (* [exec_shell_command_async] *)

(** [next((i for i, inst in enumerate(instances)
          if inst["address"] == focused), -1)], counting from [i]. *)
Fixpoint focused_index (focused : string) (instances : list Client) (i : Z)
  : Z :=
  match instances with
  | [] => (-1)%Z
  | inst :: rest =>
      if String.eqb (address inst) focused then i
      else focused_index focused rest (i + 1)%Z
  end.

(** [exec_shell_command(f"hyprctl dispatch focuswindow address:{...}")] *)
Definition focus_command (inst : Client) : Effect :=
  ExecShell ("hyprctl dispatch focuswindow address:" ++ address inst).

(** [o] is the compositor's answer to [j/activewindow]. *)
Definition _focus_next_instance (o : IpcOutcome (option string))
    (instances : list Client) : result (list Effect) :=
  focused <- get_focused o ;;
  let idx := focused_index focused instances 0%Z in
  let len := Z.of_nat (List.length instances) in
  if (len =? 0)%Z then Raise ZeroDivisionError
  else
    match nth_error instances (Z.to_nat ((idx + 1) mod len)%Z) with
    | Some next_inst =>
        Ok [focus_command next_inst]
    | None => Raise IndexError
    end.

Definition nohup (cmd : string) : string := "nohup " ++ cmd ++ " &".

Definition _fallback_launch (desktop_app : DesktopApp) : list Effect :=
  if truthy_opt (command_line desktop_app) then
    match command_line desktop_app with
    | Some c => [ExecShellAsync (nohup c)]
    | None => []
    end
  else if truthy_opt (executable desktop_app) then
    match executable desktop_app with
    | Some e => [ExecShellAsync (nohup e)]
    | None => []
    end
  else [].

Definition _launch_by_identifier (app_identifier : AppId) : list Effect :=
  let cmd_to_run :=
    match app_identifier with
    | Structured d =>
        match truthy_item "command_line" d with
        | Some c => Some c
        | None =>
            match truthy_item "executable" d with
            | Some e => Some e
            | None => truthy_item "name" d
            end
        end
    | Bare s => Some s
    end in
  match cmd_to_run with
  | Some cmd => if PyStr.truthy cmd then [ExecShellAsync (nohup cmd)] else []
  | None => []
  end.

Section Click.

(** The result of [desktop_app.launch()]. *)
Variable launch_success : DesktopApp -> bool.

Definition _launch_app (self : Dock) (app_identifier : AppId)
    (desktop_app : option DesktopApp) : list Effect :=
  let desktop_app :=
    match desktop_app with
    | Some _ => desktop_app
    | None => find_app self app_identifier
    end in
  match desktop_app with
  | Some app =>
      Launch app
      :: (if launch_success app then [] else _fallback_launch app)
  | None => _launch_by_identifier app_identifier
  end.

Definition handle_app (self : Dock) (o : IpcOutcome (option string))
    (app_identifier : AppId) (instances : list Client)
    (desktop_app : option DesktopApp) : result (list Effect) :=
  match instances with
  | [] => Ok (_launch_app self app_identifier desktop_app)
  | _ :: _ => _focus_next_instance o instances
  end.

End Click.

(** [list(set(xs))] for one possible order: first occurrences, in order. *)
Fixpoint first_occurrences (xs : list string) : list string :=
  match xs with
  | [] => []
  | x :: r => x :: filter (fun y => negb (String.eqb x y)) (first_occurrences r)
  end.

(** ** Construction *)

(** The attributes after [_init_state_variables], [_create_main_layout]
    ([child_revealed=False]) and [_handle_visibility]; [dock_always_show]
    is [data.DOCK_ALWAYS_SHOW]. The catalog is filled by [Dock_init]. *)
Definition new_dock (integrated : bool) (dock_always_show : bool)
    (pinned_list : list AppId) : Dock :=
  let always := if negb integrated then dock_always_show else false in
  {| integrated_mode := integrated;
     always_show := always;
     _saved_always_show := None;
     _forced_occlusion := false;
     _prevent_occlusion := false;
     _drag_in_progress := false;
     is_mouse_over_dock_area := false;
     reveal_child := false;
     occluded := negb integrated && always;
     occlusion_checks := 0;
     _all_apps := [];
     app_identifiers := [];
     app_map := [];
     pinned := pinned_list;
     children := [] |}.

(** [_init_icon_resolver] on the fresh object. *)
Definition Dock_init (integrated dock_always_show : bool)
    (all_apps : list DesktopApp) (pinned_list : list AppId) : result Dock :=
  update_app_map all_apps (new_dock integrated dock_always_show pinned_list).

(** ** The specification's wording, for comparison with the code *)

Fixpoint first_some (A : Type) (l : list (option A)) : option A :=
  match l with
  | [] => None
  | Some a :: _ => Some a
  | None :: r => first_some r
  end.

(** Resolution of a structured record as the specification words it: the
    exact index for every key in priority order first, the substring scan
    only when no key has an exact hit. *)
Definition resolve_exact_then_fuzzy (self : Dock)
    (d : list (string * option string)) : option DesktopApp :=
  let try_keys (lookup : string -> option DesktopApp) :=
    first_some
      (map (fun key =>
              match truthy_item key d with
              | Some v => lookup (PyStr.lower v)
              | None => None
              end)
           priority_keys) in
  match try_keys (exact_match (app_identifiers self)) with
  | Some app => Some app
  | None => try_keys (fuzzy_match (_all_apps self))
  end.

(** [key] is where the loop of [find_app] stops: its value [v] is truthy
    and resolves to [app], by the exact index or else by the substring
    scan, and no key in [before] resolves at all. *)
Definition stops_at (self : Dock) (d : list (string * option string))
    (before : list string) (key : string) (app : DesktopApp) : Prop :=
  exists v,
    truthy_item key d = Some v
    /\ (exact_match (app_identifiers self) (PyStr.lower v) = Some app
        \/ (exact_match (app_identifiers self) (PyStr.lower v) = None
            /\ fuzzy_match (_all_apps self) (PyStr.lower v) = Some app))
    /\ forall k w,
         In k before -> truthy_item k d = Some w ->
         exact_match (app_identifiers self) (PyStr.lower w) = None
         /\ fuzzy_match (_all_apps self) (PyStr.lower w) = None.

(** No window is attached to two different pinned buttons. *)
Definition pinned_groups_disjoint (pinned_buttons : list Button) : Prop :=
  forall i j bi bj c,
    i <> j ->
    nth_error pinned_buttons i = Some bi ->
    nth_error pinned_buttons j = Some bj ->
    In c (instances bi) -> ~ In c (instances bj).

(** The grouping without the groups stored under [m] or under the
    normalized form of [m]. *)
Definition without_group (m : string)
    (running_windows : list (string * list Client))
  : list (string * list Client) :=
  filter
    (fun kv => negb (String.eqb (fst kv) m)
               && negb (String.eqb (fst kv) (_normalize_window_class m)))
    running_windows.

Definition nonempty (A : Type) (l : list A) : bool :=
  match l with [] => false | _ :: _ => true end.

(** [create_button] returns for this identifier: it is a string, or a
    dict with a ["name"] key, or it resolves to an application that gives
    an icon. *)
Definition icon_lookup_returns (self : Dock) (app_identifier : AppId) : bool :=
  match app_identifier with
  | Bare _ => true
  | Structured d =>
      dict_mem "name" d
      || match find_app self app_identifier with
         | Some app => get_icon_pixbuf app
         | None => false
         end
  end.

(** The button [_create_open_buttons] makes for one group. *)
Definition open_button (self : Dock) (kv : string * list Client) : Button :=
  button_of self (_create_app_identifier self (fst kv) (snd kv)) (snd kv).

(** The groups that are left for the unpinned section. *)
Definition unused_groups (used_classes : list string)
    (running_windows : list (string * list Client))
  : list (string * list Client) :=
  filter (fun kv => negb (set_mem (fst kv) used_classes)) running_windows.

Section PinnedSection.
Variable list_of_set : list string -> list string.
Variable self : Dock.
Variable running_windows : list (string * list Client).

(** The button [_create_pinned_buttons] makes for one pinned record. *)
Definition pinned_button (app_data : AppId) : Button :=
  button_of self app_data
    (fst (_find_instances_for_app list_of_set self app_data running_windows)).

(** The keys one pinned record adds to [used_classes]. *)
Definition marked_used (app_data : AppId) : list string :=
  match snd (_find_instances_for_app list_of_set self app_data
               running_windows) with
  | Some m =>
      if PyStr.truthy m then [m; _normalize_window_class m] else []
  | None => []
  end.
End PinnedSection.

Definition is_structured (a : AppId) : bool :=
  match a with Structured _ => true | Bare _ => false end.

Definition is_bare (a : AppId) : bool :=
  match a with Bare _ => true | Structured _ => false end.

(** ** Sample data *)

Definition app_named (n : string) : DesktopApp :=
  {| name := Some n; display_name := None; window_class := None;
     executable := None; command_line := None; get_icon_pixbuf := true |}.

Definition window (addr cls : string) : Client :=
  {| address := addr; class := cls; initialClass := cls; title := "";
     workspace := 1%Z |}.

(** ** Drag and drop: reordering *)

(** [child.get_name() == "dock-separator"] *)
Definition is_separator (child : Child) : bool :=
  match child with Separator => true | AppButton _ => false end.

(** The loop of [_find_separator_index], counting from [i]. *)
Fixpoint separator_index_from (children : list Child) (i : Z) : Z :=
  match children with
  | [] => (-1)%Z
  | child :: rest =>
      if is_separator child then i else separator_index_from rest (i + 1)%Z
  end.

Definition _find_separator_index (children : list Child) : Z :=
  separator_index_from children 0%Z.

Definition _is_cross_section_drag (source target separator : Z) : bool :=
  if (separator =? -1)%Z then false
  else ((source <? separator)%Z && (separator <? target)%Z)
       || ((separator <? source)%Z && (target <? separator)%Z).

(** [l.pop(i)]: a negative index counts from the end; an index outside the
    list raises [IndexError]. The result is the element and the rest. *)
Definition py_pop {A : Type} (l : list A) (i : Z) : result (A * list A) :=
  let n := Z.of_nat (List.length l) in
  let j := if (i <? 0)%Z then (i + n)%Z else i in
  if (j <? 0)%Z || (n <=? j)%Z then Raise IndexError
  else
    match nth_error l (Z.to_nat j) with
    | Some x => Ok (x, firstn (Z.to_nat j) l ++ skipn (S (Z.to_nat j)) l)
    | None => Raise IndexError
    end.

(** [l.insert(i, x)]: the index is clamped to the list. *)
Definition py_insert {A : Type} (l : list A) (i : Z) (x : A) : list A :=
  let n := Z.of_nat (List.length l) in
  let j := if (i <? 0)%Z then Z.max (i + n) 0 else Z.min i n in
  firstn (Z.to_nat j) l ++ x :: skipn (Z.to_nat j) l.

(** [children.pop(source_index)] then
    [children.insert(target_index, child_to_move)]. *)
Definition move_child (source_index target_index : Z) (children : list Child)
  : result (list Child) :=
  popped <- py_pop children source_index ;;
  Ok (py_insert (snd popped) target_index (fst popped)).

(** ** Drag and drop: unpinning *)

(** [d.get("name")]: [None] for a missing key and for [null]. *)
Definition get_name (d : list (string * option string)) : option string :=
  match dict_get "name" d with
  | Some v => v
  | None => None
  end.

Definition option_string_eqb (a b : option string) : bool :=
  match a, b with
  | Some x, Some y => String.eqb x y
  | None, None => true
  | _, _ => false
  end.

Definition _app_ids_match (app_id1 app_id2 : AppId) : bool :=
  match app_id1, app_id2 with
  | Structured d1, Structured d2 => option_string_eqb (get_name d1) (get_name d2)
  | Bare s1, Bare s2 => String.eqb s1 s2
  | _, _ => false
  end.

(** The loop of [_find_pinned_app_index], counting from [i]. *)
Fixpoint pinned_index_from (app_id : AppId) (pinned_list : list AppId) (i : Z)
  : Z :=
  match pinned_list with
  | [] => (-1)%Z
  | pinned_app :: rest =>
      if _app_ids_match app_id pinned_app then i
      else pinned_index_from app_id rest (i + 1)%Z
  end.

Definition _find_pinned_app_index (self : Dock) (app_id : AppId) : Z :=
  pinned_index_from app_id (pinned self) 0%Z.

Section DragAndDrop.
Variable list_of_set : list string -> list string.

(** [_handle_drag_outside] for the dragged button [widget]: the [Dock], its
    [dock_config] and the file system are threaded through, the shell
    commands are listed. *)
Definition _handle_drag_outside (all_apps : list DesktopApp)
    (o : IpcOutcome (list Client)) (widget : Button)
    (self : Dock) (dock_config : DockConfig) (fs : FileSystem)
  : result (Dock * DockConfig * FileSystem * list Effect) :=
  let app_id := app_identifier widget in
  let app_index := _find_pinned_app_index self app_id in
  if (0 <=? app_index)%Z then
    popped <- py_pop (pinned self) app_index ;;
    let self := set_pinned (snd popped) self in
    let dock_config := set_pinned_apps (pinned self) dock_config in
    let fs := snd (save dock_config fs) in
    self <- update_dock list_of_set all_apps o self ;;
    Ok (self, dock_config, fs, [])
  else
    match instances widget with
    | first :: _ =>
        if PyStr.truthy (address first)
        then Ok (self, dock_config, fs, [focus_command first])
        else Ok (self, dock_config, fs, [])
    | [] => Ok (self, dock_config, fs, [])
    end.

(** The end of [process_drag_end], the deferred part of [on_drag_end]. *)
Definition finish_drag (self : Dock) : Dock :=
  let self := set_drag_in_progress false self in
  if negb (integrated_mode self)
  then snd (check_occlusion_state self)
  else self.

(** [on_drag_end] with its deferred [process_drag_end]; [is_outside] tells
    whether the pointer was released outside the dock's allocation. *)
Definition on_drag_end (all_apps : list DesktopApp)
    (o : IpcOutcome (list Client)) (widget : Button) (is_outside : bool)
    (self : Dock) (dock_config : DockConfig) (fs : FileSystem)
  : result (Dock * DockConfig * FileSystem * list Effect) :=
  if negb (_drag_in_progress self) then Ok (self, dock_config, fs, [])
  else if is_outside then
    handled <- _handle_drag_outside all_apps o widget self dock_config fs ;;
    let '(self, dock_config, fs, effects) := handled in
    Ok (finish_drag self, dock_config, fs, effects)
  else Ok (finish_drag self, dock_config, fs, []).

(** [on_drag_data_received] once the drop target is found at
    [target_index] and the dragged index is read as [source_index]. The
    boolean tells whether [update_dock] is queued with [GLib.idle_add]. *)
Definition on_drag_data_received (all_apps : list DesktopApp)
    (o : IpcOutcome (list Client)) (source_index : Z) (target_index : nat)
    (self : Dock) (dock_config : DockConfig) (fs : FileSystem)
  : result (Dock * DockConfig * FileSystem * bool) :=
  let target := Z.of_nat target_index in
  if (source_index =? target)%Z then Ok (self, dock_config, fs, false)
  else
    let separator_index := _find_separator_index (children self) in
    let cross_section :=
      _is_cross_section_drag source_index target separator_index in
    moved <- move_child source_index target (children self) ;;
    let self := set_children moved self in
    updated <- update_pinned_apps list_of_set (negb cross_section) all_apps o
                 self dock_config fs ;;
    let '(self, dock_config, fs) := updated in
    Ok (self, dock_config, fs, cross_section).

End DragAndDrop.

(** ** Hover events and the hide timer *)

Definition set_mouse_over (v : bool) (self : Dock) : Dock :=
  {| integrated_mode := integrated_mode self;
     always_show := always_show self;
     _saved_always_show := _saved_always_show self;
     _forced_occlusion := _forced_occlusion self;
     _prevent_occlusion := _prevent_occlusion self;
     _drag_in_progress := _drag_in_progress self;
     is_mouse_over_dock_area := v;
     reveal_child := reveal_child self;
     occluded := occluded self;
     occlusion_checks := occlusion_checks self;
     _all_apps := _all_apps self;
     app_identifiers := app_identifiers self;
     app_map := app_map self;
     pinned := pinned self;
     children := children self |}.

(** The [Dock] with its [hide_id] attribute and the part of the GLib main
    loop it uses: the pending timeouts that call
    [hide_dock_if_not_hovered] and the next source id ([timeout_add] hands
    out ids from 1). *)
Record Hover : Type := {
  dock : Dock;
  hide_id : option nat;
  pending_hides : list nat;
  next_source : nat
}.

Definition with_dock (d : Dock) (h : Hover) : Hover :=
  {| dock := d; hide_id := hide_id h; pending_hides := pending_hides h;
     next_source := next_source h |}.

(** [GLib.source_remove(id)] *)
Definition source_remove (id : nat) (h : Hover) : Hover :=
  {| dock := dock h; hide_id := hide_id h;
     pending_hides := filter (fun i => negb (i =? id)) (pending_hides h);
     next_source := next_source h |}.

(** [if self.hide_id: GLib.source_remove(self.hide_id)]: [None] and [0]
    are falsy. *)
Definition remove_hide_source (h : Hover) : Hover :=
  match hide_id h with
  | Some (S i) => source_remove (S i) h
  | _ => h
  end.

(** [if self.hide_id: GLib.source_remove(self.hide_id); self.hide_id = None] *)
Definition cancel_hide (h : Hover) : Hover :=
  match hide_id h with
  | Some (S i) =>
      let h := source_remove (S i) h in
      {| dock := dock h; hide_id := None; pending_hides := pending_hides h;
         next_source := next_source h |}
  | _ => h
  end.

Definition delay_hide (h : Hover) : Hover :=
  if integrated_mode (dock h) then h
  else
    let h := remove_hide_source h in
    {| dock := dock h;
       hide_id := Some (next_source h);
       pending_hides := pending_hides h ++ [next_source h];
       next_source := S (next_source h) |}.

(** [_on_hover_enter] and [_on_dock_enter] have the same body (they differ
    in the value returned to GTK). *)
Definition _on_hover_enter (h : Hover) : Hover :=
  if integrated_mode (dock h) then h
  else
    let h := with_dock (set_mouse_over true (dock h)) h in
    let h := cancel_hide h in
    let d := set_reveal_child true (dock h) in
    let d := if negb (always_show d) then set_occluded false d else d in
    with_dock d h.

Definition _on_dock_enter (h : Hover) : Hover := _on_hover_enter h.

Definition _on_hover_leave (h : Hover) : Hover :=
  if integrated_mode (dock h) then h
  else
    let h := with_dock (set_mouse_over false (dock h)) h in
    if _forced_occlusion (dock h)
    then with_dock (set_reveal_child false (dock h)) h
    else delay_hide h.

(** [inferior] is [event.detail == Gdk.NotifyType.INFERIOR]. *)
Definition _on_dock_leave (inferior : bool) (h : Hover) : Hover :=
  if integrated_mode (dock h) then h
  else if inferior then h
  else
    let h := with_dock (set_mouse_over false (dock h)) h in
    let h :=
      if _forced_occlusion (dock h)
      then with_dock (set_reveal_child false (dock h)) h
      else delay_hide h in
    if negb (always_show (dock h))
    then with_dock (set_occluded true (dock h)) h
    else h.

Definition _on_child_enter (h : Hover) : Hover :=
  if integrated_mode (dock h) then h
  else cancel_hide (with_dock (set_mouse_over true (dock h)) h).

Definition hide_dock_if_not_hovered (h : Hover) : Hover :=
  if integrated_mode (dock h) then h
  else
    let h := {| dock := dock h; hide_id := None;
                pending_hides := pending_hides h;
                next_source := next_source h |} in
    let d := dock h in
    if negb (is_mouse_over_dock_area d) && negb (_drag_in_progress d)
       && negb (_prevent_occlusion d)
    then if negb (always_show d)
         then with_dock (set_reveal_child false d) h
         else h
    else h.

(** The main loop runs the pending timeout [id]: the callback returns
    [False], so the source is dropped. A timeout that is not pending does
    not run. *)
Definition fire_hide_timeout (id : nat) (h : Hover) : Hover :=
  if existsb (Nat.eqb id) (pending_hides h)
  then source_remove id (hide_dock_if_not_hovered h)
  else h.

(** The events of the occlusion machinery: the pointer handlers, the hide
    timeout, the periodic occlusion check, [force_occlusion] and
    [restore_from_occlusion], the start of a drag and a drag that ends
    inside the dock. A drag that ends outside the dock, a drop and a
    configuration change run a pass: they are [on_drag_end],
    [on_drag_data_received] and [check_config_change] above, run on every
    dock, change its pinned list and its children, and leave [hide_id]
    alone. *)
Inductive HoverEvent : Type :=
| HoverEnter
| HoverLeave
| DockEnter
| DockLeave (inferior : bool)
| ChildEnter
| HideTimeout (id : nat)
| OcclusionTick
| DragBegin
| DragEndInside
| ForceOcclusion
| RestoreFromOcclusion.

(** [on_drag_begin] sets the flag (the drag icon is GTK's);
    [DragEndInside] is [on_drag_end] with the pointer inside the dock. *)
Definition hover_step (h : Hover) (e : HoverEvent) : Hover :=
  match e with
  | HoverEnter => _on_hover_enter h
  | HoverLeave => _on_hover_leave h
  | DockEnter => _on_dock_enter h
  | DockLeave inferior => _on_dock_leave inferior h
  | ChildEnter => _on_child_enter h
  | HideTimeout id => fire_hide_timeout id h
  | OcclusionTick => with_dock (snd (check_occlusion_state (dock h))) h
  | DragBegin => with_dock (set_drag_in_progress true (dock h)) h
  | DragEndInside =>
      if _drag_in_progress (dock h) then with_dock (finish_drag (dock h)) h
      else h
  | ForceOcclusion => with_dock (force_occlusion (dock h)) h
  | RestoreFromOcclusion => with_dock (restore_from_occlusion (dock h)) h
  end.

(** The state after [__init__]: no timeout was requested yet. *)
Definition new_hover (d : Dock) : Hover :=
  {| dock := d; hide_id := None; pending_hides := []; next_source := 1 |}.

(** ** Workspace changes and configuration changes *)

(** The reply to [j/activeworkspace], read with [.get("id", 0)]. *)
Definition get_workspace (o : IpcOutcome (option Z)) : result Z :=
  try_except
    (reply <- send_decode_loads o ;;
     Ok (match reply with Some id => id | None => 0%Z end))
    is_JSONDecodeError (Ok 0%Z).

(** [check_hide]: the list [ws_clients] it computes is not used. *)
Definition check_hide (o_clients : IpcOutcome (list Client))
    (o_workspace : IpcOutcome (option Z)) (self : Dock) : result Dock :=
  if integrated_mode self then Ok self
  else if is_mouse_over_dock_area self || _drag_in_progress self
          || _prevent_occlusion self then Ok self
  else
    clients <- get_clients o_clients ;;
    current_ws <- get_workspace o_workspace ;;
    let ws_clients :=
      filter (fun w => (workspace w =? current_ws)%Z) clients in
    Ok (if always_show self then
          if negb (reveal_child self)
          then set_occluded false (set_reveal_child true self)
          else self
        else
          if reveal_child self
          then set_occluded true (set_reveal_child false self)
          else self).

(** [d1 == d2] on dicts: the same keys with the same values, in any
    order. *)
Definition dict_eqb (d1 d2 : list (string * option string)) : bool :=
  (List.length d1 =? List.length d2)
  && forallb
       (fun kv =>
          match dict_get (fst kv) d2 with
          | Some v => option_string_eqb (snd kv) v
          | None => false
          end)
       d1.

Definition app_id_eqb (a b : AppId) : bool :=
  match a, b with
  | Bare s1, Bare s2 => String.eqb s1 s2
  | Structured d1, Structured d2 => dict_eqb d1 d2
  | _, _ => false
  end.

(** [l1 == l2] on lists of pinned entries. *)
Fixpoint pinned_eqb (l1 l2 : list AppId) : bool :=
  match l1, l2 with
  | [], [] => true
  | a :: r1, b :: r2 => app_id_eqb a b && pinned_eqb r1 r2
  | _, _ => false
  end.

Section ConfigChange.
Variable list_of_set : list string -> list string.

(** The common end of both checks:
    [if self.dock_config.pinned_apps != self.pinned: ...]. *)
Definition adopt_pinned (all_apps : list DesktopApp)
    (o : IpcOutcome (list Client)) (dock_config : DockConfig) (self : Dock)
  : result Dock :=
  if negb (pinned_eqb (pinned_apps dock_config) (pinned self)) then
    let self := set_pinned (pinned_apps dock_config) self in
    self <- update_app_map all_apps self ;;
    update_dock list_of_set all_apps o self
  else Ok self.

(** [check_config_change]: [dock_always_show] is [data.DOCK_ALWAYS_SHOW],
    [all_apps] the installed applications. The result carries the new
    [dock_config] and the value returned to the timer. *)
Definition check_config_change (dock_always_show : bool)
    (all_apps : list DesktopApp) (o : IpcOutcome (list Client))
    (fs : FileSystem) (self : Dock) : result (Dock * DockConfig * bool) :=
  dock_config <- reload all_apps fs ;;
  let self :=
    if negb (integrated_mode self) then
      let new_always_show := dock_always_show in
      if negb (Bool.eqb (always_show self) new_always_show)
      then snd (check_occlusion_state (set_always_show new_always_show self))
      else self
    else self in
  self <- adopt_pinned all_apps o dock_config self ;;
  Ok (self, dock_config, true).

Definition check_config_change_immediate (dock_always_show : bool)
    (all_apps : list DesktopApp) (o : IpcOutcome (list Client))
    (fs : FileSystem) (self : Dock) : result (Dock * DockConfig * bool) :=
  dock_config <- reload all_apps fs ;;
  let self :=
    if negb (integrated_mode self) then
      let previous_always_show := always_show self in
      let self := set_always_show dock_always_show self in
      if negb (Bool.eqb previous_always_show (always_show self))
      then snd (check_occlusion_state self)
      else self
    else self in
  self <- adopt_pinned all_apps o dock_config self ;;
  Ok (self, dock_config, false).

End ConfigChange.

(** ** Tooltips *)

(** [_get_display_name]; the result is [None] when the code returns the
    [None] stored under ["name"]. *)
Definition _get_display_name (app_identifier : AppId)
    (desktop_app : option DesktopApp) (instances : list Client)
  : option string :=
  let named :=
    match desktop_app with
    | Some app =>
        if truthy_opt (display_name app) then display_name app
        else if truthy_opt (name app) then name app
        else None
    | None => None
    end in
  match named with
  | Some n => Some n
  | None =>
      let id_value :=
        match app_identifier with
        | Structured d =>
            match dict_get "name" d with
            | Some v => v
            | None => Some "Unknown"
            end
        | Bare s => Some s
        end in
      match desktop_app, instances with
      | None, first :: _ =>
          if PyStr.truthy (title first) then Some (title first) else id_value
      | _, _ => id_value
      end
  end.

(** ** Notions used in the statements *)

(** The string consists of whitespace only. *)
Fixpoint all_space (s : string) : bool :=
  match s with
  | EmptyString => true
  | String c r => PyStr.is_space c && all_space r
  end.

(** The application's [command_line] is non-empty but blank. *)
Definition has_blank_command_line (app : DesktopApp) : bool :=
  match command_line app with
  | Some s => PyStr.truthy s && all_space s
  | None => false
  end.

(** One candidate identifier matches some group: by its own key, by its
    normalized form, or, when it has three characters or more, as a
    substring of a key. *)
Definition identifier_matches (identifier : string)
    (running_windows : list (string * list Client)) : bool :=
  dict_mem identifier running_windows
  || dict_mem (_normalize_window_class identifier) running_windows
  || ((3 <=? String.length identifier)
      && existsb (PyStr.contains identifier) (dict_keys running_windows)).

(** What [update_pinned_apps] stores for one button. *)
Definition saved_entry (b : Button) : AppId :=
  match desktop_app b with
  | Some app => Structured (app_data_of app)
  | None => app_identifier b
  end.

(** A pinned record as [update_pinned_apps] stores it after a pass: the
    full record of the application it resolves to, or the record itself. *)
Definition resaved (self : Dock) (app_data : AppId) : AppId :=
  match find_app self app_data with
  | Some app => Structured (app_data_of app)
  | None => app_data
  end.

(** The reveal state [check_occlusion_state] decides on. *)
Definition wanted_reveal (self : Dock) : bool :=
  if _forced_occlusion self then is_mouse_over_dock_area self
  else is_mouse_over_dock_area self || _drag_in_progress self
       || _prevent_occlusion self || always_show self.

(** Every application the index holds is one of [apps]. *)
Definition index_sound (identifiers : list (string * DesktopApp))
    (apps : list DesktopApp) : Prop :=
  forall k app, dict_get k identifiers = Some app -> In app apps.

(** The dock after a sequence of events. *)
Definition hover_run (events : list HoverEvent) (h : Hover) : Hover :=
  fold_left hover_step events h.

(** What the hover handlers keep true of the hide timer: [hide_id] names
    the one pending timeout, or there is none; ids are positive and below
    the next one; an integrated dock has no timeout. *)
Definition hide_timer_consistent (h : Hover) : Prop :=
  1 <= next_source h
  /\ match hide_id h with
     | Some id => pending_hides h = [id] /\ 1 <= id < next_source h
                  /\ integrated_mode (dock h) = false
     | None => pending_hides h = []
     end.

(** What the occlusion machinery shows and remembers. *)
Definition reveal_state (d : Dock)
  : bool * bool * bool * bool * option bool :=
  (reveal_child d, occluded d, always_show d, _forced_occlusion d,
   _saved_always_show d).

(** The loop body of [_build_app_identifiers_map] stores an application
    under [k] for the attribute [attr], put through [f]. *)
Definition registered_as (k : string) (f : string -> string)
    (attr : option string) : bool :=
  match attr with
  | Some s => PyStr.truthy s && String.eqb k (f s)
  | None => false
  end.

(** The loop body of [_build_app_identifiers_map] stores [app] under [k]. *)
Definition registers (k : string) (app : DesktopApp) : bool :=
  registered_as k PyStr.lower (name app)
  || registered_as k PyStr.lower (display_name app)
  || registered_as k PyStr.lower (window_class app)
  || registered_as k (fun s => PyStr.lower (PyStr.basename s))
       (executable app)
  || match command_line app with
     | Some s =>
         PyStr.truthy s
         && match PyStr.split_ws s with
            | tok :: _ => String.eqb k (PyStr.lower (PyStr.basename tok))
            | [] => false
            end
     | None => false
     end.

(** The last application of [apps] that is stored under [k], or [earlier]
    when there is none. *)
Fixpoint last_registered (k : string) (apps : list DesktopApp)
    (earlier : option DesktopApp) : option DesktopApp :=
  match apps with
  | [] => earlier
  | app :: rest =>
      last_registered k rest (if registers k app then Some app else earlier)
  end.

(* ================================================================= *)
(** * Properties *)

Unset Implicit Arguments.

(** ** Facts about the string primitives *)

Lemma lower_char_idem (c : ascii) :
  PyStr.lower_char (PyStr.lower_char c) = PyStr.lower_char c.
Proof. destruct c as [[] [] [] [] [] [] [] []]; reflexivity. Qed.

Lemma lower_idem (s : string) : PyStr.lower (PyStr.lower s) = PyStr.lower s.
Proof.
  induction s as [|c r IH]; simpl; [reflexivity|].
  now rewrite lower_char_idem, IH.
Qed.

Lemma lower_substring (s : string) :
  forall n m, PyStr.lower (substring n m s) = substring n m (PyStr.lower s).
Proof.
  induction s as [|c r IH]; intros n m.
  - destruct n, m; reflexivity.
  - destruct n as [|n]; simpl.
    + destruct m as [|m]; simpl; [reflexivity|]. now rewrite IH.
    + apply IH.
Qed.

Lemma substring_prefix_length (s : string) :
  forall m, m <= String.length s -> String.length (substring 0 m s) = m.
Proof.
  induction s as [|c r IH]; intros m Hm; simpl in *.
  - destruct m; [reflexivity | lia].
  - destruct m as [|m]; simpl; [reflexivity|].
    rewrite IH; [reflexivity | lia].
Qed.

Lemma endswith_length (s suffix : string) :
  PyStr.endswith s suffix = true -> String.length suffix <= String.length s.
Proof.
  unfold PyStr.endswith. intros H.
  apply andb_true_iff in H. destruct H as [H _].
  now apply Nat.leb_le in H.
Qed.

(** ** Facts about normalization *)

Lemma normalize_unfold (s : string) :
  _normalize_window_class s = strip_suffixes (PyStr.lower s).
Proof.
  unfold _normalize_window_class, PyStr.truthy.
  destruct s as [|c r]; reflexivity.
Qed.

Lemma strip_suffix_lower (x suffix : string) :
  PyStr.lower x = x -> PyStr.lower (strip_suffix x suffix) = strip_suffix x suffix.
Proof.
  intros Hx. unfold strip_suffix, PyStr.drop_end.
  destruct (PyStr.endswith x suffix); [|exact Hx].
  destruct (String.length suffix =? 0); [reflexivity|].
  now rewrite lower_substring, Hx.
Qed.

Lemma strip_suffix_length_le (x suffix : string) :
  String.length (strip_suffix x suffix) <= String.length x.
Proof.
  unfold strip_suffix, PyStr.drop_end.
  destruct (PyStr.endswith x suffix); [|lia].
  destruct (String.length suffix =? 0); simpl; [lia|].
  rewrite substring_prefix_length; lia.
Qed.

Lemma strip_suffix_shrinks (x suffix : string) :
  0 < String.length suffix ->
  PyStr.endswith x suffix = true ->
  String.length (strip_suffix x suffix) < String.length x.
Proof.
  intros Hpos Hend. unfold strip_suffix, PyStr.drop_end. rewrite Hend.
  pose proof (endswith_length _ _ Hend) as Hle.
  destruct (String.length suffix =? 0) eqn:E.
  - apply Nat.eqb_eq in E. lia.
  - rewrite substring_prefix_length; lia.
Qed.

Lemma normalize_lower (s : string) :
  PyStr.lower (_normalize_window_class s) = _normalize_window_class s.
Proof.
  rewrite normalize_unfold. unfold strip_suffixes, suffixes. simpl.
  repeat apply strip_suffix_lower. apply lower_idem.
Qed.

Lemma strip_suffixes_fixed (x : string) :
  ends_with_suffix x = false -> strip_suffixes x = x.
Proof.
  unfold ends_with_suffix, strip_suffixes, suffixes. simpl.
  intros H. repeat (apply orb_false_iff in H; destruct H as [?H H]).
  unfold strip_suffix.
  repeat match goal with
         | E : PyStr.endswith x _ = false |- _ => rewrite E; clear E
         end.
  reflexivity.
Qed.

Lemma fold_strip_length_le (l : list string) :
  forall y, String.length (fold_left strip_suffix l y) <= String.length y.
Proof.
  induction l as [|suffix r IH]; intros y; simpl; [lia|].
  pose proof (IH (strip_suffix y suffix)).
  pose proof (strip_suffix_length_le y suffix). lia.
Qed.

Lemma fold_strip_shrinks (l : list string) :
  (forall suffix, In suffix l -> 0 < String.length suffix) ->
  forall x, existsb (PyStr.endswith x) l = true ->
            String.length (fold_left strip_suffix l x) < String.length x.
Proof.
  induction l as [|suffix r IH]; intros Hpos x Hex; simpl in *.
  - discriminate.
  - destruct (PyStr.endswith x suffix) eqn:E.
    + pose proof (fold_strip_length_le r (strip_suffix x suffix)).
      pose proof (strip_suffix_shrinks x suffix (Hpos _ (or_introl eq_refl)) E).
      lia.
    + replace (strip_suffix x suffix) with x
        by (unfold strip_suffix; now rewrite E).
      apply IH; [intros; apply Hpos; now right | exact Hex].
Qed.

Lemma strip_suffixes_shrinks (x : string) :
  ends_with_suffix x = true ->
  String.length (strip_suffixes x) < String.length x.
Proof.
  apply fold_strip_shrinks. unfold suffixes. intros suffix Hin.
  simpl in Hin.
  repeat (destruct Hin as [<- | Hin]; [simpl; lia|]). contradiction.
Qed.

(** C4 (as the code has it): normalization lowercases and then strips, in
    the order [.bin], [.exe], [.so], [-bin], [-gtk], every suffix that is
    at the end when its turn comes. Normalizing a second time changes
    nothing exactly when the first result ends with none of the five
    suffixes. *)
Theorem normalize_idempotent_iff (s : string) :
  _normalize_window_class s
  = fold_left strip_suffix [".bin"; ".exe"; ".so"; "-bin"; "-gtk"]
      (PyStr.lower s)
  /\ (_normalize_window_class (_normalize_window_class s)
      = _normalize_window_class s
      <-> ends_with_suffix (_normalize_window_class s) = false).
Proof.
  split; [apply normalize_unfold|].
  rewrite (normalize_unfold (_normalize_window_class s)), normalize_lower.
  split.
  - intros Hfix. destruct (ends_with_suffix _) eqn:E; [|reflexivity].
    apply strip_suffixes_shrinks in E. rewrite Hfix in E. lia.
  - apply strip_suffixes_fixed.
Qed.

(** C4 (as stated) fails: ["foo.exe.so"] loses [.so] on the first pass
    (the turn of [.exe] came before) and [.exe] on the second. *)
Lemma normalize_not_idempotent :
  _normalize_window_class "foo.exe.so" = "foo.exe"
  /\ _normalize_window_class (_normalize_window_class "foo.exe.so") = "foo"
  /\ _normalize_window_class (_normalize_window_class "foo.exe.so")
     <> _normalize_window_class "foo.exe.so".
Proof. repeat split; vm_compute; discriminate. Qed.

(** ** AppMatcher: resolution order *)

Lemma find_app_by_key_truthy (self : Dock) (v : string) :
  PyStr.truthy v = true ->
  find_app_by_key self v
  = match exact_match (app_identifiers self) (PyStr.lower v) with
    | Some app => Some app
    | None => fuzzy_match (_all_apps self) (PyStr.lower v)
    end.
Proof. intros Hv. unfold find_app_by_key. now rewrite Hv. Qed.

Lemma truthy_item_truthy (key : string) (d : list (string * option string))
    (v : string) :
  truthy_item key d = Some v -> PyStr.truthy v = true.
Proof.
  unfold truthy_item.
  destruct (dict_get key d) as [[s|]|]; try discriminate.
  destruct (PyStr.truthy s) eqn:E; [|discriminate].
  now intros [= <-].
Qed.

Lemma stops_at_head (self : Dock) (d : list (string * option string))
    (key v : string) (app : DesktopApp) :
  truthy_item key d = Some v ->
  find_app_by_key self v = Some app ->
  stops_at self d [] key app.
Proof.
  intros Ev Hfind. exists v.
  rewrite (find_app_by_key_truthy self v (truthy_item_truthy _ _ _ Ev)) in Hfind.
  split; [exact Ev|]. split.
  - destruct (exact_match _ _) as [a|]; [left; congruence | right; auto].
  - intros k w [].
Qed.

Lemma stops_at_skip (self : Dock) (d : list (string * option string))
    (key0 : string) (before : list string) (key : string) (app : DesktopApp) :
  (forall w, truthy_item key0 d = Some w -> find_app_by_key self w = None) ->
  stops_at self d (key0 :: before) key app <-> stops_at self d before key app.
Proof.
  intros Hskip. split; intros (v & Hv & Hres & Hbefore); exists v;
    (split; [exact Hv|]); (split; [exact Hres|]); intros k w Hin Hw.
  - apply (Hbefore k w); [now right | exact Hw].
  - destruct Hin as [<- | Hin]; [|now apply (Hbefore k w)].
    specialize (Hskip w Hw).
    rewrite (find_app_by_key_truthy self w (truthy_item_truthy _ _ _ Hw))
      in Hskip.
    destruct (exact_match _ _); [discriminate | auto].
Qed.

Lemma stops_at_first_resolves (self : Dock) (d : list (string * option string))
    (key0 : string) (before : list string) (key : string) (app : DesktopApp)
    (v : string) (a : DesktopApp) :
  truthy_item key0 d = Some v ->
  find_app_by_key self v = Some a ->
  ~ stops_at self d (key0 :: before) key app.
Proof.
  intros Ev Hfind (v' & _ & _ & Hbefore).
  destruct (Hbefore key0 v (or_introl eq_refl) Ev) as [Hex Hfz].
  rewrite (find_app_by_key_truthy self v (truthy_item_truthy _ _ _ Ev)) in Hfind.
  rewrite Hex, Hfz in Hfind. discriminate.
Qed.

Lemma stops_at_resolves (self : Dock) (d : list (string * option string))
    (before : list string) (key : string) (app : DesktopApp) :
  stops_at self d before key app ->
  exists v, truthy_item key d = Some v /\ find_app_by_key self v = Some app.
Proof.
  intros (v & Hv & Hres & _). exists v. split; [exact Hv|].
  rewrite (find_app_by_key_truthy self v (truthy_item_truthy _ _ _ Hv)).
  destruct Hres as [-> | [-> ->]]; reflexivity.
Qed.

Lemma find_app_in_dict_stops (self : Dock) (d : list (string * option string))
    (app : DesktopApp) (keys : list string) :
  find_app_in_dict self d keys = Some app
  <-> exists before key after,
        keys = before ++ key :: after /\ stops_at self d before key app.
Proof.
  induction keys as [|key0 rest IH]; simpl.
  - split; [discriminate|]. intros (before & k & after & E & _).
    destruct before; discriminate.
  - destruct (truthy_item key0 d) as [v|] eqn:Ev;
      [destruct (find_app_by_key self v) as [a|] eqn:Ef|].
    + (* the first key resolves *)
      split.
      * intros [= <-]. exists [], key0, rest. split; [reflexivity|].
        now apply stops_at_head with (v := v).
      * intros ([|k0 before] & k & after & E & Hstop).
        -- injection E as <- <-.
           destruct (stops_at_resolves _ _ _ _ _ Hstop) as (v' & Hv' & Hf).
           congruence.
        -- injection E as <- _.
           now destruct (stops_at_first_resolves _ _ _ _ _ _ _ _ Ev Ef Hstop).
    + (* the first key has a value that resolves to nothing *)
      assert (Hskip : forall w, truthy_item key0 d = Some w ->
                                find_app_by_key self w = None) by congruence.
      rewrite IH. split.
      * intros (before & k & after & -> & Hstop).
        exists (key0 :: before), k, after. split; [reflexivity|].
        now apply stops_at_skip.
      * intros ([|k0 before] & k & after & E & Hstop).
        -- injection E as <- <-.
           destruct (stops_at_resolves _ _ _ _ _ Hstop) as (v' & Hv' & Hf).
           congruence.
        -- injection E as <- ->. exists before, k, after.
           split; [reflexivity|].
           exact (proj1 (stops_at_skip self d key0 before k app Hskip) Hstop).
    + (* the first key is absent or falsy *)
      assert (Hskip : forall w, truthy_item key0 d = Some w ->
                                find_app_by_key self w = None) by congruence.
      rewrite IH. split.
      * intros (before & k & after & -> & Hstop).
        exists (key0 :: before), k, after. split; [reflexivity|].
        now apply stops_at_skip.
      * intros ([|k0 before] & k & after & E & Hstop).
        -- injection E as <- <-.
           destruct (stops_at_resolves _ _ _ _ _ Hstop) as (v' & Hv' & Hf).
           congruence.
        -- injection E as <- ->. exists before, k, after.
           split; [reflexivity|].
           exact (proj1 (stops_at_skip self d key0 before k app Hskip) Hstop).
Qed.

(** C3 (as the code has it): for a structured record [find_app] goes
    through [window_class], [executable], [command_line], [name],
    [display_name] in that order and asks, for each key with a non-empty
    value, the exact index and then, for the same key, the substring scan;
    the first key that resolves either way gives the result. *)
Theorem find_app_first_resolving_key (self : Dock)
    (d : list (string * option string)) (app : DesktopApp) :
  find_app self (Structured d) = Some app
  <-> exists before key after,
        ["window_class"; "executable"; "command_line"; "name"; "display_name"]
        = before ++ key :: after
        /\ stops_at self d before key app.
Proof.
  destruct d as [|kv d'].
  - simpl. split; [discriminate|].
    intros (before & key & after & _ & (v & Hv & _)). discriminate.
  - apply (find_app_in_dict_stops self (kv :: d') app priority_keys).
Qed.

(** C3 (as stated) fails: the record of VS Code has no [window_class], its
    [executable] is a path, which is no index key (the index holds
    basenames) but is a substring of the executable of Code::Blocks, and
    its [name] ["code"] is an exact index key. The code answers with the
    substring match on the earlier key. *)
Lemma find_app_fuzzy_before_exact :
  let codeblocks :=
    {| name := Some "codeblocks"; display_name := Some "Code::Blocks IDE";
       window_class := None; executable := Some "/usr/bin/codeblocks";
       command_line := Some "/usr/bin/codeblocks %F";
       get_icon_pixbuf := true |} in
  let code :=
    {| name := Some "code"; display_name := Some "Visual Studio Code";
       window_class := None; executable := Some "/usr/bin/code";
       command_line := Some "/usr/bin/code %F";
       get_icon_pixbuf := true |} in
  let record := app_data_of code in
  exists self,
    Dock_init false false [codeblocks; code] [Structured record] = Ok self
    /\ truthy_item "window_class" record = None
    /\ exact_match (app_identifiers self) "/usr/bin/code" = None
    /\ fuzzy_match (_all_apps self) "/usr/bin/code" = Some codeblocks
    /\ exact_match (app_identifiers self) "code" = Some code
    /\ find_app self (Structured record) = Some codeblocks
    /\ resolve_exact_then_fuzzy self record = Some code
    /\ find_app self (Structured record)
       <> resolve_exact_then_fuzzy self record.
Proof.
  eexists. split; [reflexivity|]. repeat split; try reflexivity.
  vm_compute. discriminate.
Qed.


(** ** WindowClassifier: the grouping *)

Lemma group_of_setdefault_extend (k k' : string) (vs : list Client)
    (d : list (string * list Client)) :
  group_of k (setdefault_extend k' vs d)
  = if String.eqb k k' then group_of k d ++ vs else group_of k d.
Proof.
  unfold group_of. induction d as [|[k0 g] r IH]; simpl.
  - destruct (String.eqb k k'); reflexivity.
  - destruct (String.eqb k' k0) eqn:E0; simpl.
    + apply String.eqb_eq in E0. subst k0.
      destruct (String.eqb k k'); reflexivity.
    + destruct (String.eqb k k0) eqn:E1.
      * apply String.eqb_eq in E1. subst k0.
        rewrite String.eqb_sym in E0. now rewrite E0.
      * exact IH.
Qed.

Lemma dict_mem_setdefault_extend (k k' : string) (vs : list Client)
    (d : list (string * list Client)) :
  dict_mem k (setdefault_extend k' vs d) = String.eqb k k' || dict_mem k d.
Proof.
  unfold dict_mem. induction d as [|[k0 g] r IH]; simpl.
  - destruct (String.eqb k k'); reflexivity.
  - destruct (String.eqb k' k0) eqn:E0; simpl.
    + apply String.eqb_eq in E0. subst k0.
      destruct (String.eqb k k'); reflexivity.
    + destruct (String.eqb k k0) eqn:E1.
      * now rewrite orb_true_r.
      * exact IH.
Qed.

(** Groups only grow while the grouping is built. *)
Lemma add_window_grows (rw : list (string * list Client)) (c0 c : Client)
    (k : string) :
  In c (group_of k rw) -> In c (group_of k (add_window rw c0)).
Proof.
  intros Hin. unfold add_window.
  destruct (negb _);
    repeat (rewrite group_of_setdefault_extend;
            destruct (String.eqb k _); [apply in_or_app; left|]); exact Hin.
Qed.

Lemma add_window_keeps_keys (rw : list (string * list Client)) (c0 : Client)
    (k : string) :
  dict_mem k rw = true -> dict_mem k (add_window rw c0) = true.
Proof.
  intros Hin. unfold add_window.
  destruct (negb _); repeat rewrite dict_mem_setdefault_extend;
    rewrite Hin; now rewrite ?orb_true_r.
Qed.

(** The window just added is under its identifier and under the
    normalized form of it. *)
Lemma add_window_registers (rw : list (string * list Client)) (c : Client) :
  let rw' := add_window rw c in
  (In c (group_of (_extract_window_id c) rw')
   /\ dict_mem (_extract_window_id c) rw' = true)
  /\ (In c (group_of (_normalize_window_class (_extract_window_id c)) rw')
      /\ dict_mem (_normalize_window_class (_extract_window_id c)) rw' = true).
Proof.
  unfold add_window.
  set (w := _extract_window_id c). set (n := _normalize_window_class w).
  assert (Hraw : In c (group_of w (setdefault_extend w [c] rw))).
  { rewrite group_of_setdefault_extend, String.eqb_refl.
    apply in_or_app. right. now left. }
  assert (Hkey : dict_mem w (setdefault_extend w [c] rw) = true).
  { now rewrite dict_mem_setdefault_extend, String.eqb_refl. }
  destruct (String.eqb n w) eqn:E; simpl.
  - apply String.eqb_eq in E. rewrite E. auto.
  - set (rw1 := setdefault_extend w [c] rw) in *.
    rewrite !(group_of_setdefault_extend _ n), !(dict_mem_setdefault_extend _ n).
    rewrite String.eqb_refl, (String.eqb_sym w n), E, Hkey. simpl.
    repeat split; auto. apply in_or_app. now right.
Qed.

Lemma build_running_windows_registers (clients : list Client) :
  forall (rw : list (string * list Client)) (c : Client) (k : string),
    (k = _extract_window_id c
     \/ k = _normalize_window_class (_extract_window_id c)) ->
    (In c clients \/ (In c (group_of k rw) /\ dict_mem k rw = true)) ->
    In c (group_of k (fold_left add_window clients rw))
    /\ dict_mem k (fold_left add_window clients rw) = true.
Proof.
  induction clients as [|c0 rest IH]; intros rw c k Hk Hc; simpl.
  - destruct Hc as [[] | Hc]. exact Hc.
  - apply IH; [exact Hk|].
    destruct Hc as [[<- | Hin] | [Hin Hmem]].
    + right. pose proof (add_window_registers rw c0) as [H1 H2].
      destruct Hk as [-> | ->]; assumption.
    + now left.
    + right. split;
        [now apply add_window_grows | now apply add_window_keeps_keys].
Qed.

(** C5 (as the code has it): every window of the client list is stored
    under its raw identifier and also under the normalized form of that
    identifier, so a lookup by either key finds it. *)
Theorem window_under_raw_and_normalized (clients : list Client) (c : Client) :
  In c clients ->
  let running_windows := _build_running_windows clients in
  let window_id := _extract_window_id c in
  let normalized_id := _normalize_window_class window_id in
  (exists g, dict_get window_id running_windows = Some g /\ In c g)
  /\ (exists g, dict_get normalized_id running_windows = Some g /\ In c g).
Proof.
  intros Hin rw w n.
  assert (H : forall k, k = w \/ k = n ->
                        exists g, dict_get k rw = Some g /\ In c g).
  { intros k Hk.
    destruct (build_running_windows_registers clients [] c k Hk
                (or_introl Hin)) as [Hg Hmem].
    fold (_build_running_windows clients) in Hg, Hmem. fold rw in Hg, Hmem.
    unfold group_of in Hg. unfold dict_mem in Hmem.
    destruct (dict_get k rw) as [g|]; [|discriminate].
    now exists g. }
  split; apply H; auto.
Qed.

Lemma window_under_raw_and_normalized_witness :
  let c1 := window "0x1" "Foo.bin" in
  let c2 := window "0x2" "foo" in
  In c1 [c1; c2]
  /\ (exists g, dict_get "foo.bin" (_build_running_windows [c1; c2]) = Some g
                /\ In c1 g)
  /\ (exists g, dict_get "foo" (_build_running_windows [c1; c2]) = Some g
                /\ In c1 g).
Proof.
  intros c1 c2.
  assert (Hin : In c1 [c1; c2]) by (simpl; auto).
  split; [exact Hin|].
  exact (window_under_raw_and_normalized [c1; c2] c1 Hin).
Defined.

(** C5 (as stated) fails: the normalized key collects the groups of every
    raw identifier that normalizes to it. Here ["foo"] holds both windows,
    ["foo.bin"] only the first. *)
Lemma normalized_group_differs_from_raw :
  let c1 := window "0x1" "foo.bin" in
  let c2 := window "0x2" "foo.exe" in
  _extract_window_id c1 = "foo.bin"
  /\ _normalize_window_class "foo.bin" = "foo"
  /\ _build_running_windows [c1; c2]
     = [("foo.bin", [c1]); ("foo", [c1; c2]); ("foo.exe", [c2])]
  /\ dict_get "foo.bin" (_build_running_windows [c1; c2])
     <> dict_get "foo" (_build_running_windows [c1; c2]).
Proof. repeat split; vm_compute; discriminate. Qed.

(** Two windows of one application: the whole raw group is appended to the
    normalized group at every window, so the first window is listed twice.
    (An illustration of the loop body; C5 as amended says nothing about
    how often a window is listed.) *)
Example normalized_group_repeats_windows :
  let c1 := window "0x1" "foo-gtk" in
  let c2 := window "0x2" "foo-gtk" in
  _build_running_windows [c1; c2]
  = [("foo-gtk", [c1; c2]); ("foo", [c1; c1; c2])].
Proof. reflexivity. Qed.

(** ** DockReconciler *)

Lemma get_app_icon_outcome (self : Dock) (a : AppId) :
  _get_app_icon a (find_app self a)
  = if icon_lookup_returns self a then Ok tt else Raise KeyError.
Proof.
  unfold _get_app_icon, icon_lookup_returns, dict_mem.
  destruct a as [s|d].
  - destruct (find_app self (Bare s)) as [app|];
      [destruct (get_icon_pixbuf app)|]; reflexivity.
  - destruct (find_app self (Structured d)) as [app|];
      [destruct (get_icon_pixbuf app)|];
      destruct (dict_get "name" d); reflexivity.
Qed.

(** [create_button] raises [KeyError], and nothing else, exactly on a dict
    without a name whose application gives no icon. *)
Lemma create_button_outcome (self : Dock) (a : AppId)
    (insts : list Client) :
  create_button self a insts
  = if icon_lookup_returns self a then Ok (button_of self a insts)
    else Raise KeyError.
Proof.
  unfold create_button. rewrite get_app_icon_outcome.
  now destruct (icon_lookup_returns self a).
Qed.

Lemma pin_loop_outcome (los : list string -> list string)
    (self : Dock) (rw : list (string * list Client)) (l : list AppId) :
  forall pbs used,
    pin_loop los self rw (pbs, used) l
    = if forallb (icon_lookup_returns self) l
      then Ok (pbs ++ map (pinned_button los self rw) l,
               used ++ flat_map (marked_used los self rw) l)
      else Raise KeyError.
Proof.
  induction l as [|a r IH]; intros pbs used.
  - simpl. now rewrite !app_nil_r.
  - cbn [pin_loop forallb map flat_map]. unfold pin_step.
    unfold pinned_button at 1, marked_used at 1.
    destruct (_find_instances_for_app los self a rw) as [insts matched].
    rewrite create_button_outcome.
    destruct (icon_lookup_returns self a); [|reflexivity].
    cbn [bind andb fst snd]. rewrite IH.
    destruct (forallb (icon_lookup_returns self) r); [|reflexivity].
    f_equal. f_equal.
    + now rewrite <- app_assoc.
    + destruct matched as [m|]; [destruct (PyStr.truthy m)|];
        simpl; now rewrite <- ?app_assoc, ?app_nil_r.
Qed.

Lemma create_pinned_buttons_eq (los : list string -> list string)
    (self : Dock) (rw : list (string * list Client)) :
  _create_pinned_buttons los self rw
  = if forallb (icon_lookup_returns self) (pinned self)
    then Ok (map (pinned_button los self rw) (pinned self),
             flat_map (marked_used los self rw) (pinned self))
    else Raise KeyError.
Proof. unfold _create_pinned_buttons. now rewrite pin_loop_outcome. Qed.

Lemma create_pinned_buttons_returned (los : list string -> list string)
    (self : Dock) (rw : list (string * list Client))
    (pbs : list Button) (used : list string) :
  _create_pinned_buttons los self rw = Ok (pbs, used) ->
  pbs = map (pinned_button los self rw) (pinned self)
  /\ used = flat_map (marked_used los self rw) (pinned self).
Proof.
  rewrite create_pinned_buttons_eq.
  destruct (forallb (icon_lookup_returns self) (pinned self));
    [|discriminate].
  intros [= <- <-]. now split.
Qed.

(** The identifier made for a running group is a string or a dict with
    all five keys, so its button is always created. *)
Lemma create_app_identifier_icon (self : Dock) (class_name : string)
    (insts : list Client) :
  icon_lookup_returns self (_create_app_identifier self class_name insts)
  = true.
Proof.
  unfold _create_app_identifier.
  match goal with
  | |- icon_lookup_returns _ (match ?a with _ => _ end) = _ =>
      destruct a; reflexivity
  end.
Qed.

Lemma open_loop_eq (self : Dock) (used : list string)
    (items : list (string * list Client)) :
  forall obs,
    open_loop self used obs items
    = Ok (obs ++ map (open_button self) (unused_groups used items)).
Proof.
  unfold unused_groups.
  induction items as [|[k g] r IH]; intros obs; cbn [open_loop filter fst].
  - now rewrite app_nil_r.
  - destruct (negb (set_mem k used)); [|apply IH].
    rewrite create_button_outcome, create_app_identifier_icon.
    cbn [bind map]. rewrite IH, <- app_assoc. reflexivity.
Qed.

Lemma create_open_buttons_eq (self : Dock) (rw : list (string * list Client))
    (used : list string) :
  _create_open_buttons self rw used
  = Ok (map (open_button self) (unused_groups used rw)).
Proof. unfold _create_open_buttons. now rewrite open_loop_eq. Qed.

Lemma set_mem_in (x : string) (s : list string) :
  set_mem x s = true <-> In x s.
Proof.
  unfold set_mem. rewrite existsb_exists. split.
  - intros (y & Hy & E). apply String.eqb_eq in E. now subst.
  - intros H. exists x. split; [exact H | apply String.eqb_refl].
Qed.

Lemma marked_used_in (los : list string -> list string) (self : Dock)
    (rw : list (string * list Client)) (a : AppId) (insts : list Client)
    (m : string) (pbs : list Button) (used : list string) :
  _create_pinned_buttons los self rw = Ok (pbs, used) ->
  In a (pinned self) ->
  _find_instances_for_app los self a rw = (insts, Some m) ->
  m <> "" ->
  forall k, k = m \/ k = _normalize_window_class m ->
            set_mem k used = true.
Proof.
  intros Hcreated Hin Hfind Hm k Hk.
  destruct (create_pinned_buttons_returned los self rw pbs used Hcreated)
    as [_ ->].
  apply set_mem_in, in_flat_map. exists a. split; [exact Hin|].
  unfold marked_used. rewrite Hfind. simpl.
  assert (Ht : PyStr.truthy m = true).
  { unfold PyStr.truthy. destruct (String.eqb m "") eqn:E; [|reflexivity].
    apply String.eqb_eq in E. contradiction. }
  rewrite Ht. simpl. destruct Hk as [-> | ->]; auto.
Qed.

Lemma unused_groups_without (m : string) (used : list string) :
  (forall k, k = m \/ k = _normalize_window_class m -> set_mem k used = true) ->
  forall rw, unused_groups used rw = unused_groups used (without_group m rw).
Proof.
  intros Hused rw. unfold unused_groups, without_group.
  induction rw as [|[k g] r IH]; simpl; [reflexivity|].
  destruct (String.eqb k m) eqn:E1; simpl.
  - apply String.eqb_eq in E1.
    rewrite (Hused k (or_introl E1)). simpl. apply IH.
  - destruct (String.eqb k (_normalize_window_class m)) eqn:E2; simpl.
    + apply String.eqb_eq in E2.
      rewrite (Hused k (or_intror E2)). simpl. apply IH.
    + now rewrite IH.
Qed.

(** C1 (as the code has it): in a pass whose pinned buttons are all
    created, each pinned record gets, independently of the other pinned
    records, the group of its first matching candidate; the key it matched
    (when it is a non-empty string) and the normalized form of that key
    get no button in the unpinned section: the unpinned buttons are the
    same as for the grouping without these keys. *)
Theorem matched_group_not_among_open_buttons
    (list_of_set : list string -> list string) (self : Dock)
    (running_windows : list (string * list Client)) (app_data : AppId)
    (instances_found : list Client) (matched_class : string)
    (pinned_buttons : list Button) (used_classes : list string) :
  _create_pinned_buttons list_of_set self running_windows
  = Ok (pinned_buttons, used_classes) ->
  In app_data (pinned self) ->
  _find_instances_for_app list_of_set self app_data running_windows
  = (instances_found, Some matched_class) ->
  matched_class <> "" ->
  pinned_buttons
  = map (fun a =>
           button_of self a
             (fst (_find_instances_for_app list_of_set self a running_windows)))
        (pinned self)
  /\ In (button_of self app_data instances_found) pinned_buttons
  /\ exists open_buttons,
       _create_open_buttons self running_windows used_classes
       = Ok open_buttons
       /\ _create_open_buttons self
            (without_group matched_class running_windows) used_classes
          = Ok open_buttons.
Proof.
  intros Hcreated Hin Hfind Hm.
  pose proof (marked_used_in list_of_set self running_windows app_data
                instances_found matched_class pinned_buttons used_classes
                Hcreated Hin Hfind Hm) as Hused.
  destruct (create_pinned_buttons_returned list_of_set self running_windows
              pinned_buttons used_classes Hcreated) as [Hpbs _].
  split; [exact Hpbs|]. split.
  - rewrite Hpbs. apply in_map_iff. exists app_data. split; [|exact Hin].
    unfold pinned_button. now rewrite Hfind.
  - eexists. split; [apply create_open_buttons_eq|].
    rewrite create_open_buttons_eq.
    now rewrite <- (unused_groups_without matched_class used_classes Hused).
Qed.

Lemma matched_group_not_among_open_buttons_witness :
  let pin := Structured [("name", Some "Code")] in
  let self := new_dock false false [pin] in
  let w1 := window "0x1" "code" in
  let w2 := window "0x2" "kitty" in
  let running_windows := _build_running_windows [w1; w2] in
  let used_classes := ["code"; "code"] in
  _create_pinned_buttons first_occurrences self running_windows
  = Ok ([button_of self pin [w1]], used_classes)
  /\ In pin (pinned self)
  /\ _find_instances_for_app first_occurrences self pin running_windows
     = ([w1], Some "code")
  /\ "code" <> ""
  /\ exists open_buttons,
       _create_open_buttons self running_windows used_classes
       = Ok open_buttons
       /\ _create_open_buttons self (without_group "code" running_windows)
            used_classes
          = Ok open_buttons.
Proof.
  intros pin self w1 w2 running_windows used_classes.
  assert (Hcreated : _create_pinned_buttons first_occurrences self
                       running_windows
                     = Ok ([button_of self pin [w1]], used_classes))
    by reflexivity.
  assert (Hin : In pin (pinned self)) by (simpl; auto).
  assert (Hfind : _find_instances_for_app first_occurrences self pin
                    running_windows = ([w1], Some "code")) by reflexivity.
  assert (Hm : "code" <> "") by discriminate.
  repeat (split; [assumption|]).
  exact (proj2 (proj2 (matched_group_not_among_open_buttons first_occurrences
                         self running_windows pin [w1] "code" _ _
                         Hcreated Hin Hfind Hm))).
Defined.

(** C1 (as stated) fails: with the catalog entries [code] and [codeblocks]
    pinned, both resolved, and only a Code::Blocks window open, the first
    record matches the group ["codeblocks"] by substring and the second by
    equality, so both pinned buttons carry the same window. *)
Lemma two_pinned_buttons_share_a_group :
  let code := app_named "code" in
  let codeblocks := app_named "codeblocks" in
  let pin1 := Structured (app_data_of code) in
  let pin2 := Structured (app_data_of codeblocks) in
  let w := window "0x1" "codeblocks" in
  let running_windows := _build_running_windows [w] in
  exists self pinned_buttons used_classes,
    Dock_init false false [code; codeblocks] [pin1; pin2] = Ok self
    /\ find_app self pin1 = Some code
    /\ find_app self pin2 = Some codeblocks
    /\ running_windows = [("codeblocks", [w])]
    /\ _create_pinned_buttons first_occurrences self running_windows
       = Ok (pinned_buttons, used_classes)
    /\ map instances pinned_buttons = [[w]; [w]]
    /\ ~ pinned_groups_disjoint pinned_buttons.
Proof.
  intros code codeblocks pin1 pin2 w running_windows.
  eexists. eexists. eexists.
  split; [vm_compute; reflexivity|].
  split; [vm_compute; reflexivity|].
  split; [vm_compute; reflexivity|].
  split; [vm_compute; reflexivity|].
  split; [vm_compute; reflexivity|].
  split; [reflexivity|].
  intros Hdisj.
  refine (Hdisj 0 1 _ _ w _ eq_refl eq_refl _ _);
    [discriminate | simpl; auto | simpl; auto].
Qed.

Lemma check_occlusion_state_children (self : Dock) :
  children (snd (check_occlusion_state self)) = children self.
Proof.
  unfold check_occlusion_state. simpl.
  destruct (integrated_mode self), (_forced_occlusion self),
    (is_mouse_over_dock_area self), (_drag_in_progress self),
    (_prevent_occlusion self), (always_show self), (reveal_child self);
    reflexivity.
Qed.

Lemma combine_buttons_eq (pinned_buttons open_buttons : list Button) :
  _combine_buttons pinned_buttons open_buttons
  = map AppButton pinned_buttons
    ++ (if nonempty pinned_buttons && nonempty open_buttons
        then [Separator] else [])
    ++ map AppButton open_buttons.
Proof.
  unfold _combine_buttons.
  destruct pinned_buttons, open_buttons; simpl;
    rewrite <- ?app_assoc, ?app_nil_r; reflexivity.
Qed.

Lemma update_app_map_pinned (all_apps : list DesktopApp)
    (self refreshed : Dock) :
  update_app_map all_apps self = Ok refreshed -> pinned refreshed = pinned self.
Proof.
  unfold update_app_map.
  destruct (_build_app_identifiers_map all_apps); [|discriminate].
  simpl. now intros [= <-].
Qed.

(** One run of [update_dock] once the catalog is refreshed and the
    clients are known: it raises [KeyError] when the button of a pinned
    record cannot be created, and sets the children otherwise. *)
Lemma update_dock_run (list_of_set : list string -> list string)
    (all_apps : list DesktopApp) (o : IpcOutcome (list Client))
    (self refreshed : Dock) (clients : list Client) :
  update_app_map all_apps self = Ok refreshed ->
  get_clients o = Ok clients ->
  let running_windows := _build_running_windows clients in
  let pinned_buttons :=
    map (pinned_button list_of_set refreshed running_windows) (pinned self) in
  let used_classes :=
    flat_map (marked_used list_of_set refreshed running_windows)
      (pinned self) in
  let open_buttons :=
    map (open_button refreshed) (unused_groups used_classes running_windows) in
  if forallb (icon_lookup_returns refreshed) (pinned self)
  then exists self' : Dock,
         update_dock list_of_set all_apps o self = Ok self'
         /\ children self' = _combine_buttons pinned_buttons open_buttons
  else update_dock list_of_set all_apps o self = Raise KeyError.
Proof.
  intros Hmap Hclients rw pbs used obs.
  pose proof (create_pinned_buttons_eq list_of_set refreshed rw) as Hcreated.
  rewrite (update_app_map_pinned all_apps self refreshed Hmap) in Hcreated.
  fold pbs used in Hcreated.
  destruct (forallb (icon_lookup_returns refreshed) (pinned self)).
  - set (st' := set_drag_in_progress false
                  (set_children (_combine_buttons pbs obs) refreshed)).
    exists (if negb (integrated_mode st')
            then snd (check_occlusion_state st') else st').
    split.
    + unfold update_dock. rewrite Hmap. cbn [bind]. rewrite Hclients.
      cbn [bind]. fold rw. rewrite Hcreated. cbn [bind].
      rewrite create_open_buttons_eq. reflexivity.
    + destruct (negb (integrated_mode st'));
        [rewrite check_occlusion_state_children|]; reflexivity.
  - unfold update_dock. rewrite Hmap. cbn [bind]. rewrite Hclients.
    cbn [bind]. fold rw. now rewrite Hcreated.
Qed.

(** C2: in every pass in which the catalog index is built, the clients
    query returns and the buttons of the pinned records are created, the
    children set by [update_dock] are the pinned buttons, one per pinned
    record and in the order of the records, then the separator if and only
    if there are both pinned and unpinned buttons, then one button per
    group whose key no pinned record used, in the order of the grouping.
    When the button of a pinned record cannot be created the pass raises
    [KeyError] and sets no children. *)
Theorem update_dock_children (list_of_set : list string -> list string)
    (all_apps : list DesktopApp) (o : IpcOutcome (list Client))
    (self refreshed : Dock) (clients : list Client) :
  update_app_map all_apps self = Ok refreshed ->
  get_clients o = Ok clients ->
  let running_windows := _build_running_windows clients in
  if forallb (icon_lookup_returns refreshed) (pinned self)
  then
    exists (pinned_buttons : list Button) (used_classes : list string)
           (open_buttons : list Button) (self' : Dock),
      _create_pinned_buttons list_of_set refreshed running_windows
      = Ok (pinned_buttons, used_classes)
      /\ _create_open_buttons refreshed running_windows used_classes
         = Ok open_buttons
      /\ update_dock list_of_set all_apps o self = Ok self'
      /\ children self'
         = map AppButton pinned_buttons
           ++ (if nonempty pinned_buttons && nonempty open_buttons
               then [Separator] else [])
           ++ map AppButton open_buttons
      /\ map app_identifier pinned_buttons = pinned self
      /\ map instances pinned_buttons
         = map (fun a =>
                  fst (_find_instances_for_app list_of_set refreshed a
                         running_windows))
             (pinned self)
      /\ open_buttons
         = map (open_button refreshed)
             (filter (fun kv => negb (set_mem (fst kv) used_classes))
                running_windows)
  else update_dock list_of_set all_apps o self = Raise KeyError.
Proof.
  intros Hmap Hclients rw.
  pose proof (update_dock_run list_of_set all_apps o self refreshed clients
                Hmap Hclients) as Hrun.
  cbv zeta in Hrun. fold rw in Hrun.
  pose proof (create_pinned_buttons_eq list_of_set refreshed rw) as Hcreated.
  rewrite (update_app_map_pinned all_apps self refreshed Hmap) in Hcreated.
  destruct (forallb (icon_lookup_returns refreshed) (pinned self));
    [|exact Hrun].
  destruct Hrun as (self' & Hrun & Hchildren).
  eexists. eexists. eexists. exists self'.
  split; [exact Hcreated|].
  split; [apply create_open_buttons_eq|].
  split; [exact Hrun|]. split; [|split; [|split]].
  - rewrite <- combine_buttons_eq. exact Hchildren.
  - rewrite map_map. simpl. apply map_id.
  - rewrite map_map. reflexivity.
  - reflexivity.
Qed.

(** The specification's example: pinned [A, B], running [A, C]. *)
Lemma update_dock_children_witness :
  let A := Structured [("name", Some "alpha")] in
  let B := Structured [("name", Some "beta")] in
  let wa := window "0xa" "alpha" in
  let wc := window "0xc" "gamma" in
  let self := new_dock false false [A; B] in
  update_app_map [] self = Ok self
  /\ get_clients (Parsed [wa; wc]) = Ok [wa; wc]
  /\ exists self',
       update_dock first_occurrences [] (Parsed [wa; wc]) self = Ok self'
       /\ children self'
          = [ AppButton {| app_identifier := A; desktop_app := None;
                           instances := [wa] |};
              AppButton {| app_identifier := B; desktop_app := None;
                           instances := [] |};
              Separator;
              AppButton {| app_identifier := Bare "gamma";
                           desktop_app := None; instances := [wc] |} ].
Proof.
  intros A B wa wc self.
  assert (Hmap : update_app_map [] self = Ok self) by reflexivity.
  assert (Hclients : get_clients (Parsed [wa; wc]) = Ok [wa; wc])
    by reflexivity.
  split; [exact Hmap|]. split; [exact Hclients|].
  pose proof (update_dock_children first_occurrences [] (Parsed [wa; wc])
                self self [wa; wc] Hmap Hclients) as H.
  cbv zeta in H.
  change (forallb (icon_lookup_returns self) (pinned self)) with true in H.
  cbv iota in H.
  destruct H as (pbs & used & obs & self' & _ & _ & Hrun & _).
  exists self'. split; [exact Hrun|].
  revert Hrun. vm_compute. intros [= <-]. reflexivity.
Defined.

(** ** PinnedConfigStore *)

Lemma migrate_entries_legacy (app_map : list (string * DesktopApp))
    (old_pinned : list AppId) :
  forallb is_bare old_pinned = true ->
  exists migrated,
    migrate_entries app_map old_pinned = Ok migrated
    /\ List.length migrated = List.length old_pinned
    /\ forall i s,
         nth_error old_pinned i = Some (Bare s) ->
         nth_error migrated i
         = Some (match dict_get s app_map with
                 | Some app => Structured (app_data_of app)
                 | None => Structured [("name", Some s)]
                 end).
Proof.
  induction old_pinned as [|a r IH]; simpl; intros Hall.
  - exists []. repeat split. intros [|i] s; discriminate.
  - apply andb_true_iff in Hall. destruct Hall as [Ha Hr].
    destruct (IH Hr) as (mr & Hmr & Hlen & Hnth).
    destruct a as [s0|d]; [|discriminate].
    exists ((match dict_get s0 app_map with
             | Some app => Structured (app_data_of app)
             | None => Structured [("name", Some s0)]
             end) :: mr).
    split; [|split].
    + unfold migrate_entry. rewrite Hmr.
      destruct (dict_get s0 app_map); reflexivity.
    + simpl. now rewrite Hlen.
    + intros [|i] s; simpl; [now intros [= <-] | apply Hnth].
Qed.

(** Where C6 holds: a document whose [pinned_apps] are all bare strings is
    migrated entry by entry, keeping length and order; a string is looked
    up among the catalog's [name]s. *)
Lemma legacy_document_migrates (all_apps : list DesktopApp) (fs : FileSystem)
    (first : string) (others : list AppId) :
  dock_json fs
  = JsonFile {| pinned_apps_item := Some (Bare first :: others) |} ->
  forallb is_bare others = true ->
  exists migrated,
    _read_config all_apps fs = Ok {| pinned_apps_item := Some migrated |}
    /\ List.length migrated = List.length (Bare first :: others)
    /\ forall i s,
         nth_error (Bare first :: others) i = Some (Bare s) ->
         nth_error migrated i
         = Some (match dict_get s (build_app_map all_apps) with
                 | Some app => Structured (app_data_of app)
                 | None => Structured [("name", Some s)]
                 end).
Proof.
  intros Hfile Hall.
  destruct (migrate_entries_legacy (build_app_map all_apps)
              (Bare first :: others)) as (migrated & Hm & Hlen & Hnth);
    [exact Hall|].
  exists migrated. split; [|split; assumption].
  assert (Hmig : _migrate_config all_apps
                   {| pinned_apps_item := Some (Bare first :: others) |}
                 = Ok {| pinned_apps_item := Some migrated |}).
  { unfold _migrate_config. cbn [pinned_apps_item]. now rewrite Hm. }
  unfold _read_config. rewrite Hfile.
  cbn [open_and_load bind _needs_migration pinned_apps_item].
  now rewrite Hmig.
Qed.

(** C6 at the failing input: a list that starts with a bare string and
    goes on with a structured record. The migration looks the record up in
    a dict, which raises [TypeError], and [_read_config] does not catch
    it. *)
Lemma read_config_mixed_list_raises :
  let firefox := app_named "firefox" in
  let document :=
    {| pinned_apps_item :=
         Some [Bare "unknown-app"; Structured (app_data_of firefox)] |} in
  _needs_migration document = true
  /\ _read_config [firefox] {| dock_json := JsonFile document;
                               writable := true |}
     = Raise TypeError.
Proof. split; reflexivity. Qed.

(** Such a list is what [update_pinned_apps] itself saves when the button
    of an unresolved window sits in front of a resolved pinned button. *)
Example update_pinned_apps_saves_mixed_list :
  let firefox := app_named "firefox" in
  let unresolved :=
    {| app_identifier := Bare "unknown-app"; desktop_app := None;
       instances := [window "0x1" ""] |} in
  let resolved :=
    {| app_identifier := Structured (app_data_of firefox);
       desktop_app := Some firefox; instances := [] |} in
  let self :=
    set_children [AppButton unresolved; AppButton resolved; Separator]
      (new_dock false false [Structured (app_data_of firefox)]) in
  let fs := {| dock_json := NoFile; writable := true |} in
  exists self' dock_config fs',
    update_pinned_apps first_occurrences false [firefox]
      (Parsed [window "0x1" ""]) self
      {| config := {| pinned_apps_item := Some [] |} |} fs
    = Ok (self', dock_config, fs')
    /\ dock_json fs'
       = JsonFile
           {| pinned_apps_item :=
                Some [Bare "unknown-app"; Structured (app_data_of firefox)] |}
    /\ _read_config [firefox] fs' = Raise TypeError.
Proof. do 3 eexists. repeat split. Qed.

(** C8: a list of structured records that [save] has written (it returned
    [True]) is what the next load returns, unchanged. *)
Theorem save_then_load (all_apps : list DesktopApp) (dock_config : DockConfig)
    (records : list AppId) (fs fs' : FileSystem) :
  forallb is_structured records = true ->
  save (set_pinned_apps records dock_config) fs = (true, fs') ->
  exists reloaded,
    reload all_apps fs' = Ok reloaded /\ pinned_apps reloaded = records.
Proof.
  intros Hrecords Hsave. unfold save in Hsave.
  destruct (writable fs); [|discriminate].
  injection Hsave as <-.
  exists {| config := {| pinned_apps_item := Some records |} |}.
  split; [|reflexivity].
  unfold reload, _read_config. simpl.
  destruct records as [|[s|d] r]; simpl in *; [reflexivity | discriminate |].
  reflexivity.
Qed.

Lemma save_then_load_witness :
  let records :=
    [ Structured (app_data_of (app_named "firefox"));
      Structured [("name", Some "kitty")] ] in
  let fs := {| dock_json := NotJson; writable := true |} in
  let dock_config := {| config := {| pinned_apps_item := None |} |} in
  forallb is_structured records = true
  /\ fst (save (set_pinned_apps records dock_config) fs) = true
  /\ exists reloaded,
       reload [] (snd (save (set_pinned_apps records dock_config) fs))
       = Ok reloaded
       /\ pinned_apps reloaded = records.
Proof.
  intros records fs dock_config.
  split; [reflexivity|]. split; [reflexivity|].
  exact (save_then_load [] dock_config records fs
           (snd (save (set_pinned_apps records dock_config) fs))
           eq_refl eq_refl).
Defined.

(** ** Compositor failures *)

Lemma match_identifiers_no_windows (ids : list string) :
  match_identifiers ids [] = ([], None).
Proof.
  induction ids as [|identifier rest IH]; [reflexivity|].
  cbn [match_identifiers dict_get fuzzy_group find].
  destruct (3 <=? String.length identifier); exact IH.
Qed.

Lemma pinned_buttons_no_windows (list_of_set : list string -> list string)
    (self : Dock) :
  map (pinned_button list_of_set self []) (pinned self)
  = map (fun a => button_of self a []) (pinned self)
  /\ flat_map (marked_used list_of_set self []) (pinned self) = [].
Proof.
  split.
  - apply map_ext. intros a. unfold pinned_button, _find_instances_for_app.
    now rewrite match_identifiers_no_windows.
  - induction (pinned self) as [|a r IH]; simpl; [reflexivity|].
    unfold marked_used at 1, _find_instances_for_app.
    now rewrite match_identifiers_no_windows.
Qed.

(** C7 (as the code has it): when the reply to [j/clients] decodes as text
    but is not JSON, [get_clients] returns the empty list and the pass,
    when the buttons of the pinned records are created, shows every pinned
    record with no instance, and nothing else (it raises [KeyError] when
    one of them cannot be created). An exception of the connection or of
    the decoding of the reply bytes is not among those [get_clients]
    handles. *)
Theorem malformed_reply_shows_pinned_only
    (list_of_set : list string -> list string) (all_apps : list DesktopApp)
    (self refreshed : Dock) :
  update_app_map all_apps self = Ok refreshed ->
  get_clients Malformed = Ok []
  /\ (if forallb (icon_lookup_returns refreshed) (pinned self)
      then exists self',
             update_dock list_of_set all_apps Malformed self = Ok self'
             /\ children self'
                = map (fun a => AppButton (button_of refreshed a []))
                    (pinned self)
      else update_dock list_of_set all_apps Malformed self = Raise KeyError)
  /\ get_clients Undecodable = Raise UnicodeDecodeError
  /\ forall e, is_JSONDecodeError e = false ->
               get_clients (SendRaises e) = Raise e.
Proof.
  intros Hmap. split; [reflexivity|].
  split; [|split; [reflexivity|];
           intros e He; unfold get_clients; simpl; now rewrite He].
  pose proof (update_dock_run list_of_set all_apps Malformed self refreshed []
                Hmap eq_refl) as Hrun.
  cbv zeta in Hrun.
  destruct (forallb (icon_lookup_returns refreshed) (pinned self));
    [|exact Hrun].
  destruct Hrun as (self' & Hrun & Hchildren).
  exists self'. split; [exact Hrun|].
  change (_build_running_windows []) with (@nil (string * list Client))
    in Hchildren.
  rewrite Hchildren.
  destruct (pinned_buttons_no_windows list_of_set refreshed) as [H1 H2].
  rewrite (update_app_map_pinned all_apps self refreshed Hmap) in H1, H2.
  rewrite H1, H2.
  rewrite combine_buttons_eq. cbn [unused_groups filter map nonempty].
  rewrite andb_false_r. simpl. now rewrite app_nil_r, map_map.
Qed.

Lemma malformed_reply_shows_pinned_only_witness :
  let pin := Structured [("name", Some "kitty")] in
  let self := new_dock false false [pin] in
  update_app_map [] self = Ok self
  /\ get_clients Malformed = Ok []
  /\ exists self',
       update_dock first_occurrences [] Malformed self = Ok self'
       /\ children self'
          = [AppButton {| app_identifier := pin; desktop_app := None;
                          instances := [] |}].
Proof.
  intros pin self.
  split; [reflexivity|].
  destruct (malformed_reply_shows_pinned_only first_occurrences [] self self
              eq_refl) as (Hclients & Hpass & _).
  split; [exact Hclients | exact Hpass].
Defined.

(** C7 (as stated) fails: [get_clients] catches [JSONDecodeError] only.
    Reply bytes that are not UTF-8 make [.decode()] raise
    [UnicodeDecodeError], which leaves [get_clients] and [update_dock]; so
    does whatever [send_command] raises. *)
Lemma get_clients_propagates_other_failures :
  get_clients Undecodable = Raise UnicodeDecodeError
  /\ get_clients (SendRaises OSError) = Raise OSError
  /\ update_dock first_occurrences [] Undecodable
       (new_dock false false [Bare "kitty"])
     = Raise UnicodeDecodeError.
Proof. repeat split. Qed.

(** ** OcclusionStateMachine *)

(** C9 (as the code has it): on a dock that is not integrated,
    [force_occlusion] followed at once by [restore_from_occlusion] gives
    [always_show] its value from before, clears the forced flag and the
    saved value, and runs [check_occlusion_state] exactly once, on the
    state with the flags already restored. *)
Theorem force_then_restore (self : Dock) :
  integrated_mode self = false ->
  let forced := force_occlusion self in
  let restored := restore_from_occlusion forced in
  always_show restored = always_show self
  /\ _forced_occlusion restored = false
  /\ _saved_always_show restored = None
  /\ occlusion_checks restored = S (occlusion_checks self)
  /\ restored
     = snd (check_occlusion_state
              (set_saved_always_show None
                 (set_always_show (always_show self)
                    (set_forced_occlusion false forced)))).
Proof.
  intros Hmode. destruct self. simpl in Hmode. subst.
  unfold force_occlusion, restore_from_occlusion, check_occlusion_state.
  simpl.
  repeat match goal with
         | b : bool |- _ => destruct b
         end; simpl; repeat split.
Qed.

Lemma force_then_restore_witness :
  let self := new_dock false true [] in
  integrated_mode self = false
  /\ always_show self = true
  /\ always_show (force_occlusion self) = false
  /\ always_show (restore_from_occlusion (force_occlusion self)) = true
  /\ _forced_occlusion (restore_from_occlusion (force_occlusion self)) = false
  /\ occlusion_checks (restore_from_occlusion (force_occlusion self)) = 1.
Proof.
  intros self.
  destruct (force_then_restore self eq_refl) as (Ha & Hf & _ & Hc & _).
  split; [reflexivity|]. split; [reflexivity|]. split; [reflexivity|].
  split; [exact Ha|]. split; [exact Hf | exact Hc].
Defined.

(** C9 (as stated) fails on an integrated dock: both methods return at
    their first line, so nothing is re-evaluated (and a forced flag, were
    it set, would stay). *)
Lemma integrated_dock_ignores_force_and_restore :
  let self := new_dock true true [] in
  integrated_mode self = true
  /\ restore_from_occlusion (force_occlusion self) = self
  /\ occlusion_checks (restore_from_occlusion (force_occlusion self))
     = occlusion_checks self
  /\ _forced_occlusion
       (restore_from_occlusion
          (force_occlusion (set_forced_occlusion true self))) = true.
Proof. repeat split. Qed.

(** ** Click handling *)

Lemma focused_index_absent (focused : string) (instances : list Client) :
  (forall inst, In inst instances -> address inst <> focused) ->
  forall i, focused_index focused instances i = (-1)%Z.
Proof.
  induction instances as [|inst rest IH]; intros Habs i; simpl;
    [reflexivity|].
  destruct (String.eqb (address inst) focused) eqn:E.
  - apply String.eqb_eq in E. now destruct (Habs inst (or_introl eq_refl)).
  - apply IH. intros inst' Hin. apply Habs. now right.
Qed.

Lemma focused_index_first (focused : string) (instances : list Client) :
  forall (k : nat) (inst : Client) (i : Z),
    nth_error instances k = Some inst ->
    address inst = focused ->
    (forall j inst', j < k -> nth_error instances j = Some inst' ->
                     address inst' <> focused) ->
    focused_index focused instances i = (i + Z.of_nat k)%Z.
Proof.
  induction instances as [|inst0 rest IH]; intros k inst i Hk Haddr Hfirst.
  - destruct k; discriminate.
  - simpl. destruct k as [|k].
    + injection Hk as ->. rewrite Haddr, String.eqb_refl. simpl. lia.
    + destruct (String.eqb (address inst0) focused) eqn:E.
      * apply String.eqb_eq in E.
        now destruct (Hfirst 0 inst0 (Nat.lt_0_succ k) eq_refl).
      * rewrite (IH k inst (i + 1)%Z Hk Haddr); [lia|].
        intros j inst' Hj Hnth. apply (Hfirst (S j) inst'); [lia | exact Hnth].
Qed.

Lemma focus_next_by_index (o : IpcOutcome (option string))
    (instances : list Client) (focused : string) (n : nat) (next : Client) :
  get_focused o = Ok focused ->
  instances <> [] ->
  focused_index focused instances 0%Z = (Z.of_nat n - 1)%Z ->
  nth_error instances (n mod List.length instances) = Some next ->
  _focus_next_instance o instances = Ok [focus_command next].
Proof.
  intros Hfocused Hne Hidx Hnth. unfold _focus_next_instance.
  rewrite Hfocused. simpl. rewrite Hidx.
  assert (Hlen : List.length instances <> 0) by (destruct instances; simpl; congruence).
  destruct (Z.of_nat (List.length instances) =? 0)%Z eqn:E.
  - apply Z.eqb_eq in E. lia.
  - replace (Z.of_nat n - 1 + 1)%Z with (Z.of_nat n) by lia.
    rewrite <- Nat2Z.inj_mod, Nat2Z.id, Hnth. reflexivity.
Qed.

(** What [_focus_next_instance] computes: a click on a button with
    instances focuses the first instance when no instance has the focused
    address, and the instance at [(i + 1) mod length] when [i] is the first
    index whose window has the focused address (the index of the focused
    window, when the listed windows are distinct). *)
Theorem handle_app_cycles (launch_success : DesktopApp -> bool) (self : Dock)
    (o : IpcOutcome (option string)) (app_identifier : AppId)
    (instances : list Client) (desktop_app : option DesktopApp)
    (focused : string) :
  instances <> [] ->
  get_focused o = Ok focused ->
  ((forall inst, In inst instances -> address inst <> focused) ->
   exists first,
     nth_error instances 0 = Some first
     /\ handle_app launch_success self o app_identifier instances desktop_app
        = Ok [focus_command first])
  /\ (forall i inst,
        nth_error instances i = Some inst ->
        address inst = focused ->
        (forall j inst', j < i -> nth_error instances j = Some inst' ->
                         address inst' <> focused) ->
        exists next,
          nth_error instances ((i + 1) mod List.length instances) = Some next
          /\ handle_app launch_success self o app_identifier instances
               desktop_app
             = Ok [focus_command next]).
Proof.
  intros Hne Hfocused.
  assert (Hclick : handle_app launch_success self o app_identifier instances
                     desktop_app = _focus_next_instance o instances).
  { destruct instances; [congruence | reflexivity]. }
  assert (Hlen : List.length instances <> 0)
    by (destruct instances; simpl; congruence).
  rewrite Hclick. split.
  - intros Habsent. destruct instances as [|first rest]; [congruence|].
    exists first. split; [reflexivity|].
    apply (focus_next_by_index o (first :: rest) focused 0 first Hfocused Hne).
    + now rewrite focused_index_absent.
    + now rewrite Nat.Div0.mod_0_l.
  - intros i inst Hnth Haddr Hfirst.
    assert (Hlt : (i + 1) mod List.length instances < List.length instances)
      by now apply Nat.mod_upper_bound.
    destruct (nth_error instances ((i + 1) mod List.length instances))
      as [next|] eqn:Enext.
    + exists next. split; [reflexivity|].
      apply (focus_next_by_index o instances focused (i + 1) next Hfocused Hne);
        [|exact Enext].
      rewrite (focused_index_first focused instances i inst 0%Z
                 Hnth Haddr Hfirst). lia.
    + apply nth_error_None in Enext. lia.
Qed.

Lemma handle_app_cycles_witness :
  let w1 := window "0x1" "kitty" in
  let w2 := window "0x2" "kitty" in
  let self := new_dock false false [] in
  [w1; w2] <> []
  /\ get_focused (Parsed (Some "0x2")) = Ok "0x2"
  /\ handle_app (fun _ => true) self (Parsed (Some "0x2")) (Bare "kitty")
       [w1; w2] None
     = Ok [focus_command w1]
  /\ handle_app (fun _ => true) self (Parsed (Some "0x9")) (Bare "kitty")
       [w1; w2] None
     = Ok [focus_command w1].
Proof.
  intros w1 w2 self.
  assert (Hne : [w1; w2] <> []) by discriminate.
  assert (Hfocused : get_focused (Parsed (Some "0x2")) = Ok "0x2")
    by reflexivity.
  split; [exact Hne|]. split; [exact Hfocused|]. split.
  - destruct (proj2 (handle_app_cycles (fun _ => true) self
                       (Parsed (Some "0x2")) (Bare "kitty") [w1; w2] None
                       "0x2" Hne Hfocused) 1 w2 eq_refl eq_refl)
      as (next & Hnext & Hclick).
    + intros [|j] inst' Hj Hnth; [|lia].
      injection Hnth as <-. discriminate.
    + injection Hnext as <-. exact Hclick.
  - reflexivity.
Defined.

(** C10 fails in the code on an instance list the program builds itself.
    Two windows of one class with a strippable suffix are grouped under
    the normalized key as [w1; w1; w2]: [_build_running_windows] appends
    the whole raw group again at every window. A pass gives that group a
    button, and a click on the button focuses [w1] whatever window has the
    focus: with [w1] focused, which is instance 1 of the list, instance 2
    is not focused, and [w2] is never reached. *)
Theorem click_on_repeated_window_never_advances
    (list_of_set : list string -> list string)
    (launch_success : DesktopApp -> bool) (a1 a2 : string) :
  let w1 := window a1 "foo-gtk" in
  let w2 := window a2 "foo-gtk" in
  let instances := [w1; w1; w2] in
  dict_get "foo" (_build_running_windows [w1; w2]) = Some instances
  /\ nth_error instances 1 = Some w1
  /\ nth_error instances ((1 + 1) mod List.length instances) = Some w2
  /\ (a1 <> a2 -> focus_command w1 <> focus_command w2)
  /\ exists self',
       update_dock list_of_set [] (Parsed [w1; w2]) (new_dock false false [])
       = Ok self'
       /\ children self'
          = [ AppButton {| app_identifier := Bare "foo-gtk";
                           desktop_app := None; instances := [w1; w2] |};
              AppButton {| app_identifier := Bare "foo";
                           desktop_app := None; instances := instances |} ]
       /\ (forall reply,
             handle_app launch_success self' (Parsed reply) (Bare "foo")
               instances None
             = Ok [focus_command w1])
       /\ handle_app launch_success self' Malformed (Bare "foo") instances
            None
          = Ok [focus_command w1].
Proof.
  intros w1 w2 instances.
  split; [reflexivity|]. split; [reflexivity|]. split; [reflexivity|].
  split.
  { intros Hne H. apply Hne. unfold focus_command in H.
    injection H as H. exact H. }
  eexists. split; [vm_compute; reflexivity|]. split; [reflexivity|]. split.
  - intros reply. simpl handle_app. unfold _focus_next_instance.
    set (focused := match reply with Some a => a | None => "" end).
    assert (Hf : get_focused (Parsed reply) = Ok focused) by reflexivity.
    rewrite Hf. cbn [bind instances focused_index address w1 w2 window].
    destruct (String.eqb a1 focused); [reflexivity|].
    destruct (String.eqb a2 focused); reflexivity.
  - simpl handle_app. unfold _focus_next_instance.
    cbn [get_focused try_except send_decode_loads bind is_JSONDecodeError
         instances focused_index address w1 w2 window].
    destruct (String.eqb a1 ""); [reflexivity|].
    destruct (String.eqb a2 ""); reflexivity.
Qed.

(* ================================================================= *)
(** * Further properties of the dock engine *)

(** ** Normalization and window identifiers *)

Lemma substring_prefix_split (x : string) :
  forall m, exists t, x = (substring 0 m x ++ t)%string.
Proof.
  induction x as [|c r IH]; intros m.
  - exists "". destruct m; reflexivity.
  - destruct m as [|m]; simpl.
    + now exists (String c r).
    + destruct (IH m) as (t & Ht). exists t. now rewrite <- Ht.
Qed.

Lemma string_app_assoc (a b c : string) :
  ((a ++ b) ++ c = a ++ (b ++ c))%string.
Proof. induction a as [|x a IH]; simpl; [reflexivity | now rewrite IH]. Qed.

Lemma strip_suffix_prefix (x suffix : string) :
  exists t, x = (strip_suffix x suffix ++ t)%string.
Proof.
  unfold strip_suffix, PyStr.drop_end.
  destruct (PyStr.endswith x suffix).
  - destruct (String.length suffix =? 0); [now exists x|].
    apply substring_prefix_split.
  - exists "". induction x as [|c r IH]; simpl; [reflexivity | now rewrite <- IH].
Qed.

Lemma fold_strip_prefix (l : list string) :
  forall x, exists t, x = (fold_left strip_suffix l x ++ t)%string.
Proof.
  induction l as [|suffix r IH]; intros x; simpl.
  - exists "". induction x as [|c x' IHx]; simpl;
      [reflexivity | now rewrite <- IHx].
  - destruct (IH (strip_suffix x suffix)) as (t1 & H1).
    destruct (strip_suffix_prefix x suffix) as (t2 & H2).
    exists (t1 ++ t2)%string.
    rewrite <- string_app_assoc, <- H1. exact H2.
Qed.

(** X1: the normalized class is a prefix of the lowercased class, so
    normalization only lowercases and cuts at the end: it never changes or
    drops a character in front of what it keeps, and it is never longer
    than the lowercased class. *)
Theorem normalize_is_prefix_of_lower (s : string) :
  (exists t, PyStr.lower s = (_normalize_window_class s ++ t)%string)
  /\ String.length (_normalize_window_class s)
     <= String.length (PyStr.lower s).
Proof.
  rewrite normalize_unfold. split.
  - apply fold_strip_prefix.
  - unfold strip_suffixes.
    apply (fold_strip_length_le suffixes (PyStr.lower s)).
Qed.

Lemma truthy_iff (s : string) : PyStr.truthy s = true <-> s <> "".
Proof.
  unfold PyStr.truthy. destruct (String.eqb s "") eqn:E.
  - apply String.eqb_eq in E. split; [discriminate | congruence].
  - apply String.eqb_neq in E. split; auto.
Qed.

(** X2: [_classes_match] is a partial equivalence: symmetric, transitive,
    and reflexive exactly on the non-empty strings (an empty class matches
    nothing, not even itself). *)
Theorem classes_match_partial_equivalence (a b c : string) :
  _classes_match a b = _classes_match b a
  /\ implb (_classes_match a b && _classes_match b c) (_classes_match a c)
     = true
  /\ _classes_match a a = PyStr.truthy a
  /\ _classes_match "" a = false.
Proof.
  unfold _classes_match. repeat split.
  - destruct (PyStr.truthy a), (PyStr.truthy b); simpl; try reflexivity.
    apply String.eqb_sym.
  - destruct (PyStr.truthy a), (PyStr.truthy b), (PyStr.truthy c); simpl;
      rewrite ?andb_false_r; try reflexivity.
    destruct (String.eqb (_normalize_window_class a)
                (_normalize_window_class b)) eqn:E1; [|reflexivity].
    destruct (String.eqb (_normalize_window_class b)
                (_normalize_window_class c)) eqn:E2; [|reflexivity].
    apply String.eqb_eq in E1, E2. simpl.
    rewrite E1, E2. now rewrite String.eqb_refl.
  - destruct (PyStr.truthy a); simpl; [apply String.eqb_refl | reflexivity].
Qed.

Lemma lower_cons (c : ascii) (r : string) :
  PyStr.lower (String c r) = String c r ->
  PyStr.lower_char c = c /\ PyStr.lower r = r.
Proof. simpl. intros H. injection H as H1 H2. auto. Qed.

Lemma before_first_lower (sep s : string) :
  PyStr.lower s = s ->
  PyStr.lower (PyStr.before_first sep s) = PyStr.before_first sep s.
Proof.
  induction s as [|c r IH]; intros Hs.
  - simpl. destruct sep; reflexivity.
  - destruct (lower_cons c r Hs) as [Hc Hr].
    cbn [PyStr.before_first]. destruct (prefix sep (String c r));
      [reflexivity|].
    simpl. now rewrite Hc, (IH Hr).
Qed.

Lemma lstrip_lower (s : string) :
  PyStr.lower s = s -> PyStr.lower (PyStr.lstrip s) = PyStr.lstrip s.
Proof.
  induction s as [|c r IH]; intros Hs; [reflexivity|].
  destruct (lower_cons c r Hs) as [Hc Hr].
  cbn [PyStr.lstrip]. destruct (PyStr.is_space c); [now apply IH | exact Hs].
Qed.

Lemma rstrip_lower (s : string) :
  PyStr.lower s = s -> PyStr.lower (PyStr.rstrip s) = PyStr.rstrip s.
Proof.
  induction s as [|c r IH]; intros Hs; [reflexivity|].
  destruct (lower_cons c r Hs) as [Hc Hr].
  cbn [PyStr.rstrip].
  destruct (PyStr.is_space c && String.eqb (PyStr.rstrip r) ""); [reflexivity|].
  simpl. now rewrite Hc, (IH Hr).
Qed.

(** X3: every window gets an identifier that is non-empty and in lower
    case, whatever its class and title are (a window with neither gets
    ["unknown-app"]). *)
Theorem extract_window_id_nonempty_lowercase (client : Client) :
  _extract_window_id client <> ""
  /\ PyStr.lower (_extract_window_id client) = _extract_window_id client.
Proof.
  unfold _extract_window_id.
  destruct (PyStr.truthy (PyStr.lower (initialClass client))) eqn:E1.
  { split; [now apply truthy_iff | apply lower_idem]. }
  destruct (PyStr.truthy (PyStr.lower (class client))) eqn:E2.
  { split; [now apply truthy_iff | apply lower_idem]. }
  destruct (PyStr.truthy (PyStr.lower (title client))) eqn:E3.
  - destruct (PyStr.truthy _ && _) eqn:E4.
    + apply andb_true_iff in E4. destruct E4 as [E4 _].
      split; [now apply truthy_iff|].
      unfold PyStr.strip.
      apply rstrip_lower, lstrip_lower, before_first_lower, lower_idem.
    + split; [now apply truthy_iff | apply lower_idem].
  - split; [discriminate | reflexivity].
Qed.

(** ** The window grouping *)

Lemma dict_get_in_keys (V : Type) (k : string) (d : list (string * V)) :
  dict_mem k d = true <-> In k (dict_keys d).
Proof.
  unfold dict_mem, dict_keys. induction d as [|[k0 v] r IH]; simpl.
  - split; [discriminate | contradiction].
  - destruct (String.eqb k k0) eqn:E.
    + apply String.eqb_eq in E. subst. split; auto.
    + apply String.eqb_neq in E. rewrite IH. split; [auto|].
      intros [H | H]; [congruence | exact H].
Qed.

Lemma setdefault_extend_keys (k : string) (vs : list Client)
    (d : list (string * list Client)) :
  dict_keys (setdefault_extend k vs d)
  = if dict_mem k d then dict_keys d else dict_keys d ++ [k].
Proof.
  unfold dict_mem, dict_keys. induction d as [|[k0 g] r IH]; simpl;
    [reflexivity|].
  destruct (String.eqb k k0) eqn:E; simpl.
  - apply String.eqb_eq in E. now subst.
  - rewrite IH. now destruct (dict_get k r).
Qed.

Lemma setdefault_extend_nodup (k : string) (vs : list Client)
    (d : list (string * list Client)) :
  NoDup (dict_keys d) -> NoDup (dict_keys (setdefault_extend k vs d)).
Proof.
  intros Hd. rewrite setdefault_extend_keys.
  destruct (dict_mem k d) eqn:E; [exact Hd|].
  apply NoDup_app; [exact Hd | repeat constructor; auto |].
  intros x Hx [<- | []].
  apply dict_get_in_keys in Hx. congruence.
Qed.

Lemma setdefault_extend_entries (k : string) (vs : list Client)
    (d : list (string * list Client)) (k' : string) (g' : list Client) :
  In (k', g') (setdefault_extend k vs d) ->
  In (k', g') d
  \/ (k' = k /\ exists g, g' = g ++ vs /\ (g = [] \/ In (k, g) d)).
Proof.
  induction d as [|[k0 g0] r IH]; simpl.
  - intros [[= <- <-] | []]. right. split; [reflexivity|].
    exists []. auto.
  - destruct (String.eqb k k0) eqn:E.
    + apply String.eqb_eq in E. subst k0. intros [[= <- <-] | Hin].
      * right. split; [reflexivity|]. exists g0. auto.
      * left. now right.
    + intros [[= <- <-] | Hin]; [left; now left|].
      destruct (IH Hin) as [H | (-> & g & -> & [-> | Hg])].
      * left. now right.
      * right. split; [reflexivity|]. exists []. auto.
      * right. split; [reflexivity|]. exists g. auto.
Qed.

Lemma group_of_in (k : string) (d : list (string * list Client))
    (c : Client) :
  In c (group_of k d) -> exists g, In (k, g) d /\ In c g.
Proof.
  unfold group_of. induction d as [|[k0 g0] r IH]; simpl; [contradiction|].
  destruct (String.eqb k k0) eqn:E.
  - apply String.eqb_eq in E. subst. intros H. exists g0. auto.
  - intros H. destruct (IH H) as (g & Hg & Hc). exists g. auto.
Qed.

(** What [_build_running_windows] keeps true of the grouping while it
    goes through the clients in [seen]. *)
Lemma add_window_well_formed (seen : list Client)
    (rw : list (string * list Client)) (c0 : Client) :
  NoDup (dict_keys rw)
  /\ (forall k g, In (k, g) rw -> g <> [] /\ forall c, In c g -> In c seen) ->
  NoDup (dict_keys (add_window rw c0))
  /\ (forall k g, In (k, g) (add_window rw c0) ->
                  g <> [] /\ forall c, In c g -> In c (seen ++ [c0])).
Proof.
  intros [Hnd Hgroups]. unfold add_window.
  set (w := _extract_window_id c0).
  set (rw1 := setdefault_extend w [c0] rw).
  assert (H1 : NoDup (dict_keys rw1)
               /\ forall k g, In (k, g) rw1 ->
                   g <> [] /\ forall c, In c g -> In c (seen ++ [c0])).
  { split; [now apply setdefault_extend_nodup|].
    intros k g Hin.
    destruct (setdefault_extend_entries _ _ _ _ _ Hin)
      as [Hold | (-> & g0 & -> & Hg0)].
    - destruct (Hgroups k g Hold) as [Hne Hmem]. split; [exact Hne|].
      intros c Hc. apply in_or_app. left. now apply Hmem.
    - split; [destruct g0; discriminate|].
      intros c Hc. apply in_app_or in Hc. apply in_or_app.
      destruct Hc as [Hc | [<- | []]]; [left | right; now left].
      destruct Hg0 as [-> | Hg0]; [contradiction|].
      exact (proj2 (Hgroups w g0 Hg0) c Hc). }
  destruct (negb _); [|exact H1].
  destruct H1 as [Hnd1 Hgroups1]. split; [now apply setdefault_extend_nodup|].
  intros k g Hin.
  destruct (setdefault_extend_entries _ _ _ _ _ Hin)
    as [Hold | (-> & g0 & -> & Hg0)]; [exact (Hgroups1 k g Hold)|].
  assert (Hraw : In c0 (group_of w rw1)).
  { unfold rw1. rewrite group_of_setdefault_extend, String.eqb_refl.
    apply in_or_app. right. now left. }
  split.
  - intros Happ. apply app_eq_nil in Happ. destruct Happ as [_ Happ].
    rewrite Happ in Hraw. contradiction.
  - intros c Hc. apply in_app_or in Hc. destruct Hc as [Hc | Hc].
    + destruct Hg0 as [-> | Hg0]; [contradiction|].
      exact (proj2 (Hgroups1 _ g0 Hg0) c Hc).
    + destruct (group_of_in _ _ _ Hc) as (g1 & Hg1 & Hc1).
      exact (proj2 (Hgroups1 w g1 Hg1) c Hc1).
Qed.

Lemma build_running_windows_well_formed (clients : list Client) :
  forall (seen : list Client) (rw : list (string * list Client)),
    NoDup (dict_keys rw)
    /\ (forall k g, In (k, g) rw -> g <> [] /\ forall c, In c g -> In c seen) ->
    NoDup (dict_keys (fold_left add_window clients rw))
    /\ (forall k g, In (k, g) (fold_left add_window clients rw) ->
                    g <> [] /\ forall c, In c g -> In c (seen ++ clients)).
Proof.
  induction clients as [|c0 rest IH]; intros seen rw Hinv; simpl.
  - now rewrite app_nil_r.
  - replace (seen ++ c0 :: rest) with ((seen ++ [c0]) ++ rest)
      by now rewrite <- app_assoc.
    apply IH. now apply add_window_well_formed.
Qed.

Lemma running_windows_keys_nodup (clients : list Client) :
  NoDup (dict_keys (_build_running_windows clients)).
Proof.
  apply (build_running_windows_well_formed clients [] []).
  split; [constructor | intros k g []].
Qed.

(** X4: the grouping is a well-formed dict of live windows: its keys are
    pairwise distinct, no group is empty, and every window in a group is
    one of the clients the compositor reported. *)
Theorem running_windows_well_formed (clients : list Client) :
  let running_windows := _build_running_windows clients in
  NoDup (dict_keys running_windows)
  /\ forall k g, In (k, g) running_windows ->
                 g <> [] /\ forall c, In c g -> In c clients.
Proof.
  apply (build_running_windows_well_formed clients [] []).
  split; [constructor | intros k g []].
Qed.

Lemma add_window_normal (rw : list (string * list Client)) (c : Client) :
  _normalize_window_class (_extract_window_id c) = _extract_window_id c ->
  add_window rw c = setdefault_extend (_extract_window_id c) [c] rw.
Proof. intros H. unfold add_window. now rewrite H, String.eqb_refl. Qed.

Lemma build_running_windows_normal (clients : list Client) :
  (forall c, In c clients ->
     _normalize_window_class (_extract_window_id c) = _extract_window_id c) ->
  forall (rw : list (string * list Client)) (k : string),
    group_of k (fold_left add_window clients rw)
    = group_of k rw
      ++ filter (fun c => String.eqb k (_extract_window_id c)) clients.
Proof.
  induction clients as [|c0 rest IH]; intros Hnormal rw k; simpl.
  - now rewrite app_nil_r.
  - rewrite IH by (intros c Hc; apply Hnormal; now right).
    rewrite add_window_normal by (apply Hnormal; now left).
    rewrite group_of_setdefault_extend.
    destruct (String.eqb k (_extract_window_id c0)); simpl;
      [now rewrite <- app_assoc | reflexivity].
Qed.

(** X5: when no window identifier carries a strippable suffix, the
    grouping is the plain partition by identifier: the group under a key
    lists exactly the windows with that identifier, each once, in the
    order of the client list. *)
Theorem running_windows_partition (clients : list Client) (k : string) :
  (forall c, In c clients ->
     _normalize_window_class (_extract_window_id c) = _extract_window_id c) ->
  group_of k (_build_running_windows clients)
  = filter (fun c => String.eqb k (_extract_window_id c)) clients.
Proof.
  intros Hnormal.
  apply (build_running_windows_normal clients Hnormal [] k).
Qed.

Lemma running_windows_partition_witness :
  let w1 := window "0x1" "kitty" in
  let w2 := window "0x2" "firefox" in
  let w3 := window "0x3" "Kitty" in
  (forall c, In c [w1; w2; w3] ->
     _normalize_window_class (_extract_window_id c) = _extract_window_id c)
  /\ group_of "kitty" (_build_running_windows [w1; w2; w3]) = [w1; w3].
Proof.
  intros w1 w2 w3.
  assert (Hnormal : forall c, In c [w1; w2; w3] ->
            _normalize_window_class (_extract_window_id c)
            = _extract_window_id c).
  { intros c [<- | [<- | [<- | []]]]; reflexivity. }
  split; [exact Hnormal|].
  exact (running_windows_partition [w1; w2; w3] "kitty" Hnormal).
Defined.

(** ** The identifier index *)

Lemma split_ws_nil_iff (s : string) :
  PyStr.split_ws s = [] <-> all_space s = true.
Proof.
  induction s as [|c r IH]; [simpl; tauto|].
  cbn [PyStr.split_ws all_space].
  destruct (PyStr.is_space c); simpl; [exact IH|].
  split; [|discriminate].
  destruct r as [|c' r']; [discriminate|].
  destruct (PyStr.is_space c'); [discriminate|].
  destruct (PyStr.split_ws (String c' r')); discriminate.
Qed.

Lemma register_app_outcome (ids : list (string * DesktopApp))
    (app : DesktopApp) :
  if has_blank_command_line app
  then register_app ids app = Raise IndexError
  else exists ids', register_app ids app = Ok ids'.
Proof.
  unfold has_blank_command_line, register_app, first_token.
  destruct (command_line app) as [s|]; [|eexists; reflexivity].
  destruct (PyStr.truthy s); simpl; [|eexists; reflexivity].
  destruct (all_space s) eqn:E.
  - apply split_ws_nil_iff in E. now rewrite E.
  - destruct (PyStr.split_ws s) eqn:Es.
    + apply split_ws_nil_iff in Es. congruence.
    + eexists. reflexivity.
Qed.

Lemma register_apps_outcome (apps : list DesktopApp) :
  forall ids,
    if existsb has_blank_command_line apps
    then register_apps ids apps = Raise IndexError
    else exists ids', register_apps ids apps = Ok ids'.
Proof.
  induction apps as [|app rest IH]; intros ids; simpl.
  - eexists. reflexivity.
  - pose proof (register_app_outcome ids app) as Happ.
    destruct (has_blank_command_line app); simpl.
    + now rewrite Happ.
    + destruct Happ as (ids1 & ->). simpl. apply IH.
Qed.

(** X6: building the identifier index fails exactly when some installed
    application has a command line that is non-empty but blank: then
    [command_line.split()[0]] raises [IndexError], and so does every
    [update_dock]; otherwise the index is built. *)
Theorem build_index_fails_on_blank_command_line
    (list_of_set : list string -> list string) (all_apps : list DesktopApp)
    (o : IpcOutcome (list Client)) (self : Dock) :
  if existsb has_blank_command_line all_apps
  then _build_app_identifiers_map all_apps = Raise IndexError
       /\ update_dock list_of_set all_apps o self = Raise IndexError
  else exists identifiers refreshed,
         _build_app_identifiers_map all_apps = Ok identifiers
         /\ update_app_map all_apps self = Ok refreshed
         /\ app_identifiers refreshed = identifiers
         /\ _all_apps refreshed = all_apps.
Proof.
  pose proof (register_apps_outcome all_apps []) as H.
  unfold update_dock, update_app_map, _build_app_identifiers_map.
  destruct (existsb has_blank_command_line all_apps).
  - rewrite H. split; reflexivity.
  - destruct H as (ids & ->). simpl. exists ids. eexists.
    repeat split.
Qed.

Lemma dict_get_set (V : Type) (k k0 : string) (v : V)
    (d : list (string * V)) :
  dict_get k (dict_set k0 v d)
  = if String.eqb k k0 then Some v else dict_get k d.
Proof.
  induction d as [|[k1 v1] r IH]; simpl.
  - reflexivity.
  - destruct (String.eqb k0 k1) eqn:E0; simpl.
    + apply String.eqb_eq in E0. subst k1.
      destruct (String.eqb k k0); reflexivity.
    + destruct (String.eqb k k1) eqn:E1.
      * apply String.eqb_eq in E1. subst k1.
        rewrite String.eqb_sym in E0. now rewrite E0.
      * exact IH.
Qed.

Lemma index_sound_set (ids : list (string * DesktopApp))
    (apps : list DesktopApp) (k0 : string) (app : DesktopApp) :
  index_sound ids apps -> In app apps ->
  index_sound (dict_set k0 app ids) apps.
Proof.
  intros Hs Hin k a. rewrite dict_get_set.
  destruct (String.eqb k k0); [now intros [= <-] | apply Hs].
Qed.

(** The conditional registration of one attribute, as in [register_app]. *)
Lemma index_sound_reg (ids : list (string * DesktopApp))
    (apps : list DesktopApp) (app : DesktopApp) (attr : option string)
    (f : string -> string) :
  index_sound ids apps -> In app apps ->
  index_sound
    match attr with
    | Some s => if PyStr.truthy s then dict_set (f s) app ids else ids
    | None => ids
    end apps.
Proof.
  intros Hs Hin. destruct attr as [s|]; [|exact Hs].
  destruct (PyStr.truthy s); [now apply index_sound_set | exact Hs].
Qed.

Lemma register_app_sound (ids ids' : list (string * DesktopApp))
    (apps : list DesktopApp) (app : DesktopApp) :
  register_app ids app = Ok ids' ->
  index_sound ids apps -> In app apps -> index_sound ids' apps.
Proof.
  unfold register_app. intros Hreg Hs Hin.
  pose proof (index_sound_reg _ apps app (executable app)
                (fun s => PyStr.lower (PyStr.basename s))
                (index_sound_reg _ apps app (window_class app) PyStr.lower
                   (index_sound_reg _ apps app (display_name app) PyStr.lower
                      (index_sound_reg _ apps app (name app) PyStr.lower
                         Hs Hin) Hin) Hin) Hin) as H4.
  destruct (command_line app) as [s|]; [|now injection Hreg as <-].
  destruct (PyStr.truthy s); [|now injection Hreg as <-].
  destruct (first_token s) as [tok|]; [|discriminate].
  simpl in Hreg. injection Hreg as <-. now apply index_sound_set.
Qed.

Lemma register_apps_sound (apps : list DesktopApp) :
  forall (ids ids' : list (string * DesktopApp)) (all : list DesktopApp),
    register_apps ids apps = Ok ids' ->
    index_sound ids all -> incl apps all -> index_sound ids' all.
Proof.
  induction apps as [|app rest IH]; intros ids ids' all Hreg Hs Hincl;
    simpl in Hreg.
  - now injection Hreg as <-.
  - destruct (register_app ids app) as [ids1|] eqn:E; [|discriminate].
    simpl in Hreg. apply (IH ids1 ids' all Hreg).
    + apply (register_app_sound ids ids1 all app E Hs).
      apply Hincl. now left.
    + intros a Ha. apply Hincl. now right.
Qed.

Lemma update_app_map_sound (all_apps : list DesktopApp)
    (self refreshed : Dock) :
  update_app_map all_apps self = Ok refreshed ->
  _all_apps refreshed = all_apps
  /\ index_sound (app_identifiers refreshed) all_apps.
Proof.
  unfold update_app_map, _build_app_identifiers_map.
  destruct (register_apps [] all_apps) as [ids|] eqn:E; [|discriminate].
  simpl. intros [= <-]. simpl. split; [reflexivity|].
  apply (register_apps_sound all_apps [] ids all_apps E).
  - intros k a H. discriminate.
  - apply incl_refl.
Qed.

Lemma find_app_by_key_sound (self : Dock) (key : string) (app : DesktopApp) :
  index_sound (app_identifiers self) (_all_apps self) ->
  find_app_by_key self key = Some app -> In app (_all_apps self).
Proof.
  intros Hs. unfold find_app_by_key, exact_match, fuzzy_match.
  destruct (negb (PyStr.truthy key)); [discriminate|].
  destruct (dict_get (PyStr.lower key) (app_identifiers self)) as [a|] eqn:E.
  - intros [= <-]. now apply (Hs _ _ E).
  - intros H. now apply find_some in H.
Qed.

Lemma find_app_in_dict_sound (self : Dock)
    (d : list (string * option string)) (app : DesktopApp)
    (keys : list string) :
  index_sound (app_identifiers self) (_all_apps self) ->
  find_app_in_dict self d keys = Some app -> In app (_all_apps self).
Proof.
  intros Hs. induction keys as [|key rest IH]; simpl; [discriminate|].
  destruct (truthy_item key d) as [v|]; [|exact IH].
  destruct (find_app_by_key self v) as [a|] eqn:E; [|exact IH].
  intros [= <-]. now apply (find_app_by_key_sound self v).
Qed.

Lemma find_app_sound (self : Dock) (app_id : AppId) (app : DesktopApp) :
  index_sound (app_identifiers self) (_all_apps self) ->
  find_app self app_id = Some app -> In app (_all_apps self).
Proof.
  intros Hs. destruct app_id as [s|[|kv d']].
  - now apply find_app_by_key_sound.
  - discriminate.
  - now apply find_app_in_dict_sound.
Qed.

(** X7: after the catalog is refreshed, resolution only ever answers with
    an application of the current catalog, for a bare string as for a
    structured record, by the index as by the substring scan. *)
Theorem resolution_stays_in_catalog (all_apps : list DesktopApp)
    (self refreshed : Dock) (app_id : AppId) (app : DesktopApp) :
  update_app_map all_apps self = Ok refreshed ->
  find_app refreshed app_id = Some app ->
  In app all_apps.
Proof.
  intros Hmap Hfind.
  destruct (update_app_map_sound all_apps self refreshed Hmap) as [Hall Hs].
  rewrite <- Hall. apply (find_app_sound refreshed app_id app); [|exact Hfind].
  now rewrite Hall.
Qed.

Lemma resolution_stays_in_catalog_witness :
  let firefox := app_named "firefox" in
  let kitty := app_named "kitty" in
  let self := new_dock false false [] in
  exists refreshed,
    update_app_map [firefox; kitty] self = Ok refreshed
    /\ find_app refreshed (Bare "KITTY") = Some kitty
    /\ In kitty [firefox; kitty].
Proof.
  intros firefox kitty self. eexists.
  split; [reflexivity|]. split; [reflexivity|].
  exact (resolution_stays_in_catalog [firefox; kitty] self _ (Bare "KITTY")
           kitty eq_refl eq_refl).
Defined.

Lemma dict_mem_set (V : Type) (k k0 : string) (v : V)
    (d : list (string * V)) :
  dict_mem k (dict_set k0 v d) = String.eqb k k0 || dict_mem k d.
Proof.
  unfold dict_mem. rewrite dict_get_set. now destruct (String.eqb k k0).
Qed.

Lemma reg_keeps_keys (ids : list (string * DesktopApp)) (app : DesktopApp)
    (attr : option string) (f : string -> string) (k : string) :
  dict_mem k ids = true ->
  dict_mem k
    match attr with
    | Some s => if PyStr.truthy s then dict_set (f s) app ids else ids
    | None => ids
    end = true.
Proof.
  intros H. destruct attr as [s|]; [|exact H].
  destruct (PyStr.truthy s); [|exact H].
  rewrite dict_mem_set, H. apply orb_true_r.
Qed.

Lemma reg_adds_key (ids : list (string * DesktopApp)) (app : DesktopApp)
    (f : string -> string) (n : string) :
  n <> "" ->
  dict_mem (f n)
    (if PyStr.truthy n then dict_set (f n) app ids else ids) = true.
Proof.
  intros Hn. apply truthy_iff in Hn. rewrite Hn.
  now rewrite dict_mem_set, String.eqb_refl.
Qed.

Lemma register_app_keys (ids ids' : list (string * DesktopApp))
    (app : DesktopApp) (k : string) :
  register_app ids app = Ok ids' ->
  dict_mem k ids = true
  \/ (exists n, n <> "" /\ k = PyStr.lower n
                /\ (name app = Some n \/ display_name app = Some n
                    \/ window_class app = Some n)) ->
  dict_mem k ids' = true.
Proof.
  unfold register_app. intros Hreg Hk.
  match type of Hreg with
  | match _ with Some _ => _ | None => Ok ?i4 end = _ =>
      assert (H4 : dict_mem k i4 = true)
  end.
  { destruct Hk as [Hk | (n & Hn & -> & [E | [E | E]])].
    - now repeat apply reg_keeps_keys.
    - do 3 apply reg_keeps_keys. rewrite E. now apply reg_adds_key.
    - do 2 apply reg_keeps_keys. rewrite E. now apply reg_adds_key.
    - apply reg_keeps_keys. rewrite E. now apply reg_adds_key. }
  destruct (command_line app) as [s|]; [|now injection Hreg as <-].
  destruct (PyStr.truthy s); [|now injection Hreg as <-].
  destruct (first_token s) as [tok|]; [|discriminate].
  simpl in Hreg. injection Hreg as <-.
  rewrite dict_mem_set, H4. apply orb_true_r.
Qed.

Lemma register_apps_keys (apps : list DesktopApp) :
  forall (ids ids' : list (string * DesktopApp)) (k : string),
    register_apps ids apps = Ok ids' ->
    dict_mem k ids = true
    \/ (exists app n, In app apps /\ n <> "" /\ k = PyStr.lower n
                      /\ (name app = Some n \/ display_name app = Some n
                          \/ window_class app = Some n)) ->
    dict_mem k ids' = true.
Proof.
  induction apps as [|app rest IH]; intros ids ids' k Hreg Hk;
    simpl in Hreg.
  - injection Hreg as <-.
    destruct Hk as [Hk | (app & n & [] & _)]. exact Hk.
  - destruct (register_app ids app) as [ids1|] eqn:E; [|discriminate].
    simpl in Hreg. apply (IH ids1 ids' k Hreg).
    destruct Hk as [Hk | (a & n & [<- | Hin] & Hn & Hkn & Hattr)].
    + left. apply (register_app_keys ids ids1 app k E). now left.
    + left. apply (register_app_keys ids ids1 app k E). right.
      now exists n.
    + right. now exists a, n.
Qed.

Lemma reg_get (ids : list (string * DesktopApp)) (app : DesktopApp)
    (attr : option string) (f : string -> string) (k : string) :
  dict_get k
    match attr with
    | Some s => if PyStr.truthy s then dict_set (f s) app ids else ids
    | None => ids
    end
  = if registered_as k f attr then Some app else dict_get k ids.
Proof.
  destruct attr as [s|]; [|reflexivity]. simpl.
  destruct (PyStr.truthy s); [|reflexivity]. simpl. apply dict_get_set.
Qed.

Lemma register_app_get (ids ids' : list (string * DesktopApp))
    (app : DesktopApp) (k : string) :
  register_app ids app = Ok ids' ->
  dict_get k ids' = if registers k app then Some app else dict_get k ids.
Proof.
  unfold register_app, registers, first_token. intros Hreg.
  match type of Hreg with
  | match _ with Some _ => _ | None => Ok ?i4 end = _ =>
      assert (H4 : dict_get k i4
                   = if registered_as k PyStr.lower (name app)
                        || registered_as k PyStr.lower (display_name app)
                        || registered_as k PyStr.lower (window_class app)
                        || registered_as k
                             (fun s => PyStr.lower (PyStr.basename s))
                             (executable app)
                     then Some app else dict_get k ids)
  end.
  { rewrite !reg_get.
    destruct (registered_as k PyStr.lower (name app)),
      (registered_as k PyStr.lower (display_name app)),
      (registered_as k PyStr.lower (window_class app)),
      (registered_as k (fun s => PyStr.lower (PyStr.basename s))
         (executable app)); reflexivity. }
  destruct (command_line app) as [s|];
    [|injection Hreg as <-; now rewrite orb_false_r].
  destruct (PyStr.truthy s);
    [|injection Hreg as <-; now rewrite orb_false_r].
  destruct (PyStr.split_ws s) as [|tok toks]; [discriminate|].
  simpl in Hreg. injection Hreg as <-. rewrite dict_get_set, H4. simpl.
  destruct (String.eqb k (PyStr.lower (PyStr.basename tok)));
    [now rewrite orb_true_r | now rewrite orb_false_r].
Qed.

(** The exact index holds under every key the last application of the
    catalog that the loop stores under it. *)
Lemma register_apps_get (apps : list DesktopApp) (k : string) :
  forall ids ids',
    register_apps ids apps = Ok ids' ->
    dict_get k ids' = last_registered k apps (dict_get k ids).
Proof.
  induction apps as [|app rest IH]; intros ids ids' Hreg; simpl in Hreg.
  - now injection Hreg as <-.
  - destruct (register_app ids app) as [ids1|] eqn:E; [|discriminate].
    simpl in Hreg. rewrite (IH ids1 ids' Hreg).
    now rewrite (register_app_get ids ids1 app k E).
Qed.

Lemma last_registered_cases (k : string) (apps : list DesktopApp) :
  forall earlier,
    (last_registered k apps earlier = earlier
     /\ forall a, In a apps -> registers k a = false)
    \/ exists found before after,
         last_registered k apps earlier = Some found
         /\ apps = before ++ found :: after
         /\ registers k found = true
         /\ forall later, In later after -> registers k later = false.
Proof.
  induction apps as [|app rest IH]; intros earlier; simpl.
  - left. split; [reflexivity | contradiction].
  - destruct (registers k app) eqn:E.
    + right.
      destruct (IH (Some app))
        as [[Hsame Hnone] | (found & before & after & Hl & -> & Hr & Ha)].
      * exists app, [], rest. rewrite Hsame. repeat split; assumption.
      * exists found, (app :: before), after. repeat split; assumption.
    + destruct (IH earlier)
        as [[Hsame Hnone] | (found & before & after & Hl & -> & Hr & Ha)].
      * left. split; [exact Hsame|].
        intros a [<- | Hin]; [exact E | now apply Hnone].
      * right. exists found, (app :: before), after.
        repeat split; assumption.
Qed.

Lemma lower_nonempty (s : string) : s <> "" -> PyStr.lower s <> "".
Proof. destruct s; [congruence | discriminate]. Qed.

(** X8: every installed application is found through the exact index by
    its name, its display name or its window class, in any letter case.
    The answer is the last application of the catalog that the index loop
    stores under that key: it is registered under the key, and no
    application after it in the catalog is. *)
Theorem installed_app_found_by_its_names (all_apps : list DesktopApp)
    (self refreshed : Dock) (app : DesktopApp) (n key : string) :
  update_app_map all_apps self = Ok refreshed ->
  In app all_apps ->
  name app = Some n \/ display_name app = Some n \/ window_class app = Some n ->
  n <> "" ->
  PyStr.lower key = PyStr.lower n ->
  exists found before after,
    find_app refreshed (Bare key) = Some found
    /\ exact_match (app_identifiers refreshed) (PyStr.lower n) = Some found
    /\ all_apps = before ++ found :: after
    /\ registers (PyStr.lower n) found = true
    /\ forall later, In later after -> registers (PyStr.lower n) later = false.
Proof.
  intros Hmap Hin Hattr Hn Hkey.
  assert (Hidx : dict_get (PyStr.lower n) (app_identifiers refreshed)
                 = last_registered (PyStr.lower n) all_apps None).
  { unfold update_app_map, _build_app_identifiers_map in Hmap.
    destruct (register_apps [] all_apps) as [ids|] eqn:E; [|discriminate].
    simpl in Hmap. injection Hmap as <-. simpl.
    apply (register_apps_get all_apps (PyStr.lower n) [] ids E). }
  assert (Happ : registers (PyStr.lower n) app = true).
  { assert (Ht : PyStr.truthy n = true) by now apply truthy_iff.
    unfold registers, registered_as.
    destruct Hattr as [-> | [-> | ->]];
      rewrite Ht, String.eqb_refl; simpl; now rewrite ?orb_true_r. }
  destruct (last_registered_cases (PyStr.lower n) all_apps None)
    as [[_ Hnone] | (found & before & after & Hl & Hsplit & Hr & Ha)].
  { rewrite (Hnone app Hin) in Happ. discriminate. }
  exists found, before, after.
  rewrite Hl in Hidx.
  split; [|split; [exact Hidx | split; [exact Hsplit | split; assumption]]].
  simpl. unfold find_app_by_key, exact_match.
  assert (Hk : PyStr.truthy key = true).
  { apply truthy_iff. intros ->. simpl in Hkey.
    now apply (lower_nonempty n Hn). }
  now rewrite Hk, Hkey, Hidx.
Qed.

Lemma installed_app_found_by_its_names_witness :
  let code :=
    {| name := Some "code"; display_name := Some "Visual Studio Code";
       window_class := Some "Code"; executable := Some "/usr/bin/code";
       command_line := Some "/usr/bin/code %F";
       get_icon_pixbuf := true |} in
  let self := new_dock false false [] in
  exists refreshed,
    update_app_map [app_named "kitty"; code] self = Ok refreshed
    /\ In code [app_named "kitty"; code]
    /\ display_name code = Some "Visual Studio Code"
    /\ "Visual Studio Code" <> ""
    /\ PyStr.lower "VISUAL studio code" = PyStr.lower "Visual Studio Code"
    /\ exists found before after,
         find_app refreshed (Bare "VISUAL studio code") = Some found
         /\ [app_named "kitty"; code] = before ++ found :: after
         /\ forall later, In later after ->
                          registers "visual studio code" later = false.
Proof.
  intros code self. eexists.
  split; [reflexivity|].
  assert (Hin : In code [app_named "kitty"; code]) by (simpl; auto).
  assert (Hn : "Visual Studio Code" <> "") by discriminate.
  repeat (split; [first [assumption | reflexivity]|]).
  destruct (installed_app_found_by_its_names [app_named "kitty"; code] self _
              code "Visual Studio Code" "VISUAL studio code" eq_refl Hin
              (or_intror (or_introl eq_refl)) Hn eq_refl)
    as (found & before & after & Hfind & _ & Hsplit & _ & Hlater).
  exists found, before, after.
  split; [exact Hfind | split; [exact Hsplit | exact Hlater]].
Defined.

(** ** Matching pinned records against the grouping *)

Lemma nodup_keys_dict_get (V : Type) (d : list (string * V)) (k : string)
    (v : V) :
  NoDup (dict_keys d) -> In (k, v) d -> dict_get k d = Some v.
Proof.
  unfold dict_keys. induction d as [|[k0 v0] r IH]; simpl;
    [contradiction|].
  intros Hnd Hin. inversion Hnd as [|? ? Hnotin Hnd']. subst.
  destruct Hin as [[= -> ->] | Hin].
  - now rewrite String.eqb_refl.
  - destruct (String.eqb k k0) eqn:E; [|now apply IH].
    apply String.eqb_eq in E. subst k0. exfalso. apply Hnotin.
    apply in_map_iff. now exists (k, v).
Qed.

Lemma match_identifiers_sound (ids : list string)
    (rw : list (string * list Client)) :
  NoDup (dict_keys rw) ->
  match snd (match_identifiers ids rw) with
  | Some k => dict_get k rw = Some (fst (match_identifiers ids rw))
  | None => fst (match_identifiers ids rw) = []
  end.
Proof.
  intros Hnd. induction ids as [|identifier rest IH]; [reflexivity|].
  cbn [match_identifiers].
  destruct (dict_get identifier rw) as [g|] eqn:E1; [exact E1|].
  destruct (dict_get (_normalize_window_class identifier) rw) as [g|] eqn:E2;
    [exact E2|].
  destruct (3 <=? String.length identifier); [|exact IH].
  destruct (fuzzy_group identifier rw) as [[wc g]|] eqn:E3; [|exact IH].
  simpl. unfold fuzzy_group in E3. apply find_some in E3.
  now apply nodup_keys_dict_get.
Qed.

(** X9: in a reconciliation pass the instances of a pinned button are
    always one whole group of the grouping, the one stored under the key
    the record matched, and they are empty when it matched no key: a
    pinned button never carries a mixture or a part of groups. *)
Theorem pinned_instances_are_one_group
    (list_of_set : list string -> list string) (self : Dock)
    (app_data : AppId) (clients : list Client) :
  let running_windows := _build_running_windows clients in
  let found := _find_instances_for_app list_of_set self app_data
                 running_windows in
  match snd found with
  | Some matched_class => dict_get matched_class running_windows
                          = Some (fst found)
  | None => fst found = []
  end.
Proof.
  apply match_identifiers_sound, running_windows_keys_nodup.
Qed.

Lemma fuzzy_group_none (identifier : string)
    (rw : list (string * list Client)) :
  fuzzy_group identifier rw = None
  <-> existsb (PyStr.contains identifier) (dict_keys rw) = false.
Proof.
  unfold fuzzy_group, dict_keys. induction rw as [|[k g] r IH]; simpl.
  - tauto.
  - destruct (PyStr.contains identifier k); simpl; [|exact IH].
    split; discriminate.
Qed.

Lemma match_identifiers_none (ids : list string)
    (rw : list (string * list Client)) :
  snd (match_identifiers ids rw) = None
  <-> forall identifier, In identifier ids ->
                         identifier_matches identifier rw = false.
Proof.
  induction ids as [|identifier rest IH].
  - simpl. split; [intros _ x [] | reflexivity].
  - cbn [match_identifiers].
    assert (Hsplit : (forall x, In x (identifier :: rest) ->
                                identifier_matches x rw = false)
                     <-> identifier_matches identifier rw = false
                         /\ forall x, In x rest ->
                                      identifier_matches x rw = false).
    { split.
      - intros H. split; [apply H; now left | intros x Hx; apply H; now right].
      - intros [H1 H2] x [<- | Hx]; auto. }
    rewrite Hsplit, <- IH. unfold identifier_matches, dict_mem.
    set (long := 3 <=? String.length identifier).
    destruct (dict_get identifier rw) as [g|]; cbn [orb snd];
      [split; [discriminate | intros [H _]; discriminate]|].
    destruct (dict_get (_normalize_window_class identifier) rw) as [g|];
      cbn [orb snd]; [split; [discriminate | intros [H _]; discriminate]|].
    destruct long; cbn [andb];
      [|split; [intros H; now split | now intros [_ H]]].
    destruct (fuzzy_group identifier rw) as [[wc g]|] eqn:E.
    + cbn [snd]. split; [discriminate|]. intros [H _].
      apply fuzzy_group_none in H. congruence.
    + apply fuzzy_group_none in E. rewrite E.
      split; [intros H; now split | now intros [_ H]].
Qed.

Lemma first_occurrences_in (xs : list string) (x : string) :
  In x (first_occurrences xs) <-> In x xs.
Proof.
  induction xs as [|y r IH]; simpl; [tauto|].
  rewrite filter_In, IH. split.
  - intros [H | [H _]]; auto.
  - intros [H | H]; [now left|].
    destruct (String.eqb y x) eqn:E.
    + apply String.eqb_eq in E. now left.
    + right. split; [exact H | reflexivity].
Qed.

(** X10: whether a pinned record finds running instances does not depend
    on the order in which the set of its candidate identifiers is gone
    through: it finds none exactly when none of the candidates matches a
    group by its own key, by its normalized form or, for a candidate of
    three characters or more, as a substring of a key. *)
Theorem no_instances_iff_no_candidate_matches
    (list_of_set : list string -> list string) (self : Dock)
    (app_data : AppId) (running_windows : list (string * list Client)) :
  (forall xs x, In x (list_of_set xs) <-> In x xs) ->
  snd (_find_instances_for_app list_of_set self app_data running_windows)
  = None
  <-> forall identifier,
        In identifier
          (collected_identifiers app_data (find_app self app_data)) ->
        identifier_matches identifier running_windows = false.
Proof.
  intros Hset. unfold _find_instances_for_app, _get_possible_identifiers.
  rewrite match_identifiers_none. split; intros H x Hx; apply H;
    now apply Hset.
Qed.

Lemma no_instances_iff_no_candidate_matches_witness :
  let self := new_dock false false [] in
  let pin := Structured [("name", Some "kitty"); ("executable", Some "kitty")] in
  let running_windows := _build_running_windows [window "0x1" "firefox"] in
  (forall xs x, In x (first_occurrences xs) <-> In x xs)
  /\ (snd (_find_instances_for_app first_occurrences self pin running_windows)
      = None
      <-> forall identifier,
            In identifier (collected_identifiers pin (find_app self pin)) ->
            identifier_matches identifier running_windows = false).
Proof.
  intros self pin running_windows.
  split; [exact first_occurrences_in|].
  exact (no_instances_iff_no_candidate_matches first_occurrences self pin
           running_windows first_occurrences_in).
Defined.

(** ** Reading the pinned list back from the children *)

Lemma collect_pinned_data_buttons (bs : list Button) (rest : list Child) :
  collect_pinned_data (map AppButton bs ++ rest)
  = map saved_entry bs ++ collect_pinned_data rest.
Proof.
  induction bs as [|b r IH]; simpl; [reflexivity|]. now rewrite IH.
Qed.

Lemma collect_pinned_data_combine (pbs obs : list Button) :
  collect_pinned_data (_combine_buttons pbs obs)
  = map saved_entry pbs
    ++ (if nonempty pbs then [] else map saved_entry obs).
Proof.
  rewrite combine_buttons_eq, collect_pinned_data_buttons. f_equal.
  destruct pbs as [|p pr], obs as [|ob obr]; simpl; try reflexivity.
  f_equal. rewrite <- (app_nil_r (map AppButton obr)).
  rewrite collect_pinned_data_buttons. simpl. now rewrite app_nil_r.
Qed.

Lemma check_occlusion_state_frame (self : Dock) :
  let self' := snd (check_occlusion_state self) in
  pinned self' = pinned self
  /\ _all_apps self' = _all_apps self
  /\ app_identifiers self' = app_identifiers self
  /\ integrated_mode self' = integrated_mode self
  /\ always_show self' = always_show self
  /\ _saved_always_show self' = _saved_always_show self
  /\ _forced_occlusion self' = _forced_occlusion self
  /\ _prevent_occlusion self' = _prevent_occlusion self
  /\ _drag_in_progress self' = _drag_in_progress self
  /\ is_mouse_over_dock_area self' = is_mouse_over_dock_area self.
Proof.
  intros self'. unfold self', check_occlusion_state. destruct self. simpl.
  repeat match goal with
         | b : bool |- _ => destruct b
         end; simpl; repeat split.
Qed.

(** The state [update_dock] leaves, beyond the children. *)
Lemma update_dock_state (list_of_set : list string -> list string)
    (all_apps : list DesktopApp) (o : IpcOutcome (list Client))
    (self refreshed : Dock) (clients : list Client) :
  update_app_map all_apps self = Ok refreshed ->
  get_clients o = Ok clients ->
  let running_windows := _build_running_windows clients in
  let pinned_buttons :=
    map (pinned_button list_of_set refreshed running_windows) (pinned self) in
  let used_classes :=
    flat_map (marked_used list_of_set refreshed running_windows)
      (pinned self) in
  let open_buttons :=
    map (open_button refreshed) (unused_groups used_classes running_windows) in
  if forallb (icon_lookup_returns refreshed) (pinned self)
  then exists self' : Dock,
         update_dock list_of_set all_apps o self = Ok self'
         /\ children self' = _combine_buttons pinned_buttons open_buttons
         /\ pinned self' = pinned self
         /\ _drag_in_progress self' = false
         /\ integrated_mode self' = integrated_mode self
         /\ _all_apps self' = all_apps
         /\ app_identifiers self' = app_identifiers refreshed
  else update_dock list_of_set all_apps o self = Raise KeyError.
Proof.
  intros Hmap Hclients rw pbs used obs.
  pose proof (create_pinned_buttons_eq list_of_set refreshed rw) as Hcreated.
  rewrite (update_app_map_pinned all_apps self refreshed Hmap) in Hcreated.
  fold pbs used in Hcreated.
  destruct (forallb (icon_lookup_returns refreshed) (pinned self)).
  - set (st' := set_drag_in_progress false
                  (set_children (_combine_buttons pbs obs) refreshed)).
    assert (Href : pinned refreshed = pinned self
                   /\ integrated_mode refreshed = integrated_mode self
                   /\ _all_apps refreshed = all_apps).
    { unfold update_app_map in Hmap.
      destruct (_build_app_identifiers_map all_apps); [|discriminate].
      simpl in Hmap. injection Hmap as <-. repeat split. }
    destruct Href as (Hp & Hi & Ha).
    exists (if negb (integrated_mode st')
            then snd (check_occlusion_state st') else st').
    split.
    + unfold update_dock. rewrite Hmap. cbn [bind]. rewrite Hclients.
      cbn [bind]. fold rw. rewrite Hcreated. cbn [bind].
      rewrite create_open_buttons_eq. reflexivity.
    + pose proof (check_occlusion_state_frame st') as F. simpl in F.
      destruct F as (F1 & F2 & F3 & F4 & _ & _ & _ & _ & F9 & _).
      destruct (negb (integrated_mode st'));
        [rewrite check_occlusion_state_children, F1, F2, F3, F4, F9|];
        simpl; repeat split; assumption.
  - unfold update_dock. rewrite Hmap. cbn [bind]. rewrite Hclients.
    cbn [bind]. fold rw. now rewrite Hcreated.
Qed.

Lemma saved_entry_pinned_button (list_of_set : list string -> list string)
    (self : Dock) (rw : list (string * list Client)) (a : AppId) :
  saved_entry (pinned_button list_of_set self rw a) = resaved self a.
Proof. reflexivity. Qed.

(** X11: read back right after a pass that created the button of every
    pinned record ([update_pinned_apps] does so), the children give the
    pinned list again when it is not empty: the same records in the same
    order, each one that resolves replaced by the full record of its
    application; no running-only application slips in. *)
Theorem pinned_list_read_back_after_pass
    (list_of_set : list string -> list string) (all_apps : list DesktopApp)
    (o : IpcOutcome (list Client)) (self refreshed : Dock)
    (clients : list Client) :
  update_app_map all_apps self = Ok refreshed ->
  get_clients o = Ok clients ->
  pinned self <> [] ->
  forallb (icon_lookup_returns refreshed) (pinned self) = true ->
  exists self',
    update_dock list_of_set all_apps o self = Ok self'
    /\ collect_pinned_data (children self')
       = map (resaved refreshed) (pinned self).
Proof.
  intros Hmap Hclients Hne Hicons.
  pose proof (update_dock_state list_of_set all_apps o self refreshed clients
                Hmap Hclients) as Hstate.
  cbv zeta in Hstate. rewrite Hicons in Hstate.
  destruct Hstate as (self' & Hrun & Hchildren & _).
  exists self'. split; [exact Hrun|].
  rewrite Hchildren, collect_pinned_data_combine.
  destruct (pinned self) as [|a r]; [congruence|].
  simpl nonempty. rewrite app_nil_r, map_map. reflexivity.
Qed.

Lemma pinned_list_read_back_after_pass_witness :
  let kitty := app_named "kitty" in
  let pins := [Structured [("name", Some "Kitty")]; Bare "ghost"] in
  let self := new_dock false false pins in
  let clients := [window "0x1" "kitty"; window "0x2" "firefox"] in
  exists refreshed,
    update_app_map [kitty] self = Ok refreshed
    /\ get_clients (Parsed clients) = Ok clients
    /\ pinned self <> []
    /\ forallb (icon_lookup_returns refreshed) (pinned self) = true
    /\ exists self',
         update_dock first_occurrences [kitty] (Parsed clients) self
         = Ok self'
         /\ collect_pinned_data (children self')
            = [Structured (app_data_of kitty); Bare "ghost"].
Proof.
  intros kitty pins self clients. eexists.
  split; [reflexivity|]. split; [reflexivity|].
  assert (Hne : pinned self <> []) by discriminate.
  split; [exact Hne|]. split; [reflexivity|].
  destruct (pinned_list_read_back_after_pass first_occurrences [kitty]
              (Parsed clients) self _ clients eq_refl eq_refl Hne eq_refl)
    as (self' & Hrun & Hback).
  exists self'. split; [exact Hrun | exact Hback].
Defined.

Lemma unused_groups_nil (rw : list (string * list Client)) :
  unused_groups [] rw = rw.
Proof.
  unfold unused_groups. induction rw as [|kv r IH];
    [reflexivity | cbn [filter set_mem existsb negb]; now f_equal].
Qed.

(** X12: with an empty pinned list a pass puts no separator, so the
    children read back as pinned are the buttons of all running groups:
    [update_pinned_apps] then pins every running application. *)
Theorem read_back_without_pins_takes_running_apps
    (list_of_set : list string -> list string) (all_apps : list DesktopApp)
    (o : IpcOutcome (list Client)) (self refreshed : Dock)
    (clients : list Client) :
  update_app_map all_apps self = Ok refreshed ->
  get_clients o = Ok clients ->
  pinned self = [] ->
  exists self',
    update_dock list_of_set all_apps o self = Ok self'
    /\ collect_pinned_data (children self')
       = map (fun kv => saved_entry (open_button refreshed kv))
           (_build_running_windows clients).
Proof.
  intros Hmap Hclients Hnil.
  pose proof (update_dock_state list_of_set all_apps o self refreshed clients
                Hmap Hclients) as Hstate.
  cbv zeta in Hstate. rewrite Hnil in Hstate. simpl in Hstate.
  destruct Hstate as (self' & Hrun & Hchildren & _).
  exists self'. split; [exact Hrun|].
  rewrite Hchildren, collect_pinned_data_combine.
  simpl. now rewrite map_map, unused_groups_nil.
Qed.

Lemma read_back_without_pins_takes_running_apps_witness :
  let self := new_dock false false [] in
  let clients := [window "0x1" "kitty"; window "0x2" "firefox"] in
  update_app_map [] self = Ok self
  /\ get_clients (Parsed clients) = Ok clients
  /\ pinned self = []
  /\ exists self',
       update_dock first_occurrences [] (Parsed clients) self = Ok self'
       /\ collect_pinned_data (children self')
          = [Bare "kitty"; Bare "firefox"].
Proof.
  intros self clients.
  split; [reflexivity|]. split; [reflexivity|]. split; [reflexivity|].
  destruct (read_back_without_pins_takes_running_apps first_occurrences []
              (Parsed clients) self self clients eq_refl eq_refl eq_refl)
    as (self' & Hrun & Hback).
  exists self'. split; [exact Hrun | exact Hback].
Defined.

(** ** Drag and drop *)

Lemma separator_index_from_buttons (bs : list Button) (rest : list Child) :
  forall i,
    separator_index_from (map AppButton bs ++ rest) i
    = separator_index_from rest (i + Z.of_nat (List.length bs))%Z.
Proof.
  induction bs as [|b r IH]; intros i; simpl List.length.
  - simpl. f_equal. lia.
  - cbn [map app separator_index_from is_separator]. rewrite IH.
    f_equal. lia.
Qed.

(** X13: on the children a pass builds, [_find_separator_index] gives the
    number of pinned buttons when both sections are non-empty, and -1
    when one of them is empty. *)
Theorem separator_index_of_reconciled_children
    (pinned_buttons open_buttons : list Button) :
  _find_separator_index (_combine_buttons pinned_buttons open_buttons)
  = if nonempty pinned_buttons && nonempty open_buttons
    then Z.of_nat (List.length pinned_buttons)
    else (-1)%Z.
Proof.
  unfold _find_separator_index.
  rewrite combine_buttons_eq, separator_index_from_buttons.
  destruct (nonempty pinned_buttons && nonempty open_buttons); simpl.
  - lia.
  - rewrite <- (app_nil_r (map AppButton open_buttons)).
    now rewrite separator_index_from_buttons.
Qed.

(** Whether a drag crosses the separator does not depend on its
    direction; without a separator, from or onto the separator's own
    position, or from a position to itself, no drag counts as crossing. *)
Theorem cross_section_drag_facts (source target separator : Z) :
  _is_cross_section_drag source target separator
  = _is_cross_section_drag target source separator
  /\ _is_cross_section_drag source target (-1) = false
  /\ _is_cross_section_drag separator target separator = false
  /\ _is_cross_section_drag source separator separator = false
  /\ _is_cross_section_drag source source separator = false.
Proof.
  unfold _is_cross_section_drag. repeat split.
  - destruct (separator =? -1)%Z; [reflexivity|].
    rewrite orb_comm. f_equal; apply andb_comm.
  - destruct (separator =? -1)%Z; [reflexivity|].
    now rewrite Z.ltb_irrefl.
  - destruct (separator =? -1)%Z; [reflexivity|].
    now rewrite Z.ltb_irrefl, !andb_false_r.
  - destruct (separator =? -1)%Z; [reflexivity|].
    destruct (Z.ltb_spec source separator), (Z.ltb_spec separator source);
      simpl; try reflexivity; lia.
Qed.

Lemma py_pop_at (A : Type) (l : list A) (i : nat) (x : A) :
  nth_error l i = Some x ->
  py_pop l (Z.of_nat i) = Ok (x, firstn i l ++ skipn (S i) l).
Proof.
  intros Hnth. unfold py_pop.
  assert (Hlt : i < List.length l) by (apply nth_error_Some; congruence).
  destruct (Z.ltb_spec (Z.of_nat i) 0); [lia|].
  destruct (Z.ltb_spec (Z.of_nat i) 0); [lia|].
  destruct (Z.leb_spec (Z.of_nat (List.length l)) (Z.of_nat i)); [lia|].
  simpl. now rewrite Nat2Z.id, Hnth.
Qed.

Lemma py_insert_at (A : Type) (l : list A) (j : nat) (x : A) :
  j <= List.length l ->
  py_insert l (Z.of_nat j) x = firstn j l ++ x :: skipn j l.
Proof.
  intros Hle. unfold py_insert.
  destruct (Z.ltb_spec (Z.of_nat j) 0); [lia|].
  rewrite Z.min_l by lia. now rewrite Nat2Z.id.
Qed.

Lemma pop_inserted (A : Type) (l : list A) (j : nat) (x : A) :
  j <= List.length l ->
  py_pop (firstn j l ++ x :: skipn j l) (Z.of_nat j) = Ok (x, l).
Proof.
  intros Hle.
  assert (Hlen : List.length (firstn j l) = j) by (apply firstn_length_le; lia).
  rewrite (py_pop_at _ _ j x).
  - f_equal. f_equal.
    rewrite firstn_app, Hlen, Nat.sub_diag, firstn_O, app_nil_r.
    rewrite firstn_firstn, Nat.min_id.
    rewrite skipn_app, Hlen.
    replace (S j - j) with 1 by lia.
    rewrite (skipn_all2 (firstn j l)) by lia.
    simpl. apply firstn_skipn.
  - rewrite nth_error_app2 by lia. now rewrite Hlen, Nat.sub_diag.
Qed.

Lemma split_at_index (A : Type) (l : list A) :
  forall (i : nat) (x : A),
    nth_error l i = Some x -> l = firstn i l ++ x :: skipn (S i) l.
Proof.
  induction l as [|y r IH]; intros [|i] x H; try discriminate.
  - now injection H as ->.
  - simpl. f_equal. now apply IH.
Qed.

(** X14: a drop moves exactly one child: for indices inside the list the
    move succeeds, keeps the number of children, and taking the child at
    the target position out of the result gives the same child and the
    same remaining children, in the same order, as taking the child at
    the source position out of the original; a source index beyond the
    list raises [IndexError]. *)
Theorem move_child_moves_one_child (children_before : list Child)
    (source target : nat) :
  source < List.length children_before ->
  target < List.length children_before ->
  exists moved,
    move_child (Z.of_nat source) (Z.of_nat target) children_before = Ok moved
    /\ py_pop moved (Z.of_nat target)
       = py_pop children_before (Z.of_nat source)
    /\ List.length moved = List.length children_before
    /\ Permutation children_before moved
    /\ move_child (Z.of_nat (List.length children_before + source))
         (Z.of_nat target) children_before
       = Raise IndexError.
Proof.
  intros Hs Ht.
  destruct (nth_error children_before source) as [x|] eqn:Hnth;
    [|apply nth_error_None in Hnth; lia].
  pose proof (split_at_index _ children_before source x Hnth) as Hsplit.
  pose proof (py_pop_at _ children_before source x Hnth) as Hpop.
  remember (firstn source children_before
            ++ skipn (S source) children_before) as rest eqn:Erest.
  assert (Hrest : S (List.length rest) = List.length children_before).
  { pose proof (f_equal (@List.length Child) Hsplit) as Hl.
    rewrite length_app in Hl. cbn [List.length] in Hl.
    rewrite Erest, length_app. lia. }
  assert (Htr : target <= List.length rest) by lia.
  exists (firstn target rest ++ x :: skipn target rest).
  split; [|split; [|split; [|split]]].
  - unfold move_child. rewrite Hpop. cbn [bind fst snd].
    now rewrite (py_insert_at _ rest target x Htr).
  - now rewrite (pop_inserted _ rest target x Htr), Hpop.
  - rewrite length_app. cbn [List.length]. rewrite <- Hrest.
    pose proof (f_equal (@List.length Child) (firstn_skipn target rest)) as Hl.
    rewrite length_app in Hl. lia.
  - apply Permutation_trans with (x :: rest).
    + rewrite Hsplit at 1. rewrite Erest.
      apply Permutation_sym, Permutation_middle.
    + rewrite <- (firstn_skipn target rest) at 1. apply Permutation_middle.
  - unfold move_child, py_pop.
    destruct (Z.ltb_spec
                (Z.of_nat (List.length children_before + source)) 0); [lia|].
    destruct (Z.ltb_spec
                (Z.of_nat (List.length children_before + source)) 0); [lia|].
    destruct (Z.leb_spec (Z.of_nat (List.length children_before))
                (Z.of_nat (List.length children_before + source)));
      [reflexivity | lia].
Qed.

Lemma move_child_moves_one_child_witness :
  let b (n : string) :=
    AppButton {| app_identifier := Bare n; desktop_app := None;
                 instances := [] |} in
  let children_before := [b "a"; b "b"; Separator; b "c"] in
  0 < List.length children_before
  /\ 3 < List.length children_before
  /\ move_child 0 3 children_before = Ok [b "b"; Separator; b "c"; b "a"]
  /\ exists moved,
       move_child 0 3 children_before = Ok moved
       /\ py_pop moved 3 = py_pop children_before 0.
Proof.
  intros b children_before.
  assert (H0 : 0 < List.length children_before) by (simpl; lia).
  assert (H3 : 3 < List.length children_before) by (simpl; lia).
  split; [exact H0|]. split; [exact H3|]. split; [reflexivity|].
  destruct (move_child_moves_one_child children_before 0 3 H0 H3)
    as (moved & Hmove & Hpop & _).
  exists moved. split; [exact Hmove | exact Hpop].
Defined.

(** ** Unpinning by dragging out *)

Lemma option_string_eqb_sym (a b : option string) :
  option_string_eqb a b = option_string_eqb b a.
Proof. destruct a, b; simpl; try reflexivity. apply String.eqb_sym. Qed.

(** X15: [_app_ids_match] is symmetric; a bare string and a structured
    record never match; two structured records match exactly when their
    [name] entries are equal, a missing name counting as [None], so that
    two records without a name match each other. *)
Theorem app_ids_match_facts (a b : AppId) (s : string)
    (d d1 d2 : list (string * option string)) :
  _app_ids_match a b = _app_ids_match b a
  /\ _app_ids_match (Bare s) (Structured d) = false
  /\ (_app_ids_match (Structured d1) (Structured d2) = true
      <-> get_name d1 = get_name d2)
  /\ (dict_get "name" d1 = None -> dict_get "name" d2 = None ->
      _app_ids_match (Structured d1) (Structured d2) = true).
Proof.
  repeat split.
  - destruct a, b; simpl; try reflexivity;
      [apply String.eqb_sym | apply option_string_eqb_sym].
  - simpl. destruct (get_name d1), (get_name d2); simpl; try discriminate;
      [|reflexivity]. intros H. apply String.eqb_eq in H. now subst.
  - simpl. intros ->. destruct (get_name d2); simpl;
      [apply String.eqb_refl | reflexivity].
  - intros H1 H2. simpl. unfold get_name. now rewrite H1, H2.
Qed.

Lemma pinned_index_from_spec (app_id : AppId) (pinned_list : list AppId) :
  forall i,
    (pinned_index_from app_id pinned_list i = (-1)%Z
     /\ forall p, In p pinned_list -> _app_ids_match app_id p = false)
    \/ (exists n p,
          pinned_index_from app_id pinned_list i = (i + Z.of_nat n)%Z
          /\ nth_error pinned_list n = Some p
          /\ _app_ids_match app_id p = true
          /\ forall m q, m < n -> nth_error pinned_list m = Some q ->
                         _app_ids_match app_id q = false).
Proof.
  induction pinned_list as [|p0 rest IH]; intros i; simpl.
  - left. split; [reflexivity | intros p []].
  - destruct (_app_ids_match app_id p0) eqn:E.
    + right. exists 0, p0. repeat split; [lia | exact E | intros m q Hm; lia].
    + destruct (IH (i + 1)%Z) as [[Hnone Hall] | (n & p & Hidx & Hnth & Hm & Hfirst)].
      * left. split; [exact Hnone|]. intros p [<- | Hp]; auto.
      * right. exists (S n), p. repeat split; [lia | exact Hnth | exact Hm |].
        intros [|m] q Hlt Hq; simpl in Hq.
        -- now injection Hq as <-.
        -- apply (Hfirst m q); [lia | exact Hq].
Qed.

Lemma find_pinned_app_index_first_match_aux (self : Dock) (app_id : AppId) :
  (_find_pinned_app_index self app_id = (-1)%Z
   /\ forall p, In p (pinned self) -> _app_ids_match app_id p = false)
  \/ (exists n p,
        _find_pinned_app_index self app_id = Z.of_nat n
        /\ nth_error (pinned self) n = Some p
        /\ _app_ids_match app_id p = true
        /\ forall m q, m < n -> nth_error (pinned self) m = Some q ->
                       _app_ids_match app_id q = false).
Proof.
  unfold _find_pinned_app_index.
  destruct (pinned_index_from_spec app_id (pinned self) 0%Z)
    as [H | (n & p & Hidx & H)]; [now left|].
  right. exists n, p. split; [rewrite Hidx; lia | exact H].
Qed.

(** X16: [_find_pinned_app_index] answers -1 exactly when no pinned entry
    matches the identifier; otherwise it answers the position of the
    first entry that matches, a valid index of the pinned list. *)
Theorem find_pinned_app_index_first_match (self : Dock) (app_id : AppId) :
  (_find_pinned_app_index self app_id = (-1)%Z
   /\ forall p, In p (pinned self) -> _app_ids_match app_id p = false)
  \/ (exists n p,
        _find_pinned_app_index self app_id = Z.of_nat n
        /\ nth_error (pinned self) n = Some p
        /\ _app_ids_match app_id p = true
        /\ forall m q, m < n -> nth_error (pinned self) m = Some q ->
                       _app_ids_match app_id q = false).
Proof. apply find_pinned_app_index_first_match_aux. Qed.

Lemma update_app_map_any_dock (all_apps : list DesktopApp)
    (self other refreshed : Dock) :
  update_app_map all_apps self = Ok refreshed ->
  exists refreshed', update_app_map all_apps other = Ok refreshed'.
Proof.
  unfold update_app_map.
  destruct (_build_app_identifiers_map all_apps); [|discriminate].
  intros _. eexists. reflexivity.
Qed.

(** X17: dragging a button out of the dock when its identifier matches a
    pinned entry at position [n] removes that one entry and no other: the
    pinned list of the dock and of its configuration become the old list
    without position [n], a writable file receives exactly that list, no
    window is focused, and the dock is the one a pass over the remaining
    list leaves, its children the pinned buttons of the remaining records
    followed by the running groups they did not use (the pass is assumed
    to refresh the catalog, to get the clients and to create the buttons
    of the remaining records). *)
Theorem drag_outside_unpins_one_entry
    (list_of_set : list string -> list string) (all_apps : list DesktopApp)
    (o : IpcOutcome (list Client)) (widget : Button) (self refreshed : Dock)
    (dock_config : DockConfig) (fs : FileSystem) (clients : list Client)
    (n : nat) :
  let remaining := firstn n (pinned self) ++ skipn (S n) (pinned self) in
  let running_windows := _build_running_windows clients in
  _find_pinned_app_index self (app_identifier widget) = Z.of_nat n ->
  n < List.length (pinned self) ->
  update_app_map all_apps (set_pinned remaining self) = Ok refreshed ->
  get_clients o = Ok clients ->
  forallb (icon_lookup_returns refreshed) remaining = true ->
  exists self' fs',
    _handle_drag_outside list_of_set all_apps o widget self dock_config fs
    = Ok (self', set_pinned_apps remaining dock_config, fs', [])
    /\ update_dock list_of_set all_apps o (set_pinned remaining self)
       = Ok self'
    /\ pinned self' = remaining
    /\ S (List.length remaining) = List.length (pinned self)
    /\ children self'
       = _combine_buttons
           (map (pinned_button list_of_set refreshed running_windows)
              remaining)
           (map (open_button refreshed)
              (unused_groups
                 (flat_map (marked_used list_of_set refreshed running_windows)
                    remaining)
                 running_windows))
    /\ (writable fs = true ->
        dock_json fs' = JsonFile {| pinned_apps_item := Some remaining |})
    /\ (writable fs = false -> fs' = fs).
Proof.
  intros remaining rw Hidx Hn Hmap Hclients Hicons.
  destruct (nth_error (pinned self) n) as [p|] eqn:Hnth;
    [|apply nth_error_None in Hnth; lia].
  pose proof (py_pop_at _ (pinned self) n p Hnth) as Hpop.
  pose proof (update_dock_state list_of_set all_apps o
                (set_pinned remaining self) refreshed clients Hmap Hclients)
    as Hstate.
  cbv zeta in Hstate. cbn [pinned set_pinned] in Hstate.
  rewrite Hicons in Hstate.
  destruct Hstate as (self' & Hrun & Hchildren & Hpinned & _).
  exists self'. eexists. split; [|split; [|split; [|split; [|split; [|split]]]]].
  - unfold _handle_drag_outside. rewrite Hidx.
    destruct (Z.leb_spec 0 (Z.of_nat n)); [|lia].
    rewrite Hpop. cbn [bind fst snd]. fold remaining.
    rewrite Hrun. cbn [bind]. reflexivity.
  - exact Hrun.
  - exact Hpinned.
  - pose proof (f_equal (@List.length AppId)
                  (split_at_index _ (pinned self) n p Hnth)) as Hl.
    rewrite length_app in Hl. cbn [List.length] in Hl.
    unfold remaining. rewrite length_app. lia.
  - exact Hchildren.
  - intros Hw. unfold save. now rewrite Hw.
  - intros Hw. unfold save. now rewrite Hw.
Qed.

Lemma drag_outside_unpins_one_entry_witness :
  let kitty := Structured [("name", Some "kitty")] in
  let firefox := Structured [("name", Some "firefox")] in
  let self := new_dock false false [kitty; firefox; Bare "mpv"] in
  let widget := {| app_identifier := firefox; desktop_app := None;
                   instances := [] |} in
  let dock_config :=
    {| config := {| pinned_apps_item := Some (pinned self) |} |} in
  let fs := {| dock_json := JsonFile (config dock_config);
               writable := true |} in
  let remaining := [kitty; Bare "mpv"] in
  let w := window "0x1" "mpv" in
  _find_pinned_app_index self (app_identifier widget) = Z.of_nat 1
  /\ 1 < List.length (pinned self)
  /\ update_app_map [] (set_pinned remaining self)
     = Ok (set_pinned remaining self)
  /\ get_clients (Parsed [w]) = Ok [w]
  /\ forallb (icon_lookup_returns (set_pinned remaining self)) remaining
     = true
  /\ exists self' fs',
       _handle_drag_outside first_occurrences [] (Parsed [w]) widget self
         dock_config fs
       = Ok (self', set_pinned_apps remaining dock_config, fs', [])
       /\ pinned self' = remaining
       /\ children self'
          = [ AppButton {| app_identifier := kitty; desktop_app := None;
                           instances := [] |};
              AppButton {| app_identifier := Bare "mpv";
                           desktop_app := None; instances := [w] |} ].
Proof.
  intros kitty firefox self widget dock_config fs remaining w.
  assert (Hn : 1 < List.length (pinned self)) by (simpl; lia).
  split; [reflexivity|]. split; [exact Hn|].
  split; [reflexivity|]. split; [reflexivity|]. split; [reflexivity|].
  destruct (drag_outside_unpins_one_entry first_occurrences [] (Parsed [w])
              widget self (set_pinned remaining self) dock_config fs [w] 1
              eq_refl Hn eq_refl eq_refl eq_refl)
    as (self' & fs' & Hrun & _ & Hpinned & _ & Hchildren & _).
  exists self', fs'.
  split; [exact Hrun | split; [exact Hpinned | exact Hchildren]].
Defined.

(** X18: dragging out a button that matches no pinned entry changes
    neither the dock nor the configuration nor the file; it focuses the
    first instance of the button when there is one with an address, and
    does nothing otherwise. *)
Theorem drag_outside_unpinned_button_focuses
    (list_of_set : list string -> list string) (all_apps : list DesktopApp)
    (o : IpcOutcome (list Client)) (widget : Button) (self : Dock)
    (dock_config : DockConfig) (fs : FileSystem) :
  (forall p, In p (pinned self) ->
             _app_ids_match (app_identifier widget) p = false) ->
  _handle_drag_outside list_of_set all_apps o widget self dock_config fs
  = Ok (self, dock_config, fs,
        match instances widget with
        | first :: _ =>
            if PyStr.truthy (address first) then [focus_command first] else []
        | [] => []
        end).
Proof.
  intros Hnone. unfold _handle_drag_outside.
  destruct (find_pinned_app_index_first_match_aux self (app_identifier widget))
    as [[Hidx _] | (n & p & _ & Hnth & Hm & _)].
  - rewrite Hidx. simpl.
    destruct (instances widget) as [|first rest]; [reflexivity|].
    destruct (PyStr.truthy (address first)); reflexivity.
  - apply nth_error_In in Hnth. rewrite (Hnone p Hnth) in Hm. discriminate.
Qed.

Lemma drag_outside_unpinned_button_focuses_witness :
  let w := window "0x7" "mpv" in
  let self := new_dock false false [Bare "kitty"] in
  let widget := {| app_identifier := Bare "mpv"; desktop_app := None;
                   instances := [w] |} in
  let dock_config := {| config := {| pinned_apps_item := None |} |} in
  let fs := {| dock_json := NoFile; writable := true |} in
  (forall p, In p (pinned self) ->
             _app_ids_match (app_identifier widget) p = false)
  /\ _handle_drag_outside first_occurrences [] (Parsed []) widget self
       dock_config fs
     = Ok (self, dock_config, fs, [focus_command w]).
Proof.
  intros w self widget dock_config fs.
  assert (Hnone : forall p, In p (pinned self) ->
                            _app_ids_match (app_identifier widget) p = false).
  { intros p [<- | []]. reflexivity. }
  split; [exact Hnone|].
  exact (drag_outside_unpinned_button_focuses first_occurrences []
           (Parsed []) widget self dock_config fs Hnone).
Defined.

(** ** The occlusion tick and the hide timer *)

Ltac cases_of_dock d :=
  destruct d; simpl in *;
  repeat match goal with
         | s : option bool |- _ => destruct s
         end;
  repeat match goal with
         | b : bool |- _ => destruct b
         end;
  simpl in *.

(** X19: on a dock that is not integrated the periodic check decides the
    reveal state from the flags alone: under forced occlusion the dock is
    revealed exactly while the pointer is over it, otherwise exactly when
    the pointer is over it, a drag is in progress, occlusion is prevented
    or the dock is set to always show. It keeps its timer and a second
    check in a row changes nothing more. *)
Theorem occlusion_check_decides_reveal (self : Dock) :
  integrated_mode self = false ->
  let checked := snd (check_occlusion_state self) in
  fst (check_occlusion_state self) = true
  /\ reveal_child checked = wanted_reveal self
  /\ set_occlusion_checks 0 (snd (check_occlusion_state checked))
     = set_occlusion_checks 0 checked.
Proof.
  intros Hmode checked. unfold checked, check_occlusion_state, wanted_reveal.
  cases_of_dock self; try discriminate; repeat split.
Qed.

Lemma occlusion_check_decides_reveal_witness :
  let self := set_forced_occlusion true (new_dock false true []) in
  integrated_mode self = false
  /\ reveal_child (snd (check_occlusion_state self)) = false
  /\ reveal_child
       (snd (check_occlusion_state (set_mouse_over true self))) = true.
Proof.
  intros self.
  split; [reflexivity|]. split.
  - exact (proj1 (proj2 (occlusion_check_decides_reveal self eq_refl))).
  - exact (proj1 (proj2 (occlusion_check_decides_reveal
                           (set_mouse_over true self) eq_refl))).
Defined.

Lemma with_dock_consistent (d : Dock) (h : Hover) :
  integrated_mode d = integrated_mode (dock h) ->
  hide_timer_consistent h -> hide_timer_consistent (with_dock d h).
Proof.
  unfold hide_timer_consistent. destruct h as [d0 hid pend ns]. simpl.
  intros ->. auto.
Qed.

Lemma cancel_hide_consistent (h : Hover) :
  hide_timer_consistent h ->
  hide_timer_consistent (cancel_hide h)
  /\ hide_id (cancel_hide h) = None
  /\ pending_hides (cancel_hide h) = []
  /\ dock (cancel_hide h) = dock h.
Proof.
  unfold hide_timer_consistent, cancel_hide, source_remove.
  destruct h as [d hid pend ns]. simpl. intros [Hns Hh].
  destruct hid as [[|i]|]; simpl.
  - destruct Hh as (_ & Hid & _). lia.
  - destruct Hh as (-> & Hid & Hmode). simpl. rewrite Nat.eqb_refl. simpl.
    auto.
  - auto.
Qed.

Lemma delay_hide_consistent (h : Hover) :
  hide_timer_consistent h -> hide_timer_consistent (delay_hide h).
Proof.
  unfold hide_timer_consistent, delay_hide, remove_hide_source, source_remove.
  destruct h as [d hid pend ns]. simpl.
  destruct (integrated_mode d) eqn:Hmode; simpl;
    [rewrite Hmode; intros H; exact H|].
  intros [Hns Hh].
  destruct hid as [[|i]|]; simpl.
  - destruct Hh as (_ & Hid & _). lia.
  - destruct Hh as (-> & Hid & _). simpl. rewrite Nat.eqb_refl. simpl.
    repeat split; auto; lia.
  - rewrite Hh. simpl. repeat split; auto; lia.
Qed.

Lemma fire_hide_timeout_consistent (id : nat) (h : Hover) :
  hide_timer_consistent h ->
  hide_timer_consistent (fire_hide_timeout id h)
  /\ (In id (pending_hides h) ->
      hide_id (fire_hide_timeout id h) = None
      /\ pending_hides (fire_hide_timeout id h) = []).
Proof.
  unfold hide_timer_consistent, fire_hide_timeout, hide_dock_if_not_hovered,
    source_remove, with_dock.
  destruct h as [d hid pend ns]. simpl. intros [Hns Hh].
  destruct hid as [i|]; simpl in *.
  - destruct Hh as (-> & Hid & Hmode). simpl. rewrite Hmode.
    destruct (id =? i) eqn:E; simpl.
    + apply Nat.eqb_eq in E. subst i.
      destruct (negb (is_mouse_over_dock_area d) && negb (_drag_in_progress d)
                && negb (_prevent_occlusion d));
        [destruct (negb (always_show d))|]; simpl; rewrite ?Nat.eqb_refl;
        simpl; auto.
    + split; [auto|]. intros [-> | []]. rewrite Nat.eqb_refl in E.
      discriminate.
  - rewrite Hh. simpl. split; [auto | intros []].
Qed.

Ltac split_conditionals :=
  repeat match goal with
         | |- context [if ?b then _ else _] => destruct b; simpl
         | |- context [match ?x with Some _ => _ | None => _ end] =>
             destruct x; simpl
         | |- context [match ?x with 0 => _ | S _ => _ end] =>
             destruct x; simpl
         end.

Lemma hover_step_integrated_mode (h : Hover) (e : HoverEvent) :
  integrated_mode (dock (hover_step h e)) = integrated_mode (dock h).
Proof.
  destruct h as [d hid pend ns].
  destruct e; simpl;
    unfold _on_dock_enter, _on_hover_enter, _on_hover_leave, _on_dock_leave,
      _on_child_enter, fire_hide_timeout, hide_dock_if_not_hovered,
      delay_hide, cancel_hide, remove_hide_source, source_remove, with_dock,
      finish_drag, force_occlusion, restore_from_occlusion,
      check_occlusion_state; simpl;
    destruct (integrated_mode d) eqn:Hmode; simpl;
    split_conditionals; simpl; rewrite ?Hmode; reflexivity.
Qed.

Lemma hover_step_consistent (h : Hover) (e : HoverEvent) :
  hide_timer_consistent h -> hide_timer_consistent (hover_step h e).
Proof.
  intros Hc.
  assert (Hset : forall v, hide_timer_consistent
                             (with_dock (set_mouse_over v (dock h)) h)).
  { intros v. now apply with_dock_consistent. }
  destruct e; simpl.
  - (* HoverEnter *)
    unfold _on_hover_enter.
    destruct (integrated_mode (dock h)) eqn:Hmode; [exact Hc|].
    destruct (cancel_hide_consistent _ (Hset true)) as (Hc' & _ & _ & Hd).
    apply with_dock_consistent; [|exact Hc'].
    rewrite Hd. simpl. now destruct (negb (always_show (dock h))).
  - (* HoverLeave *)
    unfold _on_hover_leave.
    destruct (integrated_mode (dock h)) eqn:Hmode; [exact Hc|].
    simpl. destruct (_forced_occlusion (dock h)).
    + apply with_dock_consistent; [reflexivity|]. apply Hset.
    + apply delay_hide_consistent, Hset.
  - (* DockEnter *)
    unfold _on_dock_enter, _on_hover_enter.
    destruct (integrated_mode (dock h)) eqn:Hmode; [exact Hc|].
    destruct (cancel_hide_consistent _ (Hset true)) as (Hc' & _ & _ & Hd).
    apply with_dock_consistent; [|exact Hc'].
    rewrite Hd. simpl. now destruct (negb (always_show (dock h))).
  - (* DockLeave *)
    unfold _on_dock_leave.
    destruct (integrated_mode (dock h)) eqn:Hmode; [exact Hc|].
    destruct inferior; [exact Hc|]. simpl.
    assert (Hmid : hide_timer_consistent
                     (if _forced_occlusion (dock h)
                      then with_dock
                             (set_reveal_child false
                                (set_mouse_over false (dock h)))
                             (with_dock (set_mouse_over false (dock h)) h)
                      else delay_hide
                             (with_dock (set_mouse_over false (dock h)) h))).
    { destruct (_forced_occlusion (dock h)).
      - apply with_dock_consistent; [reflexivity | apply Hset].
      - apply delay_hide_consistent, Hset. }
    match goal with
    | |- hide_timer_consistent (if ?b then with_dock ?d ?x else ?x) =>
        destruct b; [apply with_dock_consistent; [reflexivity|]|]
    end; exact Hmid.
  - (* ChildEnter *)
    unfold _on_child_enter.
    destruct (integrated_mode (dock h)); [exact Hc|].
    apply cancel_hide_consistent, Hset.
  - (* HideTimeout *)
    now apply fire_hide_timeout_consistent.
  - (* OcclusionTick *)
    apply with_dock_consistent; [|exact Hc].
    apply (check_occlusion_state_frame (dock h)).
  - (* DragBegin *)
    now apply with_dock_consistent.
  - (* DragEndInside *)
    destruct (_drag_in_progress (dock h)); [|exact Hc].
    apply with_dock_consistent; [|exact Hc].
    exact (hover_step_integrated_mode
             (with_dock (set_drag_in_progress true (dock h)) h) DragEndInside).
  - (* ForceOcclusion *)
    apply with_dock_consistent; [|exact Hc].
    exact (hover_step_integrated_mode h ForceOcclusion).
  - (* RestoreFromOcclusion *)
    apply with_dock_consistent; [|exact Hc].
    exact (hover_step_integrated_mode h RestoreFromOcclusion).
Qed.

Lemma hover_run_consistent (events : list HoverEvent) :
  forall h, hide_timer_consistent h ->
            hide_timer_consistent (hover_run events h)
            /\ integrated_mode (dock (hover_run events h))
               = integrated_mode (dock h).
Proof.
  unfold hover_run.
  induction events as [|e rest IH]; intros h Hc; simpl; [auto|].
  destruct (IH (hover_step h e) (hover_step_consistent h e Hc)) as [H1 H2].
  split; [exact H1|]. rewrite H2. apply hover_step_integrated_mode.
Qed.

Lemma new_hover_consistent (d : Dock) : hide_timer_consistent (new_hover d).
Proof. unfold hide_timer_consistent. simpl. auto. Qed.

(** X20: whatever hover, drag, tick, force and timeout events follow one
    another, at most one hide timeout is pending at any time, and it is
    the one [hide_id] names: every handler that requests a timeout first
    removes the one before. *)
Theorem at_most_one_pending_hide (d : Dock) (events : list HoverEvent) :
  let h := hover_run events (new_hover d) in
  List.length (pending_hides h) <= 1
  /\ pending_hides h
     = match hide_id h with Some id => [id] | None => [] end.
Proof.
  intros h.
  destruct (hover_run_consistent events (new_hover d) (new_hover_consistent d))
    as [[_ Hh] _].
  fold h in Hh. destruct (hide_id h) as [id|].
  - destruct Hh as (-> & _). simpl. auto.
  - rewrite Hh. simpl. auto.
Qed.

Lemma reachable_hover (d : Dock) (events : list HoverEvent) :
  hide_timer_consistent (hover_run events (new_hover d))
  /\ integrated_mode (dock (hover_run events (new_hover d)))
     = integrated_mode d.
Proof.
  apply (hover_run_consistent events (new_hover d) (new_hover_consistent d)).
Qed.

(** X21: when the pointer enters the hover area of a dock that is not
    integrated, whatever happened before, the dock is revealed, the
    pending hide timeout is cancelled, and no timeout that fires later can
    hide it again: none is left to run. *)
Theorem hover_enter_reveals_and_cancels (d : Dock)
    (events : list HoverEvent) :
  integrated_mode d = false ->
  let h := hover_step (hover_run events (new_hover d)) HoverEnter in
  reveal_child (dock h) = true
  /\ is_mouse_over_dock_area (dock h) = true
  /\ hide_id h = None
  /\ pending_hides h = []
  /\ forall id, hover_step h (HideTimeout id) = h.
Proof.
  intros Hmode.
  destruct (reachable_hover d events) as [Hc Hm]. rewrite Hmode in Hm.
  set (h0 := hover_run events (new_hover d)) in *.
  simpl. unfold _on_hover_enter. rewrite Hm.
  assert (Hc1 : hide_timer_consistent
                  (with_dock (set_mouse_over true (dock h0)) h0))
    by now apply with_dock_consistent.
  destruct (cancel_hide_consistent _ Hc1) as (_ & Hid & Hpend & Hd).
  set (h1 := cancel_hide (with_dock (set_mouse_over true (dock h0)) h0)) in *.
  assert (Hfields :
            forall d', hide_id (with_dock d' h1) = None
                       /\ pending_hides (with_dock d' h1) = []).
  { intros d'. destruct h1. simpl in *. auto. }
  rewrite Hd. simpl dock.
  destruct (always_show (dock h0)); simpl;
    (split; [reflexivity|]); (split; [reflexivity|]);
    (split; [exact Hid|]); (split; [exact Hpend|]);
    intros id; unfold fire_hide_timeout; simpl; now rewrite Hpend.
Qed.

Lemma hover_enter_reveals_and_cancels_witness :
  let d := new_dock false false [] in
  let before := hover_run [HoverEnter; HoverLeave] (new_hover d) in
  let h := hover_step before HoverEnter in
  integrated_mode d = false
  /\ pending_hides before = [1]
  /\ pending_hides h = []
  /\ reveal_child (dock h) = true
  /\ hover_step h (HideTimeout 1) = h.
Proof.
  intros d before h.
  destruct (hover_enter_reveals_and_cancels d [HoverEnter; HoverLeave]
              eq_refl) as (Hr & _ & _ & Hp & Hfire).
  split; [reflexivity|]. split; [reflexivity|]. split; [exact Hp|].
  split; [exact Hr | exact (Hfire 1)].
Defined.

Lemma delay_hide_requests_one (h : Hover) :
  hide_timer_consistent h ->
  integrated_mode (dock h) = false ->
  delay_hide h
  = {| dock := dock h; hide_id := Some (next_source h);
       pending_hides := [next_source h];
       next_source := S (next_source h) |}.
Proof.
  intros [Hns Hh] Hmode. destruct h as [d0 hid pend ns].
  simpl in Hns, Hh, Hmode.
  unfold delay_hide, remove_hide_source, source_remove. simpl.
  rewrite Hmode.
  destruct hid as [[|i]|]; simpl.
  - destruct Hh as (_ & Hid & _). lia.
  - destruct Hh as (-> & _). simpl. now rewrite Nat.eqb_refl.
  - now rewrite Hh.
Qed.

Lemma fire_pending_hide (d0 : Dock) (id ns : nat) :
  integrated_mode d0 = false ->
  fire_hide_timeout id
    {| dock := d0; hide_id := Some id; pending_hides := [id];
       next_source := ns |}
  = {| dock :=
         if negb (is_mouse_over_dock_area d0) && negb (_drag_in_progress d0)
            && negb (_prevent_occlusion d0) && negb (always_show d0)
         then set_reveal_child false d0
         else d0;
       hide_id := None; pending_hides := []; next_source := ns |}.
Proof.
  intros Hmode.
  unfold fire_hide_timeout, hide_dock_if_not_hovered, source_remove, with_dock.
  simpl. rewrite Nat.eqb_refl, Hmode. simpl.
  destruct (is_mouse_over_dock_area d0), (_drag_in_progress d0),
    (_prevent_occlusion d0), (always_show d0); simpl;
    now rewrite Nat.eqb_refl.
Qed.

Lemma leave_then_timeout_from (h : Hover) :
  hide_timer_consistent h ->
  integrated_mode (dock h) = false ->
  let left := hover_step h HoverLeave in
  if _forced_occlusion (dock h)
  then reveal_child (dock left) = false
       /\ hide_id left = hide_id h
       /\ pending_hides left = pending_hides h
  else exists id,
         hide_id left = Some id
         /\ pending_hides left = [id]
         /\ let fired := hover_step left (HideTimeout id) in
            hide_id fired = None
            /\ pending_hides fired = []
            /\ reveal_child (dock fired)
               = if _drag_in_progress (dock h) || _prevent_occlusion (dock h)
                    || always_show (dock h)
                 then reveal_child (dock h)
                 else false.
Proof.
  intros Hc Hmode.
  assert (Hc1 : hide_timer_consistent
                  (with_dock (set_mouse_over false (dock h)) h))
    by now apply with_dock_consistent.
  pose proof (delay_hide_requests_one _ Hc1 Hmode) as Hdelay.
  destruct h as [d0 hid pend ns]. simpl in Hmode, Hdelay |- *.
  unfold _on_hover_leave. simpl. rewrite Hmode. simpl.
  destruct (_forced_occlusion d0) eqn:Hforced; simpl.
  - auto.
  - rewrite Hdelay. exists ns. simpl.
    split; [reflexivity|]. split; [reflexivity|].
    rewrite (fire_pending_hide (set_mouse_over false d0) ns (S ns) Hmode).
    simpl. split; [reflexivity|]. split; [reflexivity|].
    destruct (_drag_in_progress d0), (_prevent_occlusion d0),
      (always_show d0); reflexivity.
Qed.

(** X22: when the pointer leaves the hover area of a dock that is not
    integrated: under forced occlusion the dock is hidden at once and no
    timeout is requested; otherwise exactly one hide timeout is pending
    afterwards, and when it fires with nothing in between it hides the
    dock unless a drag is in progress, occlusion is prevented or the dock
    is set to always show, in which case the reveal state stays as it
    was. *)
Theorem hover_leave_then_timeout (d : Dock) (events : list HoverEvent) :
  integrated_mode d = false ->
  let h := hover_run events (new_hover d) in
  let left := hover_step h HoverLeave in
  if _forced_occlusion (dock h)
  then reveal_child (dock left) = false
       /\ hide_id left = hide_id h
       /\ pending_hides left = pending_hides h
  else exists id,
         hide_id left = Some id
         /\ pending_hides left = [id]
         /\ let fired := hover_step left (HideTimeout id) in
            hide_id fired = None
            /\ pending_hides fired = []
            /\ reveal_child (dock fired)
               = if _drag_in_progress (dock h) || _prevent_occlusion (dock h)
                    || always_show (dock h)
                 then reveal_child (dock h)
                 else false.
Proof.
  intros Hmode.
  destruct (reachable_hover d events) as [Hc Hm]. rewrite Hmode in Hm.
  exact (leave_then_timeout_from _ Hc Hm).
Qed.

Lemma hover_leave_then_timeout_witness :
  let d := new_dock false false [] in
  let h := hover_run [HoverEnter] (new_hover d) in
  let left := hover_step h HoverLeave in
  integrated_mode d = false
  /\ reveal_child (dock h) = true
  /\ exists id,
       pending_hides left = [id]
       /\ reveal_child (dock (hover_step left (HideTimeout id))) = false.
Proof.
  intros d h left.
  split; [reflexivity|]. split; [reflexivity|].
  destruct (hover_leave_then_timeout d [HoverEnter] eq_refl)
    as (id & _ & Hp & _ & _ & Hr).
  exists id. split; [exact Hp | exact Hr].
Defined.

Lemma hover_step_integrated (h : Hover) (e : HoverEvent) :
  integrated_mode (dock h) = true ->
  hide_id h = None -> pending_hides h = [] ->
  reveal_state (dock (hover_step h e)) = reveal_state (dock h)
  /\ hide_id (hover_step h e) = None
  /\ pending_hides (hover_step h e) = [].
Proof.
  destruct h as [d hid pend ns]. simpl. intros Hmode -> ->.
  destruct e; simpl;
    unfold _on_dock_enter, _on_hover_enter, _on_hover_leave, _on_dock_leave,
      _on_child_enter, fire_hide_timeout, finish_drag, force_occlusion,
      restore_from_occlusion, check_occlusion_state, reveal_state;
    simpl; rewrite ?Hmode; simpl; auto.
  destruct (_drag_in_progress d); simpl; rewrite ?Hmode; simpl; auto.
Qed.

(** A pass on an integrated dock does not call [check_occlusion_state]. *)
Lemma update_dock_integrated (list_of_set : list string -> list string)
    (all_apps : list DesktopApp) (o : IpcOutcome (list Client))
    (d d' : Dock) :
  integrated_mode d = true ->
  update_dock list_of_set all_apps o d = Ok d' ->
  reveal_state d' = reveal_state d /\ integrated_mode d' = true.
Proof.
  intros Hmode. unfold update_dock, update_app_map.
  destruct (_build_app_identifiers_map all_apps) as [ids|]; [|discriminate].
  cbn [bind].
  destruct (get_clients o) as [clients|]; [|discriminate]. cbn [bind].
  destruct (_create_pinned_buttons _ _ _) as [[pbs used]|]; [|discriminate].
  cbn [bind].
  destruct (_create_open_buttons _ _ _) as [obs|]; [|discriminate].
  cbn [bind]. simpl. rewrite Hmode. simpl. intros [= <-].
  split; [reflexivity | exact Hmode].
Qed.

(** X23: an integrated dock takes no part in occlusion. Whatever pointer,
    hide-timeout, occlusion-tick, force, restore, drag-begin and
    drag-end-inside events reach it, its reveal state, its [always_show],
    its forced flag and its saved value stay as they were, and it never
    requests a hide timeout. The handlers that are not among these events
    and run on every dock, a pass, a drag that ends ([on_drag_end], inside
    or outside the dock) and a drop ([on_drag_data_received]), change the
    pinned list and the children but leave these attributes as they were
    too. *)
Theorem integrated_dock_ignores_events (d : Dock)
    (events : list HoverEvent) :
  integrated_mode d = true ->
  let h := hover_run events (new_hover d) in
  reveal_state (dock h) = reveal_state d
  /\ hide_id h = None
  /\ pending_hides h = []
  /\ (forall list_of_set all_apps o d',
        update_dock list_of_set all_apps o (dock h) = Ok d' ->
        reveal_state d' = reveal_state d)
  /\ (forall list_of_set all_apps o widget is_outside dock_config fs
             d' dock_config' fs' effects,
        on_drag_end list_of_set all_apps o widget is_outside (dock h)
          dock_config fs
        = Ok (d', dock_config', fs', effects) ->
        reveal_state d' = reveal_state d)
  /\ (forall list_of_set all_apps o source_index target_index dock_config fs
             d' dock_config' fs' queued,
        on_drag_data_received list_of_set all_apps o source_index
          target_index (dock h) dock_config fs
        = Ok (d', dock_config', fs', queued) ->
        reveal_state d' = reveal_state d).
Proof.
  intros Hmode. simpl.
  assert (Hgen : forall h,
             integrated_mode (dock h) = true ->
             hide_id h = None -> pending_hides h = [] ->
             reveal_state (dock (hover_run events h)) = reveal_state (dock h)
             /\ integrated_mode (dock (hover_run events h)) = true
             /\ hide_id (hover_run events h) = None
             /\ pending_hides (hover_run events h) = []).
  { unfold hover_run. induction events as [|e rest IH]; intros h Hm Hid Hp;
      simpl; [auto|].
    destruct (hover_step_integrated h e Hm Hid Hp) as (H1 & H4 & H5).
    destruct (IH (hover_step h e)) as (I1 & I2 & I4 & I5);
      [now rewrite hover_step_integrated_mode | exact H4 | exact H5 |].
    repeat split; congruence. }
  destruct (Hgen (new_hover d) Hmode eq_refl eq_refl)
    as (Hr & Hm & Hid & Hp).
  simpl in Hr. set (h := hover_run events (new_hover d)) in *.
  split; [exact Hr|]. split; [exact Hid|]. split; [exact Hp|].
  rewrite <- Hr. split; [|split].
  - intros los all_apps o d' Hrun.
    now apply (update_dock_integrated los all_apps o (dock h) d' Hm).
  - intros los all_apps o widget is_outside cfg fs d' cfg' fs' effects.
    unfold on_drag_end.
    destruct (_drag_in_progress (dock h)); cbn [negb];
      [|now intros [= <- _ _ _]].
    assert (Hfinish : forall d0, integrated_mode d0 = true ->
                                 reveal_state (finish_drag d0)
                                 = reveal_state d0).
    { intros d0 H0. unfold finish_drag. simpl. rewrite H0. reflexivity. }
    destruct is_outside;
      [|intros [= <- _ _ _]; now apply Hfinish].
    unfold _handle_drag_outside.
    destruct (0 <=? _find_pinned_app_index (dock h) (app_identifier widget))%Z.
    + destruct (py_pop (pinned (dock h)) _) as [popped|]; [|discriminate].
      cbn [bind].
      destruct (update_dock los all_apps o _) as [d1|] eqn:Hrun;
        [|discriminate].
      cbn [bind]. intros [= <- _ _ _].
      apply update_dock_integrated in Hrun; [|exact Hm].
      destruct Hrun as [Hr1 Hm1].
      rewrite (Hfinish d1 Hm1). exact Hr1.
    + destruct (instances widget) as [|first rest];
        [|destruct (PyStr.truthy (address first))];
        cbn [bind]; intros [= <- _ _ _]; now apply Hfinish.
  - intros los all_apps o source_index target_index cfg fs d' cfg' fs'
      queued.
    unfold on_drag_data_received.
    destruct (source_index =? Z.of_nat target_index)%Z;
      [now intros [= <- _ _ _]|].
    destruct (move_child _ _ _) as [moved|]; [|discriminate]. cbn [bind].
    unfold update_pinned_apps.
    destruct (save _ fs) as [file_updated fs1].
    destruct (file_updated && negb (negb _)).
    + destruct (update_dock los all_apps o _) as [d1|] eqn:Hrun;
        [|discriminate].
      cbn [bind]. intros [= <- _ _ _].
      apply update_dock_integrated in Hrun; [|exact Hm].
      exact (proj1 Hrun).
    + cbn [bind]. now intros [= <- _ _ _].
Qed.

Lemma integrated_dock_ignores_events_witness :
  let d := new_dock true true [Bare "kitty"] in
  let h := hover_run [HoverEnter; HoverLeave; ForceOcclusion; OcclusionTick;
                      DragBegin; DragEndInside; RestoreFromOcclusion]
             (new_hover d) in
  integrated_mode d = true
  /\ reveal_state (dock h) = reveal_state d
  /\ pending_hides h = [].
Proof.
  intros d h.
  destruct (integrated_dock_ignores_events d
              [HoverEnter; HoverLeave; ForceOcclusion; OcclusionTick;
               DragBegin; DragEndInside; RestoreFromOcclusion] eq_refl)
    as (Hr & _ & Hp & _).
  split; [reflexivity|]. split; [exact Hr | exact Hp].
Defined.

(** ** Configuration and workspace changes *)

Lemma set_always_show_same (self : Dock) :
  set_always_show (always_show self) self = self.
Proof. now destruct self. Qed.

(** X24: the periodic and the immediate configuration check do the same
    to the dock and its configuration, and fail alike; they differ only
    in what they return to the main loop: the periodic one asks to be
    called again, the immediate one does not. *)
Theorem config_checks_agree (list_of_set : list string -> list string)
    (dock_always_show : bool) (all_apps : list DesktopApp)
    (o : IpcOutcome (list Client)) (fs : FileSystem) (self : Dock) :
  match check_config_change list_of_set dock_always_show all_apps o fs self,
        check_config_change_immediate list_of_set dock_always_show all_apps o
          fs self
  with
  | Ok (d1, c1, again1), Ok (d2, c2, again2) =>
      d1 = d2 /\ c1 = c2 /\ again1 = true /\ again2 = false
  | Raise e1, Raise e2 => e1 = e2
  | _, _ => False
  end.
Proof.
  unfold check_config_change, check_config_change_immediate.
  destruct (reload all_apps fs) as [cfg|e]; simpl; [|reflexivity].
  destruct (integrated_mode self); simpl.
  - destruct (adopt_pinned list_of_set all_apps o cfg self) as [d|e]; simpl;
      [repeat split | reflexivity].
  - destruct (Bool.eqb (always_show self) dock_always_show) eqn:E; simpl.
    + apply Bool.eqb_prop in E. subst dock_always_show.
      rewrite set_always_show_same.
      destruct (adopt_pinned list_of_set all_apps o cfg self) as [d|e]; simpl;
        [repeat split | reflexivity].
    + destruct (adopt_pinned list_of_set all_apps o cfg _) as [d|e]; simpl;
        [repeat split | reflexivity].
Qed.

(** X25: a configuration check that finds the pinned list of the file
    equal to the dock's and the always-show preference unchanged leaves
    the dock exactly as it is: no pass is run and no reveal state is
    touched. *)
Theorem config_check_without_change_is_idle
    (list_of_set : list string -> list string) (all_apps : list DesktopApp)
    (o : IpcOutcome (list Client)) (fs : FileSystem) (self : Dock)
    (dock_config : DockConfig) :
  reload all_apps fs = Ok dock_config ->
  pinned_eqb (pinned_apps dock_config) (pinned self) = true ->
  check_config_change list_of_set (always_show self) all_apps o fs self
  = Ok (self, dock_config, true).
Proof.
  intros Hload Heq. unfold check_config_change, adopt_pinned.
  rewrite Hload. simpl. rewrite Bool.eqb_reflx. simpl.
  destruct (negb (integrated_mode self)); now rewrite Heq.
Qed.

Lemma config_check_without_change_is_idle_witness :
  let pins := [Structured [("name", Some "kitty"); ("executable", None)];
               Bare "mpv"] in
  let on_disk := [Structured [("executable", None); ("name", Some "kitty")];
                  Bare "mpv"] in
  let self := new_dock false true pins in
  let dock_config := {| config := {| pinned_apps_item := Some on_disk |} |} in
  let fs := {| dock_json := JsonFile (config dock_config);
               writable := true |} in
  reload [] fs = Ok dock_config
  /\ pinned_eqb (pinned_apps dock_config) (pinned self) = true
  /\ check_config_change first_occurrences true [] Undecodable fs self
     = Ok (self, dock_config, true).
Proof.
  intros pins on_disk self dock_config fs.
  split; [reflexivity|]. split; [reflexivity|].
  exact (config_check_without_change_is_idle first_occurrences [] Undecodable
           fs self dock_config eq_refl eq_refl).
Defined.

(** X26: on a workspace change [check_hide] does nothing while the dock
    is integrated, hovered, dragged from or kept from occlusion;
    otherwise it sets the reveal state to the always-show preference,
    whatever windows the compositor reports and whichever workspace is
    active (the window list it fetches is not consulted), although a
    clients reply that cannot be decoded still makes it raise. *)
Theorem check_hide_ignores_windows (self : Dock) :
  exists self',
    (forall clients ws,
       check_hide (Parsed clients) (Parsed ws) self = Ok self')
    /\ (if integrated_mode self || is_mouse_over_dock_area self
           || _drag_in_progress self || _prevent_occlusion self
        then self' = self
             /\ check_hide Undecodable Undecodable self = Ok self
        else reveal_child self' = always_show self
             /\ pinned self' = pinned self
             /\ children self' = children self
             /\ forall ws, check_hide Undecodable ws self
                           = Raise UnicodeDecodeError).
Proof.
  unfold check_hide.
  destruct (integrated_mode self) eqn:Hi; simpl.
  { exists self. auto. }
  destruct (is_mouse_over_dock_area self || _drag_in_progress self
            || _prevent_occlusion self) eqn:Hg; simpl.
  { exists self. auto. }
  eexists. split; [intros clients ws; reflexivity|].
  destruct (always_show self) eqn:Ha, (reveal_child self) eqn:Hr; simpl;
    repeat split; assumption.
Qed.

Lemma migrate_entries_outcome (app_map : list (string * DesktopApp))
    (old_pinned : list AppId) :
  if forallb is_bare old_pinned
  then exists migrated,
         migrate_entries app_map old_pinned = Ok migrated
         /\ forallb is_structured migrated = true
         /\ List.length migrated = List.length old_pinned
  else migrate_entries app_map old_pinned = Raise TypeError.
Proof.
  induction old_pinned as [|a r IH]; simpl.
  - exists []. auto.
  - destruct a as [s|d]; simpl.
    + destruct (forallb is_bare r).
      * destruct IH as (mr & -> & Hs & Hl).
        destruct (dict_get s app_map); simpl; eexists;
          (split; [reflexivity|]); simpl; auto.
      * rewrite IH. now destruct (dict_get s app_map).
    + reflexivity.
Qed.

(** X27: the outcomes of loading the configuration. A missing file and a
    text that is not JSON give the empty pinned list. A file that cannot
    be opened for another reason, bytes that are not UTF-8 and a JSON value
    that is not an object make the load raise ([OSError],
    [UnicodeDecodeError], [AttributeError]): only [FileNotFoundError] and
    [JSONDecodeError] are handled. An object is returned as it is when its
    list is absent, empty or does not start with a bare string; a list
    that starts with a bare string is migrated into structured records of
    the same number when all its entries are bare strings, and makes the
    load raise [TypeError] when one of them is not. *)
Theorem read_config_outcomes (all_apps : list DesktopApp) (fs : FileSystem) :
  match dock_json fs with
  | NoFile | NotJson =>
      _read_config all_apps fs = Ok {| pinned_apps_item := Some [] |}
  | Unreadable => _read_config all_apps fs = Raise OSError
  | NotUtf8 => _read_config all_apps fs = Raise UnicodeDecodeError
  | JsonOtherFile => _read_config all_apps fs = Raise AttributeError
  | JsonFile c =>
      match pinned_apps_item c with
      | Some (Bare first :: others) =>
          if forallb is_bare others
          then exists migrated,
                 _read_config all_apps fs
                 = Ok {| pinned_apps_item := Some migrated |}
                 /\ forallb is_structured migrated = true
                 /\ List.length migrated = S (List.length others)
          else _read_config all_apps fs = Raise TypeError
      | _ => _read_config all_apps fs = Ok c
      end
  end.
Proof.
  unfold _read_config.
  destruct (dock_json fs) as [| | | | |c]; try reflexivity. simpl.
  unfold _needs_migration, _migrate_config.
  destruct c as [[[|[first|d] others]|]]; simpl; try reflexivity.
  pose proof (migrate_entries_outcome (build_app_map all_apps)
                (Bare first :: others)) as H.
  simpl in H. destruct (forallb is_bare others).
  - destruct H as (migrated & Hm & Hs & Hl).
    exists migrated. simpl in Hm. rewrite Hm. simpl. auto.
  - simpl in H. now rewrite H.
Qed.

(** X28: a configuration that a load returns never needs migration again:
    its list does not start with a bare string. *)
Theorem loaded_config_needs_no_migration (all_apps : list DesktopApp)
    (fs : FileSystem) (loaded : ConfigData) :
  _read_config all_apps fs = Ok loaded ->
  _needs_migration loaded = false.
Proof.
  unfold _read_config.
  destruct (dock_json fs) as [| | | | |c]; simpl;
    try discriminate; try (intros [= <-]; reflexivity).
  destruct (_needs_migration c) eqn:Hneeds; simpl;
    [|intros [= <-]; exact Hneeds].
  unfold _needs_migration in Hneeds. unfold _migrate_config.
  destruct (pinned_apps_item c) as [[|[first|d] others]|]; try discriminate.
  pose proof (migrate_entries_outcome (build_app_map all_apps)
                (Bare first :: others)) as H.
  destruct (forallb is_bare (Bare first :: others)).
  - destruct H as (migrated & -> & Hs & Hl). simpl. intros [= <-].
    unfold _needs_migration. simpl.
    destruct migrated as [|[s|d] r]; [reflexivity | discriminate | reflexivity].
  - rewrite H. discriminate.
Qed.

Lemma loaded_config_needs_no_migration_witness :
  let fs := {| dock_json :=
                 JsonFile {| pinned_apps_item :=
                               Some [Bare "kitty"; Bare "mpv"] |};
               writable := false |} in
  let loaded :=
    {| pinned_apps_item :=
         Some [Structured (app_data_of (app_named "kitty"));
               Structured [("name", Some "mpv")]] |} in
  _read_config [app_named "kitty"] fs = Ok loaded
  /\ _needs_migration loaded = false.
Proof.
  intros fs loaded.
  split; [reflexivity|].
  exact (loaded_config_needs_no_migration [app_named "kitty"] fs loaded
           eq_refl).
Defined.

(** ** Clicks *)


(** X30: when the active-window query is answered by something that is
    not JSON, or by a window without an address, a click on a button with
    instances still works: the focused address counts as empty, so the
    first instance is focused as long as every instance has an address. *)
Theorem click_with_unreadable_focus (launch_success : DesktopApp -> bool)
    (self : Dock) (app_identifier : AppId) (first : Client)
    (rest : list Client) (desktop_app : option DesktopApp) :
  (forall inst, In inst (first :: rest) -> address inst <> "") ->
  handle_app launch_success self Malformed app_identifier (first :: rest)
    desktop_app
  = Ok [focus_command first]
  /\ handle_app launch_success self (Parsed None) app_identifier
       (first :: rest) desktop_app
     = Ok [focus_command first].
Proof.
  intros Haddr.
  assert (Hidx : focused_index "" (first :: rest) 0%Z
                 = (Z.of_nat 0 - 1)%Z).
  { now rewrite focused_index_absent. }
  split; simpl handle_app;
    apply (focus_next_by_index _ (first :: rest) "" 0 first);
    try reflexivity; try discriminate; try exact Hidx;
    now rewrite Nat.Div0.mod_0_l.
Qed.

Lemma click_with_unreadable_focus_witness :
  let w1 := window "0x1" "kitty" in
  let w2 := window "0x2" "kitty" in
  (forall inst, In inst [w1; w2] -> address inst <> "")
  /\ handle_app (fun _ => true) (new_dock false false []) Malformed
       (Bare "kitty") [w1; w2] None
     = Ok [focus_command w1].
Proof.
  intros w1 w2.
  assert (Haddr : forall inst, In inst [w1; w2] -> address inst <> "").
  { intros inst [<- | [<- | []]]; discriminate. }
  split; [exact Haddr|].
  exact (proj1 (click_with_unreadable_focus (fun _ => true)
                  (new_dock false false []) (Bare "kitty") w1 [w2] None
                  Haddr)).
Defined.
